(** * pyPotatoNV: the IDT upload protocol engine

    A shallow embedding of [imageflasher.py] (checksum, frame construction,
    retrying frame transport, chunked upload, device selection) and of the
    upload stage of [main.py], together with the properties established
    about them.

    Conventions of the embedding:
    - Python [int] is [Z]; [bytes] is a list of [Z] values in [0, 256).
    - A method of [ImageFlasher] is a function on an explicit [world]
      (the object's [serial] attribute plus the observable effects),
      returning a [result] that is either a value or a raised exception.
    - Everything the program reads from outside (device responses, the
      clock, the port enumeration, files) comes from an [env] record.
    - Clock readings are doubles ([PrimFloat.float], IEEE 754 binary64 as
      Python's [float]), subtracted and compared as such.  Timeouts and
      sleeps are constants the program only passes on; they are kept as
      rationals. *)

From Stdlib Require Import ZArith QArith List String Ascii Lia Bool.
From Stdlib Require PrimFloat.
From stdpp Require Import gmap strings list.
Import ListNotations.
Open Scope Z_scope.

(** ** Bytes *)

Definition bytes := list Z.

Definition len {A} (l : list A) : Z := Z.of_nat (length l).

(** [data[lo:hi]] for non-negative bounds (Python clamps to the length). *)
Definition slice {A} (data : list A) (lo hi : Z) : list A :=
  firstn (Z.to_nat (hi - lo)) (skipn (Z.to_nat lo) data).

(** ** binascii.crc_hqx

    [crc_hqx] is not part of the repository: it is CPython's
    [binascii.crc_hqx], embedded here as CPython implements it, with its
    256-entry table [crctab_hqx] and the update
    [crc = ((crc << 8) & 0xff00) ^ crctab_hqx[(crc >> 8) ^ byte]]. *)

Module binascii.

Definition crctab_hqx : list Z := [
    0x0000; 0x1021; 0x2042; 0x3063; 0x4084; 0x50a5; 0x60c6; 0x70e7;
    0x8108; 0x9129; 0xa14a; 0xb16b; 0xc18c; 0xd1ad; 0xe1ce; 0xf1ef;
    0x1231; 0x0210; 0x3273; 0x2252; 0x52b5; 0x4294; 0x72f7; 0x62d6;
    0x9339; 0x8318; 0xb37b; 0xa35a; 0xd3bd; 0xc39c; 0xf3ff; 0xe3de;
    0x2462; 0x3443; 0x0420; 0x1401; 0x64e6; 0x74c7; 0x44a4; 0x5485;
    0xa56a; 0xb54b; 0x8528; 0x9509; 0xe5ee; 0xf5cf; 0xc5ac; 0xd58d;
    0x3653; 0x2672; 0x1611; 0x0630; 0x76d7; 0x66f6; 0x5695; 0x46b4;
    0xb75b; 0xa77a; 0x9719; 0x8738; 0xf7df; 0xe7fe; 0xd79d; 0xc7bc;
    0x48c4; 0x58e5; 0x6886; 0x78a7; 0x0840; 0x1861; 0x2802; 0x3823;
    0xc9cc; 0xd9ed; 0xe98e; 0xf9af; 0x8948; 0x9969; 0xa90a; 0xb92b;
    0x5af5; 0x4ad4; 0x7ab7; 0x6a96; 0x1a71; 0x0a50; 0x3a33; 0x2a12;
    0xdbfd; 0xcbdc; 0xfbbf; 0xeb9e; 0x9b79; 0x8b58; 0xbb3b; 0xab1a;
    0x6ca6; 0x7c87; 0x4ce4; 0x5cc5; 0x2c22; 0x3c03; 0x0c60; 0x1c41;
    0xedae; 0xfd8f; 0xcdec; 0xddcd; 0xad2a; 0xbd0b; 0x8d68; 0x9d49;
    0x7e97; 0x6eb6; 0x5ed5; 0x4ef4; 0x3e13; 0x2e32; 0x1e51; 0x0e70;
    0xff9f; 0xefbe; 0xdfdd; 0xcffc; 0xbf1b; 0xaf3a; 0x9f59; 0x8f78;
    0x9188; 0x81a9; 0xb1ca; 0xa1eb; 0xd10c; 0xc12d; 0xf14e; 0xe16f;
    0x1080; 0x00a1; 0x30c2; 0x20e3; 0x5004; 0x4025; 0x7046; 0x6067;
    0x83b9; 0x9398; 0xa3fb; 0xb3da; 0xc33d; 0xd31c; 0xe37f; 0xf35e;
    0x02b1; 0x1290; 0x22f3; 0x32d2; 0x4235; 0x5214; 0x6277; 0x7256;
    0xb5ea; 0xa5cb; 0x95a8; 0x8589; 0xf56e; 0xe54f; 0xd52c; 0xc50d;
    0x34e2; 0x24c3; 0x14a0; 0x0481; 0x7466; 0x6447; 0x5424; 0x4405;
    0xa7db; 0xb7fa; 0x8799; 0x97b8; 0xe75f; 0xf77e; 0xc71d; 0xd73c;
    0x26d3; 0x36f2; 0x0691; 0x16b0; 0x6657; 0x7676; 0x4615; 0x5634;
    0xd94c; 0xc96d; 0xf90e; 0xe92f; 0x99c8; 0x89e9; 0xb98a; 0xa9ab;
    0x5844; 0x4865; 0x7806; 0x6827; 0x18c0; 0x08e1; 0x3882; 0x28a3;
    0xcb7d; 0xdb5c; 0xeb3f; 0xfb1e; 0x8bf9; 0x9bd8; 0xabbb; 0xbb9a;
    0x4a75; 0x5a54; 0x6a37; 0x7a16; 0x0af1; 0x1ad0; 0x2ab3; 0x3a92;
    0xfd2e; 0xed0f; 0xdd6c; 0xcd4d; 0xbdaa; 0xad8b; 0x9de8; 0x8dc9;
    0x7c26; 0x6c07; 0x5c64; 0x4c45; 0x3ca2; 0x2c83; 0x1ce0; 0x0cc1;
    0xef1f; 0xff3e; 0xcf5d; 0xdf7c; 0xaf9b; 0xbfba; 0x8fd9; 0x9ff8;
    0x6e17; 0x7e36; 0x4e55; 0x5e74; 0x2e93; 0x3eb2; 0x0ed1; 0x1ef0
  ].

Definition crc_hqx_step (crc byte : Z) : Z :=
  Z.lxor (Z.land (Z.shiftl crc 8) 0xff00)
         (nth (Z.to_nat (Z.lxor (Z.shiftr crc 8) byte)) crctab_hqx 0).

Definition crc_hqx (data : bytes) (value : Z) : Z :=
  fold_left crc_hqx_step data (Z.land value 0xffff).

End binascii.

(** ** calc_crc (imageflasher.py, lines 20-25) *)

(** One pass of the loop body:
    [crc = ((crc << 8) | char) ^ binascii.crc_hqx(bytes([(crc >> 8) & 0xFF]), 0)]. *)
Definition crc_update (crc char : Z) : Z :=
  Z.lxor (Z.lor (Z.shiftl crc 8) char)
         (binascii.crc_hqx [Z.land (Z.shiftr crc 8) 0xFF] 0).

Definition calc_crc (data : bytes) (crc : Z) : Z :=
  let crc := fold_left crc_update data crc in
  let crc := fold_left crc_update [0; 0] crc in
  Z.land crc 0xFFFF.

(** *** The checksum as the specification words it

    CRC-16/CCITT with polynomial 0x1021, most significant bit first, and
    the 16-bit accumulator that is truncated after every update. *)

Module Reference.

Definition ccitt_shift (r : Z) : Z :=
  if Z.testbit r 15
  then Z.lxor (Z.land (Z.shiftl r 1) 0xFFFF) 0x1021
  else Z.land (Z.shiftl r 1) 0xFFFF.

Definition crc16_ccitt_byte (init byte : Z) : Z :=
  Nat.iter 8 ccitt_shift (Z.lxor init (Z.shiftl byte 8)).

Definition crc16_ccitt (data : bytes) (init : Z) : Z :=
  fold_left crc16_ccitt_byte data init.

Definition update (acc b : Z) : Z :=
  Z.land
    (Z.lxor (Z.lor (Z.shiftl acc 8) b)
            (crc16_ccitt [Z.land (Z.shiftr acc 8) 0xFF] 0))
    0xFFFF.

Definition checksum (data : bytes) : Z :=
  let acc := fold_left update data 0 in
  let acc := update acc 0 in
  update acc 0.

End Reference.

(** ** int.to_bytes(length, byteorder="big", signed=False) *)

Inductive exn : Type :=
| FlashException (msg : string)
| DeviceDetectException (msg : string)
| TimeoutException (msg : string)
| OverflowError
| UnboundLocalError (name : string)
| IndexError
| KeyError (key : string)
| FileNotFoundError (path : string)
| RuntimeError (msg : string)
| ParseError
| SerialException (code : Z).

Inductive result (A : Type) : Type :=
| Ok (a : A)
| Raise (e : exn).
Arguments Ok {A} a.
Arguments Raise {A} e.

Fixpoint be_digits (length : nat) (n : Z) : bytes :=
  match length with
  | O => []
  | S k => be_digits k (n / 256) ++ [n mod 256]
  end.

Definition to_bytes (n : Z) (length : nat) : result bytes :=
  if (n <? 0) || (256 ^ Z.of_nat length <=? n)
  then Raise OverflowError
  else Ok (be_digits length n).

(** ** Constants and protocol frames (imageflasher.py, lines 10-42) *)

Definition TOOLNAME : string := "imageflasher".
Definition BOOT_HEAD_LEN : Z := 0x4F00.
Definition MAX_DATA_LEN : Z := 0x400.
Definition IDT_BAUDRATE : Z := 115200.
Definition IDT_VID : Z := 0x12D1.
Definition IDT_PID : Z := 0x3609.
Definition UPLOAD_TIMEOUT : Z := 50.

(** An [int] as the [float] a comparison with a [float] reads it as,
    built from its binary digits (exact for the integers of magnitude
    below 2^53, where every intermediate value is an integer a double
    holds). *)
Fixpoint float_of_positive (p : positive) : PrimFloat.float :=
  match p with
  | xH => PrimFloat.one
  | xO p' => PrimFloat.mul PrimFloat.two (float_of_positive p')
  | xI p' =>
      PrimFloat.add (PrimFloat.mul PrimFloat.two (float_of_positive p'))
        PrimFloat.one
  end.

Definition float_of_Z (n : Z) : PrimFloat.float :=
  match n with
  | Z0 => PrimFloat.zero
  | Zpos p => float_of_positive p
  | Zneg p => PrimFloat.opp (float_of_positive p)
  end.

Definition startframe : bytes :=
  [0xFE; 0x00; 0xFF; 0x01; 0x00; 0x00; 0x00; 0x04; 0x00; 0x00; 0x02; 0x01].
Definition headframe : bytes := slice startframe 0 4.
Definition dataframe : bytes := [0xDA].
Definition tailframe : bytes := [0xED].
Definition ack : bytes := [0xAA].

(** ** The world of an [ImageFlasher] *)

(** The attributes of the [serial.Serial] object the program sets. *)
Record Serial : Type := {
  port : string;
  baudrate : Z;
  timeout : Q;
  dsrdtr : bool;
  rtscts : bool
}.

Inductive log_level : Type := INFO | WARNING | ERROR.

(** Observable effects, in the order they happen.  [Tx data ok] is one
    [serial.write(data)]; [ok] tells whether the attempt it belongs to went
    through (write and the one-byte read returned) or raised.  [Print]
    keeps the text of an f-string and the integers interpolated in it. *)
Inductive event : Type :=
| SerialOpen (port : string)
| SerialClose
| Tx (data : bytes) (ok : bool)
| Log (level : log_level) (message toolname : string)
| Print (text : string) (args : list Z)
| Sleep (seconds : Q).

(** The four calls of one send attempt, and what the device side makes of
    an attempt: it goes through (the read returns, possibly with no byte
    at all after the timeout), or one of the calls raises an exception of
    the serial library, [SerialException code]. *)
Inductive io_call : Type :=
| reset_output_buffer | reset_input_buffer | serial_write | serial_read.

Inductive io_outcome : Type :=
| Returns (response : bytes)
| Raises (call : io_call) (code : Z).

(** One entry of [serial.tools.list_ports.comports()]. *)
Record ListPortInfo : Type := {
  device : string;
  vid : option Z;
  pid : option Z
}.

(** What the program reads from its surroundings.  [attempt_outcome k] is
    the fate of the k-th send attempt made on the open port, [time_time k]
    the k-th reading of the clock.  [serial_Serial port] is the error code
    with which opening [port] fails, if it does; [load_manifest path] is
    the role table parsed from the manifest, if it parses. *)
Record env : Type := {
  attempt_outcome : nat -> io_outcome;
  time_time : nat -> PrimFloat.float;
  comports : list ListPortInfo;
  platform_system : string;
  serial_Serial : string -> option Z;
  path_exists : string -> bool;
  file_contents : string -> option bytes;
  load_manifest : string -> option (gmap string Z)
}.

Record world : Type := {
  serial : option Serial;
  attempts : nat;
  clock_reads : nat;
  trace : list event
}.

Definition set_serial (s : option Serial) (w : world) : world :=
  {| serial := s; attempts := attempts w;
     clock_reads := clock_reads w; trace := trace w |}.

Definition add_event (e : event) (w : world) : world :=
  {| serial := serial w; attempts := attempts w;
     clock_reads := clock_reads w; trace := trace w ++ [e] |}.

Definition count_attempt (w : world) : world :=
  {| serial := serial w; attempts := S (attempts w);
     clock_reads := clock_reads w; trace := trace w |}.

Definition count_clock_read (w : world) : world :=
  {| serial := serial w; attempts := attempts w;
     clock_reads := S (clock_reads w); trace := trace w |}.

(** ** The monad of methods: state plus exceptions *)

Definition M (A : Type) : Type := world -> result A * world.

Definition ret {A} (a : A) : M A := fun w => (Ok a, w).

Definition raise {A} (e : exn) : M A := fun w => (Raise e, w).

Definition bind {A B} (m : M A) (k : A -> M B) : M B :=
  fun w =>
    match m w with
    | (Ok a, w') => k a w'
    | (Raise e, w') => (Raise e, w')
    end.

Definition lift {A} (r : result A) : M A := fun w => (r, w).

Declare Scope py_scope.
Delimit Scope py_scope with py.
Notation "x <- m ;; k" := (bind m (fun x => k))
  (at level 100, m at next level, right associativity) : py_scope.
Notation "m ;; k" := (bind m (fun _ => k))
  (at level 100, right associativity) : py_scope.
Open Scope py_scope.

Definition emit (e : event) : M unit := fun w => (Ok tt, add_event e w).

Definition print (text : string) (args : list Z) : M unit :=
  emit (Print text args).

Definition sleep (seconds : Q) : M unit := emit (Sleep seconds).

(** log.py *)
Definition log_info (message toolname : string) : M unit :=
  emit (Log INFO message toolname).
Definition log_warning (message toolname : string) : M unit :=
  emit (Log WARNING message toolname).

(** A monadic [for x in xs] threading the loop's local variables. *)
Fixpoint for_each {S X : Type} (xs : list X) (body : X -> S -> M S) (s : S)
  : M S :=
  match xs with
  | [] => ret s
  | x :: xs' => s' <- body x s ;; for_each xs' body s'
  end.

(** [range(n)] and [range(lo, hi)]. *)
Definition range (lo hi : Z) : list Z :=
  map (fun i => lo + Z.of_nat i) (seq 0 (Z.to_nat (hi - lo))).

(** ** class ImageFlasher (imageflasher.py, lines 44-192) *)

Section ImageFlasher.

Variable E : env.

Definition reaches_write (c : io_call) : bool :=
  match c with
  | reset_output_buffer | reset_input_buffer => false
  | serial_write | serial_read => true
  end.

(** The body of the [try] when [self.serial] is set: the two buffer
    resets, [write(data)] and [read(1)]. *)
Definition attempt (data : bytes) : M bytes :=
  fun w =>
    match attempt_outcome E (attempts w) with
    | Returns response =>
        (Ok response, add_event (Tx data true) (count_attempt w))
    | Raises c code =>
        (Raise (SerialException code),
         if reaches_write c
         then add_event (Tx data false) (count_attempt w)
         else count_attempt w)
    end.

(** [for ex in fails: raise ex] *)
Definition raise_fails (fails : list exn) : M unit :=
  match fails with
  | [] => ret tt
  | ex :: _ => raise ex
  end.

(** The retry loop over [itertools.repeat(None, loop - 1)], followed by
    the loop that raises from [fails]. *)
Fixpoint send_frame_loop (data : bytes) (n : nat) (fails : list exn)
  : M unit :=
  match n with
  | O => raise_fails fails
  | S n' =>
      fun w =>
        match serial w with
        | Some _ =>
            match attempt data w with
            | (Ok _, w') => (Ok tt, w')
            | (Raise e, w') => send_frame_loop data n' (fails ++ [e]) w'
            end
        | None => (Ok tt, w)
        end
  end.

Definition send_frame (data : bytes) (loop : Z) : M unit :=
  let crc := calc_crc data 0 in
  trailer <- lift (to_bytes crc 2) ;;
  let data := data ++ trailer in
  send_frame_loop data (Z.to_nat (loop - 1)) [].

(** [if self.serial: self.serial.timeout = t] *)
Definition set_timeout (t : Q) : M unit :=
  fun w =>
    match serial w with
    | Some s =>
        (Ok tt,
         set_serial
           (Some {| port := port s; baudrate := baudrate s; timeout := t;
                    dsrdtr := dsrdtr s; rtscts := rtscts s |}) w)
    | None => (Ok tt, w)
    end.

Definition send_start_frame : M unit :=
  set_timeout (3 # 100) ;;
  log_info "Sending start frame" TOOLNAME ;;
  send_frame startframe 10000.

Definition send_head_frame (length address : Z) : M unit :=
  set_timeout (9 # 100) ;;
  log_info "Sending header frame" TOOLNAME ;;
  let data := headframe in
  l <- lift (to_bytes length 4) ;;
  let data := data ++ l in
  a <- lift (to_bytes address 4) ;;
  let data := data ++ a in
  send_frame data 10.

Definition send_data_frame (n : Z) (data : bytes) : M unit :=
  set_timeout (45 # 100) ;;
  let head := dataframe in
  let head := head ++ [Z.land n 0xFF] in
  let head := head ++ [Z.land (Z.lnot n) 0xFF] in
  send_frame (head ++ data) 40.

Definition send_tail_frame (n : Z) : M unit :=
  set_timeout (1 # 100) ;;
  log_info "Sending tail frame" TOOLNAME ;;
  let data := tailframe in
  let data := data ++ [Z.land n 0xFF] in
  let data := data ++ [Z.land (Z.lnot n) 0xFF] in
  send_frame data 10.

(** [time.time()] *)
Definition now : M PrimFloat.float :=
  fun w => (Ok (time_time E (clock_reads w)), count_clock_read w).

(** The [data] argument of [send_data]: a [bytes] object, or a binary file
    opened for reading (of which the unread contents are kept). *)
Inductive source : Type :=
| Bytes (b : bytes)
| File (unread : bytes).

(** The local variables the loop of [send_data] updates. *)
Record send_data_locals : Type := {
  loc_n : option Z;
  loc_data : source;
  loc_last_percent : Z
}.

Definition nframes_of (length : Z) : Z :=
  length / MAX_DATA_LEN + (if length mod MAX_DATA_LEN >? 0 then 1 else 0).

Definition send_data_body (nframes : Z) (start_time : PrimFloat.float)
    (n : Z) (st : send_data_locals) : M send_data_locals :=
  t <- now ;;
  if PrimFloat.ltb (float_of_Z UPLOAD_TIMEOUT) (PrimFloat.sub t start_time)
  then raise (TimeoutException "Upload timeout exceeded!")
  else
    let '(chunk, data) :=
      match loc_data st with
      | Bytes b =>
          (slice b (n * MAX_DATA_LEN) ((n + 1) * MAX_DATA_LEN), Bytes b)
      | File unread =>
          (firstn (Z.to_nat MAX_DATA_LEN) unread,
           File (skipn (Z.to_nat MAX_DATA_LEN) unread))
      end in
    send_data_frame (n + 1) chunk ;;
    let percent := (100 * (n + 1)) / nframes in
    if percent >? loc_last_percent st
    then
      print "\rUploading... {percent}% complete" [percent] ;;
      ret {| loc_n := Some n; loc_data := data; loc_last_percent := percent |}
    else
      ret {| loc_n := Some n; loc_data := data;
             loc_last_percent := loc_last_percent st |}.

(** [length] is always an [int] here, so [not isinstance(length, int)] is
    false. *)
Definition send_data (data : source) (length address : Z) : M unit :=
  let length := match data with Bytes b => len b | File _ => length end in
  if length =? 0 then raise (FlashException "Invalid data length")
  else
    let nframes := nframes_of length in
    send_head_frame length address ;;
    start_time <- now ;;
    st <- for_each (range 0 nframes) (send_data_body nframes start_time)
            {| loc_n := None; loc_data := data; loc_last_percent := -1 |} ;;
    print "\nUpload complete!" [] ;;
    match loc_n st with
    | Some n => send_tail_frame (n + 1)
    | None => raise (UnboundLocalError "n")
    end ;;
    sleep (1 # 2).

Definition download_from_disk (fil : string) (address : Z) : M unit :=
  match file_contents E fil with
  | Some content => send_data (File content) (len content) address
  | None => raise (FileNotFoundError fil)
  end.

(** *** String helpers of [connect_serial] (ASCII device names) *)

Definition upper_ascii (c : ascii) : ascii :=
  let n := nat_of_ascii c in
  if ((97 <=? n) && (n <=? 122))%nat then ascii_of_nat (n - 32) else c.

Fixpoint upper (s : string) : string :=
  match s with
  | EmptyString => EmptyString
  | String c s' => String (upper_ascii c) (upper s')
  end.

Definition startswith (s p : string) : bool := String.prefix p s.

(** [s.replace(old, new)] for a non-empty [old]: every non-overlapping
    occurrence, left to right; [skip] counts the characters of an
    occurrence still to be dropped. *)
Fixpoint replace_from (old new s : string) (skip : nat) : string :=
  match s with
  | EmptyString => EmptyString
  | String c s' =>
      match skip with
      | S k => replace_from old new s' k
      | O =>
          if String.prefix old s
          then new +:+ replace_from old new s' (String.length old - 1)
          else String c (replace_from old new s' 0)
      end
  end.

Definition replace (s old new : string) : string := replace_from old new s 0.

Definition is_idt_port (p : ListPortInfo) : bool :=
  bool_decide (vid p = Some IDT_VID) && bool_decide (pid p = Some IDT_PID).

(** [serial.Serial(port=..., baudrate=IDT_BAUDRATE, timeout=1, dsrdtr=True,
    rtscts=True)], assigned to [self.serial]. *)
Definition open_serial (port : string) : M unit :=
  match serial_Serial E port with
  | Some code => raise (SerialException code)
  | None =>
      fun w =>
        (Ok tt,
         add_event (SerialOpen port)
           (set_serial
              (Some {| port := port; baudrate := IDT_BAUDRATE; timeout := 1;
                       dsrdtr := true; rtscts := true |}) w))
  end.

Definition connect_serial (explicit : option string) : M unit :=
  dev <-
    match explicit with
    | None =>
        let ports := comports E in
        let matching_ports := List.filter is_idt_port ports in
        if bool_decide (matching_ports = [])
        then raise (DeviceDetectException "No IDT mode device found")
        else if len matching_ports >? 1
        then raise (DeviceDetectException
                      "Multiple IDT devices found. Specify manually.")
        else
          match matching_ports !! 0%nat with
          | Some p =>
              log_warning ("Autoselecting " +:+ device p) TOOLNAME ;;
              ret (device p)
          | None => raise IndexError
          end
    | Some d => ret d
    end ;;
  let port :=
    if String.eqb (platform_system E) "Windows"
       && startswith (upper dev) "COM"
    then replace dev "COM" "\\.\COM"
    else dev in
  open_serial port.

(** [with ImageFlasher() as flasher: body]: a fresh object has no serial
    handle; [__exit__] closes the handle if there is one and lets an
    exception of the body through. *)
Definition with_ImageFlasher {A} (body : M A) : M A :=
  fun w =>
    let '(r, w') := body (set_serial None w) in
    (r, match serial w' with
        | Some _ => add_event SerialClose w'
        | None => w'
        end).

Definition xupload_body (length : Z) (data : bytes) (seq offset : Z)
  : M Z :=
  let chunk := slice data offset (offset + MAX_DATA_LEN) in
  send_data_frame seq chunk ;;
  let offset := offset + MAX_DATA_LEN in
  print "{min(offset, length)} / {length} bytes" [Z.min offset length; length] ;;
  ret offset.

(** [data] is a [bytes] object (what [main] passes), so [length] is
    always replaced by [len(data)]. *)
Definition xupload (address : Z) (data : bytes) (length : Z) : M unit :=
  fun w =>
    match serial w with
    | None => (Raise (FlashException "Serial port not connected"), w)
    | Some _ =>
        (let length := len data in
         if length =? 0 then raise (FlashException "No data to upload")
         else
           let nframes := nframes_of length in
           send_head_frame length address ;;
           _ <- for_each (range 1 (nframes + 1))
                  (xupload_body length data) 0 ;;
           send_tail_frame nframes ;;
           print "{length} / {length} bytes\nUpload complete!"
             [length; length] ;;
           sleep (1 # 10)) w
    end.

(** ** main.py, up to the end of the upload stage (lines 44-90)

    [load_manifest] (XML parsing) is taken from the environment; the
    command-channel stages after the settle sleep are not embedded. *)

Definition getitem (roles : gmap string Z) (role : string) : M Z :=
  match roles !! role with
  | Some a => ret a
  | None => raise (KeyError role)
  end.

Definition read_file (path : string) : M bytes :=
  match file_contents E path with
  | Some content => ret content
  | None => raise (FileNotFoundError path)
  end.

Definition getsize (path : string) : M Z :=
  match file_contents E path with
  | Some content => ret (len content)
  | None => raise (FileNotFoundError path)
  end.

(** One call [flasher.xupload(roles[role], open(f"{loaders_dir}/{role}.img",
    "rb").read(), os.path.getsize(f"{loaders_dir}/{role}.img"))] of [main];
    the arguments are evaluated left to right, the role lookup first. *)
Definition upload_role (roles : gmap string Z) (loaders_dir role : string)
  : M unit :=
  address <- getitem roles role ;;
  data <- read_file (loaders_dir +:+ "/" +:+ role +:+ ".img") ;;
  length <- getsize (loaders_dir +:+ "/" +:+ role +:+ ".img") ;;
  xupload address data length.

Definition print_role_address (roles : gmap string Z) (role : string)
    (_ : unit) : M unit :=
  match roles !! role with
  | Some a => print ("[DEBUG] " +:+ role +:+ " address: 0x{:08X}") [a]
  | None => ret tt
  end.

Definition main (chipset : string) (unlock wipefrp : bool) : M unit :=
  if unlock && wipefrp
  then raise (RuntimeError "Cannot use --unlock and --wipefrp at the same time")
  else
    let loaders_dir := "loaders/" +:+ chipset in
    let manifest_path := loaders_dir +:+ "/manifest.xml" in
    if negb (path_exists E manifest_path)
    then raise (FileNotFoundError manifest_path)
    else
      roles <- match load_manifest E manifest_path with
               | Some roles => ret roles
               | None => raise ParseError
               end ;;
      print ("[INFO] Uploading images for chipset: " +:+ chipset) [] ;;
      for_each ["xloader"; "fastboot"; "uce"] (print_role_address roles) tt ;;
      with_ImageFlasher
        (connect_serial None ;;
         print "[INFO] Uploading xloader..." [] ;;
         upload_role roles loaders_dir "xloader" ;;
         match roles !! "uce" with
         | Some _ =>
             print "[INFO] Uploading uce..." [] ;;
             upload_role roles loaders_dir "uce"
         | None => ret tt
         end ;;
         print "[INFO] Uploading fastboot..." [] ;;
         upload_role roles loaders_dir "fastboot") ;;
      print "[INFO] Upload complete, waiting 5 seconds." [] ;;
      sleep 5.

End ImageFlasher.

(** ** Observing a run *)

(** The frames that went through, oldest first: an attempt that raised is
    retried, and only the attempt that succeeds counts as the frame being
    sent. *)
Fixpoint sent (t : list event) : list bytes :=
  match t with
  | [] => []
  | Tx data true :: t' => data :: sent t'
  | _ :: t' => sent t'
  end.

(** Everything handed to [serial.write], whatever became of the attempt. *)
Fixpoint written (t : list event) : list bytes :=
  match t with
  | [] => []
  | Tx data _ :: t' => data :: written t'
  | _ :: t' => written t'
  end.

Fixpoint opened (t : list event) : list string :=
  match t with
  | [] => []
  | SerialOpen p :: t' => p :: opened t'
  | _ :: t' => opened t'
  end.

Definition has_tag (tag : Z) (frame : bytes) : bool :=
  match frame with
  | b :: _ => b =? tag
  | [] => false
  end.

Definition is_head_frame : bytes -> bool := has_tag 0xFE.
Definition is_data_frame : bytes -> bool := has_tag 0xDA.
Definition is_tail_frame : bytes -> bool := has_tag 0xED.

(** The second and third byte of a data or tail frame. *)
Definition seq_byte (frame : bytes) : Z := nth 1 frame 0.
Definition complement_byte (frame : bytes) : Z := nth 2 frame 0.

(** What [send_frame] puts on the wire for [data]. *)
Definition with_trailer (data : bytes) : bytes :=
  data ++ be_digits 2 (calc_crc data 0).

(** The bytes the three frame methods hand to [send_frame]. *)
Definition head_frame (length address : Z) : bytes :=
  headframe ++ be_digits 4 length ++ be_digits 4 address.

Definition data_frame (n : Z) (chunk : bytes) : bytes :=
  ((dataframe ++ [Z.land n 0xFF]) ++ [Z.land (Z.lnot n) 0xFF]) ++ chunk.

Definition tail_frame (n : Z) : bytes :=
  (tailframe ++ [Z.land n 0xFF]) ++ [Z.land (Z.lnot n) 0xFF].

Definition connected (w : world) : Prop := serial w <> None.

(** The data frames [xupload] sends for the sequence numbers [seqs]. *)
Definition xupload_data_frames (data : bytes) (seqs : list Z) : list bytes :=
  map (fun seq =>
         with_trailer
           (data_frame seq
              (slice data ((seq - 1) * MAX_DATA_LEN) (seq * MAX_DATA_LEN))))
      seqs.

(** The payload length [send_data] works with. *)
Definition payload_length (data : source) (length : Z) : Z :=
  match data with
  | Bytes b => len b
  | File _ => length
  end.


(** The frames of an upload that stopped early: none, or the header frame
    and at most [nf] data frames. *)
Definition partial_upload (nf : Z) (frames : list bytes) : Prop :=
  frames = []
  \/ exists head dfs,
       frames = head :: dfs
       /\ is_head_frame head = true
       /\ Forall (fun f => is_data_frame f = true) dfs
       /\ len dfs <= nf.

(** The events of [t] are writes of [data] and nothing else. *)
Definition writes_of (data : bytes) (t : list event) : Prop :=
  Forall (fun e => exists ok, e = Tx data ok) t.

(** The exceptions a frame method can raise. *)
Definition transport_failure (e : exn) : Prop :=
  e = OverflowError \/ exists code, e = SerialException code.

(** The exception of the deadline check of [send_data]. *)
Definition timed_out (e : exn) : Prop :=
  e = TimeoutException "Upload timeout exceeded!".

(** The check at the top of an iteration passes on clock reading [k]. *)
Definition within_deadline (E : env) (start_time : PrimFloat.float)
    (k : nat) : Prop :=
  PrimFloat.ltb (float_of_Z UPLOAD_TIMEOUT)
    (PrimFloat.sub (time_time E k) start_time)
  = false.

(** The outcome of handing frame [f] to the transport:
    nothing but [f] is written, no port is opened, the clock is not read;
    a normal return on a connected flasher means [f] was sent once, on an
    unconnected one nothing is written at all; the only exceptions are a
    failure of the serial library or an integer that does not fit. *)
Definition frame_run (f : bytes) (w : world) (r : result unit) (w' : world)
  : Prop :=
  (connected w <-> connected w')
  /\ clock_reads w' = clock_reads w
  /\ exists t,
       trace w' = trace w ++ t
       /\ Forall (eq f) (written t)
       /\ opened t = []
       /\ match r with
          | Ok _ =>
              (connected w -> sent t = [f])
              /\ (~ connected w -> written t = [])
          | Raise e =>
              sent t = []
              /\ (e = OverflowError \/ exists code, e = SerialException code)
          end.

(** Every attempt numbered from [from] up to [from + n] raises. *)
Definition all_fail (E : env) (from n : nat) : Prop :=
  forall k, (from <= k < from + n)%nat ->
    exists c code, attempt_outcome E k = Raises c code.

(** [k] is the ceiling of [a / b]. *)
Definition is_ceil_div (a b k : Z) : Prop := (k - 1) * b < a <= k * b.

(** The path [connect_serial] hands to [serial.Serial] for device [dev]. *)
Definition port_path (E : env) (dev : string) : string :=
  if String.eqb (platform_system E) "Windows" && startswith (upper dev) "COM"
  then replace dev "COM" "\\.\COM"
  else dev.

(** The handle [connect_serial] stores after opening [port]. *)
Definition fresh_handle (port : string) : Serial :=
  {| port := port; baudrate := IDT_BAUDRATE; timeout := 1;
     dsrdtr := true; rtscts := true |}.

(** One upload of a payload of length [L], by either of the two upload
    methods, started in world [w] and ending in [w'] with result [r]. *)
Inductive upload_run (E : env) (L : Z) (w : world) (r : result unit)
    (w' : world) : Prop :=
| by_xupload (address : Z) (data : bytes) (length : Z) :
    L = len data ->
    xupload E address data length w = (r, w') ->
    upload_run E L w r w'
| by_send_data (data : source) (length address : Z) :
    L = payload_length data length ->
    send_data E data length address w = (r, w') ->
    upload_run E L w r w'.

(** ** Scenarios

    Concrete surroundings on which the methods are run. *)

Module Scenario.

Definition idt_port : ListPortInfo :=
  {| device := "/dev/ttyUSB0"; vid := Some 0x12D1; pid := Some 0x3609 |}.

Definition second_idt_port : ListPortInfo :=
  {| device := "/dev/ttyUSB1"; vid := Some 0x12D1; pid := Some 0x3609 |}.

Definition other_port : ListPortInfo :=
  {| device := "/dev/ttyS0"; vid := None; pid := None |}.

(** Same vendor, another product. *)
Definition modem_port : ListPortInfo :=
  {| device := "/dev/ttyUSB2"; vid := Some 0x12D1; pid := Some 0x1506 |}.

(** A payload of 2500 bytes: chunks of 1024, 1024 and 452 bytes. *)
Definition payload : bytes := repeat 0x5A 2500.

Definition both_roles : gmap string Z :=
  {[ "xloader" := 0x00020000; "fastboot" := 0x1AC00000 ]}.

Definition only_fastboot : gmap string Z := {[ "fastboot" := 0x1AC00000 ]}.

Definition make_env (outcome : nat -> io_outcome)
    (clock : nat -> PrimFloat.float)
    (ports : list ListPortInfo) (roles : gmap string Z) : env :=
  {| attempt_outcome := outcome;
     time_time := clock;
     comports := ports;
     platform_system := "Linux";
     serial_Serial := fun _ => None;
     path_exists := fun _ => true;
     file_contents := fun _ => Some payload;
     load_manifest := fun _ => Some roles |}.

(** Every attempt goes through. *)
Definition acks (k : nat) : io_outcome := Returns ack.

(** Every attempt raises at the read, each with its own error code. *)
Definition fails_always (k : nat) : io_outcome :=
  Raises serial_read (Z.of_nat k).

(** One second, respectively a hundred seconds, between clock readings. *)
Definition steady_clock (k : nat) : PrimFloat.float :=
  float_of_Z (Z.of_nat k).
Definition stalled_clock (k : nat) : PrimFloat.float :=
  float_of_Z (100 * Z.of_nat k).

Definition healthy : env :=
  make_env acks steady_clock [other_port; idt_port] both_roles.

Definition dead_link : env :=
  make_env fails_always steady_clock [idt_port] both_roles.

Definition stalled : env :=
  make_env acks stalled_clock [idt_port] both_roles.

Definition no_xloader : env :=
  make_env acks steady_clock [other_port; idt_port] only_fastboot.

Definition no_device : env :=
  make_env acks steady_clock [other_port; modem_port] both_roles.

Definition two_devices : env :=
  make_env acks steady_clock [idt_port; other_port; second_idt_port]
    both_roles.

(** A flasher just constructed, and one with an open handle. *)
Definition fresh : world :=
  {| serial := None; attempts := 0; clock_reads := 0; trace := [] |}.

Definition plugged : world :=
  {| serial := Some (fresh_handle "/dev/ttyUSB0");
     attempts := 0; clock_reads := 0; trace := [] |}.

End Scenario.

(** ** Further observers *)

Definition is_byte (b : Z) : Prop := 0 <= b < 256.

(** The high byte of the 16-bit register, and the register moved up by a
    byte. *)
Definition high_byte (c : Z) : Z := Z.land (Z.shiftr c 8) 0xFF.
Definition shift_byte (c : Z) : Z := Z.land (Z.shiftl c 8) 0xFFFF.

(** [crctab_hqx[x]] *)
Definition table_entry (x : Z) : Z := nth (Z.to_nat x) binascii.crctab_hqx 0.

(** [int.from_bytes(b, "big")] *)
Definition be_value (b : bytes) : Z :=
  fold_left (fun acc x => acc * 256 + x) b 0.

(** Every frame the method [m] hands to [serial.write] from world [w]
    satisfies [P]. *)
Definition writes_only (P : bytes -> Prop) (m : M unit) (w : world) : Prop :=
  exists t, trace (snd (m w)) = trace w ++ t /\ Forall P (written t).

(** The handle with its read timeout reset. *)
Definition with_timeout (s : Serial) (t : Q) : Serial :=
  {| port := port s; baudrate := baudrate s; timeout := t;
     dsrdtr := dsrdtr s; rtscts := rtscts s |}.

(** Two surroundings in which the same attempts raise, with the same
    exceptions at the same calls, whatever the device answers when an
    attempt goes through. *)
Definition same_failures (E1 E2 : env) : Prop :=
  forall k,
    match attempt_outcome E1 k, attempt_outcome E2 k with
    | Returns _, Returns _ => True
    | Raises c1 code1, Raises c2 code2 => c1 = c2 /\ code1 = code2
    | _, _ => False
    end.

(** Attempt number [from + j] is the first to go through. *)
Definition first_success (E : env) (from j : nat) : Prop :=
  all_fail E from j
  /\ exists response, attempt_outcome E (from + j) = Returns response.

(** The payload bytes of a data frame: what is left without the tag, the
    sequence byte, its complement and the two checksum bytes. *)
Definition frame_payload (f : bytes) : bytes :=
  firstn (length f - 5) (skipn 3 f).

(** The payload bytes carried by the data frames sent in [t], in order. *)
Definition payload_sent (t : list event) : bytes :=
  concat (map frame_payload (List.filter is_data_frame (sent t))).

(** The chunk an iteration of [send_data] takes from its source, and the
    source it leaves. *)
Definition next_chunk (data : source) (n : Z) : bytes * source :=
  match data with
  | Bytes b =>
      (slice b (n * MAX_DATA_LEN) ((n + 1) * MAX_DATA_LEN), Bytes b)
  | File unread =>
      (firstn (Z.to_nat MAX_DATA_LEN) unread,
       File (skipn (Z.to_nat MAX_DATA_LEN) unread))
  end.

(** The bytes the iterations [lo .. hi - 1] of [send_data] take. *)
Definition pending (data : source) (lo hi : Z) : bytes :=
  match data with
  | Bytes b => slice b (lo * MAX_DATA_LEN) (hi * MAX_DATA_LEN)
  | File unread => firstn (Z.to_nat ((hi - lo) * MAX_DATA_LEN)) unread
  end.

(** ** download (imageflasher.py, lines 195-203)

    [str] is Python's [str] on exceptions: the text of a serial-library
    exception is not ours to fix. *)

Section Wrapper.

Variable E : env.
Variable str : exn -> string.


End Wrapper.

(** A method that opens no port and does not lose the handle. *)
Definition steady {A} (m : M A) : Prop :=
  forall w r w',
    m w = (r, w') ->
    (connected w -> connected w')
    /\ exists t, trace w' = trace w ++ t /\ opened t = [].


(** The frames of one complete upload of [data] to [address]. *)
Definition upload_frames (address : Z) (data : bytes) : list bytes :=
  with_trailer (head_frame (len data) address)
    :: xupload_data_frames data (range 1 (nframes_of (len data) + 1))
    ++ [with_trailer (tail_frame (nframes_of (len data)))].

(** The frames [main] sends for [role]: a complete upload of its image
    file when the role table and the directory have it, nothing
    otherwise. *)
Definition role_frames (E : env) (roles : gmap string Z)
    (loaders_dir role : string) : list bytes :=
  match roles !! role,
        file_contents E (loaders_dir +:+ "/" +:+ role +:+ ".img") with
  | Some address, Some data => upload_frames address data
  | _, _ => []
  end.

Definition not_a_KeyError (e : exn) : Prop := forall key, e <> KeyError key.

(** Surroundings whose manifest has [xloader] only. *)
Definition only_xloader_env : env :=
  Scenario.make_env Scenario.acks Scenario.steady_clock [Scenario.idt_port]
    {[ "xloader" := 0x00020000 ]}.

(** The percentages printed by the progress line of [send_data]. *)
Fixpoint progress (t : list event) : list Z :=
  match t with
  | [] => []
  | Print text args :: t' =>
      if String.eqb text "\rUploading... {percent}% complete"
      then args ++ progress t'
      else progress t'
  | _ :: t' => progress t'
  end.

(** Each element is greater than the one before, the first greater than
    [last]. *)
Fixpoint increasing (last : Z) (l : list Z) : Prop :=
  match l with
  | [] => True
  | p :: l' => last < p /\ increasing p l'
  end.

(** A method that prints no progress line. *)
Definition silent {A} (m : M A) : Prop :=
  forall w r w',
    m w = (r, w') -> exists t, trace w' = trace w ++ t /\ progress t = [].

Module Manifest.

(** An element of the parsed manifest: its tag and its attributes. *)
Record Element := {
  tag : string;
  attrib : gmap string string
}.

(** [element.get(key)]: the attribute, [None] when it is absent. *)
Definition get (element : Element) (key : string) : option string :=
  attrib element !! key.

(** [root.findall(tag)]: the children of the root with that tag, in
    document order. *)
Fixpoint findall (path : string) (children : list Element) : list Element :=
  match children with
  | [] => []
  | child :: rest =>
      if String.eqb (tag child) path
      then child :: findall path rest
      else findall path rest
  end.

(** Truth value of a string. *)
Definition truthy (s : string) : bool :=
  match s with
  | EmptyString => false
  | String _ _ => true
  end.

Section LoadManifest.

(** [int(addr, 0)]; [None] where it raises [ValueError]. *)
Variable int0 : string -> option Z.

(** The loop of [load_manifest] over the elements found, from the table
    [roles] built so far; [None] when an address does not parse. *)
Fixpoint collect (images : list Element) (roles : gmap string Z)
    : option (gmap string Z) :=
  match images with
  | [] => Some roles
  | image :: rest =>
      match get image "role", get image "address" with
      | Some role, Some addr =>
          if truthy role && truthy addr
          then match int0 addr with
               | Some a => collect rest (<[role := a]> roles)
               | None => None
               end
          else collect rest roles
      | _, _ => collect rest roles
      end
  end.

(** [load_manifest], from the children of the root of the parsed file. *)
Definition load_manifest (root : list Element) : option (gmap string Z) :=
  collect (findall "image" root) ∅.

End LoadManifest.

(** [e] is an [image] element with a non-empty role [r] and a non-empty
    address [addr]. *)
Definition declares (e : Element) (r addr : string) : Prop :=
  tag e = "image"%string
  /\ get e "role" = Some r /\ r <> EmptyString
  /\ get e "address" = Some addr /\ addr <> EmptyString.

End Manifest.


(** A manifest with a repeated role, an element that is no image, an
    image without address and one without role, and a reading of the
    addresses it uses. *)
Module ManifestScenario.

Definition element (t : string) (attributes : list (string * string))
    : Manifest.Element :=
  {| Manifest.tag := t; Manifest.attrib := list_to_map attributes |}.

Definition root : list Manifest.Element :=
  [ element "image" [("role", "xloader"); ("address", "0x00020000")];
    element "note" [("role", "fastboot"); ("address", "0x0")];
    element "image" [("role", "uce")];
    element "image" [("role", "xloader"); ("address", "0x00022000")];
    element "image" [("address", "0x07000000")];
    element "image" [("role", "fastboot"); ("address", "0x1AC00000")] ]%string.

Definition int0 (s : string) : option Z :=
  if String.eqb s "0x00020000" then Some 0x20000
  else if String.eqb s "0x00022000" then Some 0x22000
  else if String.eqb s "0x1AC00000" then Some 0x1AC00000
  else if String.eqb s "0x0" then Some 0
  else None.

Definition roles : gmap string Z :=
  <["fastboot"%string := 0x1AC00000]> (<["xloader"%string := 0x22000]> ∅).

End ManifestScenario.

(** [c not in s]. *)
Fixpoint free_of (c : ascii) (s : string) : bool :=
  match s with
  | EmptyString => true
  | String c' s' => negb (Ascii.eqb c' c) && free_of c s'
  end.

(** A Windows host on which every port opens. *)
Definition windows_env : env :=
  {| attempt_outcome := Scenario.acks;
     time_time := Scenario.steady_clock;
     comports := [];
     platform_system := "Windows";
     serial_Serial := fun _ => None;
     path_exists := fun _ => true;
     file_contents := fun _ => Some Scenario.payload;
     load_manifest := fun _ => Some Scenario.both_roles |}.

(** The same manifest behind an [xloader] image whose address is no
    number. *)
Definition bad_manifest_root : list Manifest.Element :=
  ManifestScenario.element "image"
    [("role", "xloader"); ("address", "twenty")]%string
  :: ManifestScenario.root.

(** A method that hands no tail frame to [serial.write], in no attempt. *)
Definition no_tail_written {A} (m : M A) : Prop :=
  forall w r w',
    m w = (r, w') ->
    exists t,
      trace w' = trace w ++ t
      /\ List.filter is_tail_frame (written t) = [].

(** Every attempt on the open port goes through. *)
Definition link_up (E : env) : Prop :=
  forall k, exists response, attempt_outcome E k = Returns response.

(** A clock that reads the double nearest 0.1 first and the double nearest
    50.1 from then on, and surroundings with that clock. *)
Definition tenth_clock (k : nat) : PrimFloat.float :=
  match k with
  | O => PrimFloat.div (float_of_Z 1) (float_of_Z 10)
  | S _ => PrimFloat.div (float_of_Z 501) (float_of_Z 10)
  end.

Definition tenth_env : env :=
  Scenario.make_env Scenario.acks tenth_clock [Scenario.idt_port]
    Scenario.both_roles.

(** * Properties *)

(** ** The checksum *)

Section Checksum.

Lemma land_0xFF_byte (x : Z) : 0 <= Z.land x 0xFF < 256.
Proof.
  change 0xFF with (Z.ones 8). rewrite Z.land_ones by lia.
  change (2 ^ 8) with 256. apply Z.mod_pos_bound. lia.
Qed.

Lemma table_agrees_on_bytes :
  forallb
    (fun i => binascii.crc_hqx [Z.of_nat i] 0
              =? Reference.crc16_ccitt [Z.of_nat i] 0)
    (seq 0 256) = true.
Proof. vm_compute. reflexivity. Qed.

(** The table of [binascii.crc_hqx] holds the bitwise CRC-16/CCITT of
    each byte. *)
Lemma crc_hqx_single_byte (b : Z) :
  0 <= b < 256 ->
  binascii.crc_hqx [b] 0 = Reference.crc16_ccitt [b] 0.
Proof.
  intros Hb.
  pose proof table_agrees_on_bytes as H.
  rewrite forallb_forall in H.
  specialize (H (Z.to_nat b)).
  rewrite Z2Nat.id in H by lia.
  apply Z.eqb_eq, H, in_seq. lia.
Qed.

Lemma high_byte_of_truncation (crc : Z) :
  Z.land (Z.shiftr (Z.land crc 0xFFFF) 8) 0xFF
  = Z.land (Z.shiftr crc 8) 0xFF.
Proof.
  change 0xFFFF with (Z.ones 16). change 0xFF with (Z.ones 8).
  apply Z.bits_inj'. intros i Hi.
  rewrite !Z.land_spec, !Z.shiftr_spec, Z.land_spec by lia.
  destruct (Z.ltb_spec i 8) as [Hlt | Hge].
  - rewrite (Z.ones_spec_low 16 (i + 8)) by lia.
    now rewrite andb_true_r.
  - rewrite (Z.ones_spec_high 8 i) by lia.
    now rewrite !andb_false_r.
Qed.

Lemma shifted_truncation (crc b t : Z) :
  Z.land (Z.lxor (Z.lor (Z.shiftl (Z.land crc 0xFFFF) 8) b) t) 0xFFFF
  = Z.land (Z.lxor (Z.lor (Z.shiftl crc 8) b) t) 0xFFFF.
Proof.
  change 0xFFFF with (Z.ones 16).
  apply Z.bits_inj'. intros i Hi.
  rewrite !Z.land_spec, !Z.lxor_spec, !Z.lor_spec.
  destruct (Z.ltb_spec i 16) as [Hlt | Hge].
  - rewrite !Z.shiftl_spec, Z.land_spec by lia.
    destruct (Z.ltb_spec (i - 8) 0) as [Hneg | Hpos].
    + now rewrite !Z.testbit_neg_r by lia.
    + rewrite (Z.ones_spec_low 16 (i - 8)) by lia.
      now rewrite andb_true_r.
  - rewrite (Z.ones_spec_high 16 i) by lia.
    now rewrite !andb_false_r.
Qed.

(** Truncating before an update or after it gives the same 16 bits. *)
Lemma crc_update_truncates (crc b : Z) :
  Z.land (crc_update crc b) 0xFFFF
  = Reference.update (Z.land crc 0xFFFF) b.
Proof.
  unfold crc_update, Reference.update.
  rewrite high_byte_of_truncation, shifted_truncation.
  now rewrite crc_hqx_single_byte by apply land_0xFF_byte.
Qed.

Lemma fold_crc_update_truncates (data : bytes) :
  forall crc,
    Z.land (fold_left crc_update data crc) 0xFFFF
    = fold_left Reference.update data (Z.land crc 0xFFFF).
Proof.
  induction data as [| b data IH]; intros crc; cbn [fold_left].
  - reflexivity.
  - now rewrite IH, crc_update_truncates.
Qed.

Lemma calc_crc_range (data : bytes) (crc : Z) :
  0 <= calc_crc data crc < 2 ^ 16.
Proof.
  unfold calc_crc. change 0xFFFF with (Z.ones 16).
  rewrite Z.land_ones by lia. apply Z.mod_pos_bound. lia.
Qed.

(** C1. For every byte sequence, [calc_crc] with the default seed 0
    returns the value of the reference algorithm: the accumulator starts
    at 0, each byte [b] updates it to
    [((acc << 8) | b) xor crc16_ccitt((acc >> 8) & 0xFF)] truncated to 16
    bits, two more updates feed the byte 0, and the final accumulator is
    the checksum.  Masking once at the end, as the code does, and
    truncating at every step give the same value. *)
Theorem calc_crc_is_reference_checksum (data : bytes) :
  calc_crc data 0 = Reference.checksum data.
Proof.
  unfold calc_crc, Reference.checksum.
  rewrite <- fold_left_app, fold_crc_update_truncates.
  change (Z.land 0 0xFFFF) with 0.
  now rewrite fold_left_app.
Qed.

End Checksum.

(** ** Traces *)

Lemma sent_app (t1 t2 : list event) : sent (t1 ++ t2) = sent t1 ++ sent t2.
Proof.
  induction t1 as [| e t1 IH]; [reflexivity |].
  destruct e as [| | d [|] | | |]; cbn; now rewrite ?IH.
Qed.

Lemma written_app (t1 t2 : list event) :
  written (t1 ++ t2) = written t1 ++ written t2.
Proof.
  induction t1 as [| e t1 IH]; [reflexivity |].
  destruct e; cbn; now rewrite ?IH.
Qed.

Lemma opened_app (t1 t2 : list event) :
  opened (t1 ++ t2) = opened t1 ++ opened t2.
Proof.
  induction t1 as [| e t1 IH]; [reflexivity |].
  destruct e; cbn; now rewrite ?IH.
Qed.

(** A frame that was sent was written. *)
Lemma sent_written (t : list event) (f : bytes) :
  In f (sent t) -> In f (written t).
Proof.
  induction t as [| e t IH]; [easy |].
  destruct e as [| | d [|] | | |]; cbn; intuition.
Qed.

Lemma written_nil_sent_nil (t : list event) : written t = [] -> sent t = [].
Proof.
  intros H. destruct (sent t) as [| f l] eqn:Hs; [reflexivity |].
  assert (Hin : In f (written t)) by (apply sent_written; rewrite Hs; now left).
  rewrite H in Hin. destruct Hin.
Qed.

(** ** The monad *)

Lemma bind_inv {A B} (m : M A) (k : A -> M B) w r w' :
  bind m k w = (r, w') ->
  (exists a w1, m w = (Ok a, w1) /\ k a w1 = (r, w'))
  \/ (exists e, m w = (Raise e, w') /\ r = Raise e).
Proof.
  unfold bind. destruct (m w) as [[a | e] w1] eqn:Hm; intros H.
  - left. eauto.
  - right. injection H as <- <-. eauto.
Qed.

Lemma bind_ok {A B} (m : M A) (k : A -> M B) w a w1 :
  m w = (Ok a, w1) -> bind m k w = k a w1.
Proof. unfold bind. now intros ->. Qed.

(** ** The frame transport *)

Section Transport.

Variable E : env.

Lemma attempt_spec (data : bytes) (w : world) :
  serial (snd (attempt E data w)) = serial w
  /\ clock_reads (snd (attempt E data w)) = clock_reads w
  /\ attempts (snd (attempt E data w)) = S (attempts w)
  /\ ((exists resp, attempt_outcome E (attempts w) = Returns resp
         /\ fst (attempt E data w) = Ok resp
         /\ trace (snd (attempt E data w)) = trace w ++ [Tx data true])
      \/ (exists c code, attempt_outcome E (attempts w) = Raises c code
            /\ fst (attempt E data w) = Raise (SerialException code)
            /\ exists t, trace (snd (attempt E data w)) = trace w ++ t
                 /\ writes_of data t /\ sent t = [])).
Proof.
  unfold attempt.
  destruct (attempt_outcome E (attempts w)) as [resp | c code]; cbn.
  - repeat split. left. eauto.
  - destruct (reaches_write c); cbn; repeat split; right;
      exists c, code; repeat split.
    + exists [Tx data false]. repeat split. repeat constructor. now exists false.
    + exists []. rewrite app_nil_r. repeat split. constructor.
Qed.

(** What a run of the retry loop does: it touches neither the handle nor
    the clock, makes at most [n] attempts, writes only [data], and the
    frame counts as sent exactly when an attempt went through. *)
Lemma send_frame_loop_spec (data : bytes) :
  forall n fails w r w',
    send_frame_loop E data n fails w = (r, w') ->
    serial w' = serial w
    /\ clock_reads w' = clock_reads w
    /\ (attempts w <= attempts w' <= attempts w + n)%nat
    /\ exists t,
         trace w' = trace w ++ t
         /\ writes_of data t
         /\ match r with
            | Ok _ =>
                (sent t = [data] /\ connected w)
                \/ (t = [] /\ (serial w = None \/ (n = 0%nat /\ fails = [])))
            | Raise e =>
                sent t = []
                /\ (In e fails \/ exists code, e = SerialException code)
            end.
Proof.
  induction n as [| n IH]; intros fails w r w' H; cbn in H.
  - assert (Hw : w' = w) by (destruct fails; cbv in H; congruence).
    subst w'. repeat split; try lia.
    exists []. rewrite app_nil_r. repeat split; [constructor |].
    destruct fails as [| ex fails]; cbv in H.
    + injection H as <-. right. auto.
    + injection H as <-. split; [reflexivity |]. left. now left.
  - destruct (serial w) as [s |] eqn:Hs.
    + destruct (attempt_spec data w) as (Ha1 & Ha2 & Ha3 & Ha4).
      destruct (attempt E data w) as [[resp | e] w1] eqn:Ha; cbn in *.
      * injection H as <- <-.
        destruct Ha4 as [(resp' & _ & _ & Ht) | (c & code & _ & Hr & _)];
          [| discriminate].
        repeat split; try congruence; try lia.
        exists [Tx data true]. repeat split; try assumption.
        -- repeat constructor. now exists true.
        -- left. split; [reflexivity |]. unfold connected. congruence.
      * destruct Ha4 as [(resp' & _ & Hr & _) | (c & code & _ & Hr & t1 & Ht1 & Hw1 & Hs1)];
          [discriminate |].
        injection Hr as ->.
        apply IH in H. destruct H as (H1 & H2 & H3 & t2 & Ht2 & Hw2 & Hr).
        repeat split; try congruence; try lia.
        exists (t1 ++ t2). repeat split.
        -- rewrite Ht2, Ht1. now rewrite app_assoc.
        -- now apply Forall_app.
        -- destruct r as [u | e].
           ++ destruct Hr as [[Hsent _] | [-> [Hnone | [_ Hnil]]]].
              ** left. rewrite sent_app, Hs1, Hsent. split; [reflexivity |].
                 unfold connected. congruence.
              ** congruence.
              ** destruct fails; discriminate.
           ++ destruct Hr as [Hsent Hin]. rewrite sent_app, Hs1, Hsent.
              split; [reflexivity |].
              destruct Hin as [Hin | Hcode]; [| now right].
              apply in_app_or in Hin. destruct Hin as [Hin | [<- | []]];
                [now left | right; eauto].
    + injection H as <- <-. repeat split; try lia; try assumption.
      exists []. rewrite app_nil_r. repeat split; [constructor |].
      right. auto.
Qed.

Lemma to_bytes_crc (data : bytes) :
  to_bytes (calc_crc data 0) 2 = Ok (be_digits 2 (calc_crc data 0)).
Proof.
  pose proof (calc_crc_range data 0) as H. unfold to_bytes.
  change (256 ^ Z.of_nat 2) with (2 ^ 16).
  destruct (Z.ltb_spec (calc_crc data 0) 0); [lia |].
  destruct (Z.leb_spec (2 ^ 16) (calc_crc data 0)); [lia |].
  reflexivity.
Qed.

(** The checksum trailer always fits its two bytes, so [send_frame] is the
    retry loop on the frame with its trailer. *)
Lemma send_frame_eq (data : bytes) (loop : Z) (w : world) :
  send_frame E data loop w
  = send_frame_loop E (with_trailer data) (Z.to_nat (loop - 1)) [] w.
Proof.
  unfold send_frame, bind, lift. now rewrite to_bytes_crc.
Qed.

Lemma writes_of_written (data : bytes) (t : list event) :
  writes_of data t -> Forall (eq data) (written t) /\ opened t = [].
Proof.
  induction 1 as [| e t [ok ->] _ [IH1 IH2]]; cbn; split; auto.
Qed.

Lemma send_frame_run (data : bytes) (loop : Z) w r w' :
  1 < loop ->
  send_frame E data loop w = (r, w') ->
  frame_run (with_trailer data) w r w'.
Proof.
  intros Hloop H. rewrite send_frame_eq in H.
  apply send_frame_loop_spec in H.
  destruct H as (Hser & Hclk & _ & t & Ht & Hw & Hr).
  apply writes_of_written in Hw. destruct Hw as [Hw Ho].
  split; [unfold connected; now rewrite Hser |].
  split; [assumption |].
  exists t. repeat split; try assumption.
  destruct r as [u | e].
  - destruct Hr as [[Hsent Hc] | [-> [Hnone | [Hn _]]]].
    + split; [auto |]. intros Hnc. now destruct Hnc.
    + split; [| reflexivity]. intros Hc. now destruct Hc.
    + lia.
  - destruct Hr as [Hsent [[] | Hcode]]. auto.
Qed.

Lemma set_timeout_spec (q : Q) (w : world) :
  exists w1,
    set_timeout q w = (Ok tt, w1)
    /\ trace w1 = trace w
    /\ clock_reads w1 = clock_reads w
    /\ attempts w1 = attempts w
    /\ (connected w <-> connected w1).
Proof.
  unfold set_timeout, connected.
  destruct (serial w) as [s |] eqn:Hs; eexists; (split; [reflexivity |]); cbn;
    rewrite ?Hs; repeat split; congruence.
Qed.

(** A frame method that sets the timeout, possibly logs, and sends [f]. *)
Lemma frame_run_after (f : bytes) (w w1 w2 w' : world) (r : result unit)
    (pre : list event) :
  (connected w <-> connected w1) ->
  clock_reads w1 = clock_reads w ->
  trace w1 = trace w ++ pre ->
  written pre = [] -> opened pre = [] ->
  frame_run f w1 r w' ->
  frame_run f w r w'.
Proof.
  intros Hc Hk Ht Hwr Hop (Hc' & Hk' & t & Ht' & Hw & Ho & Hr).
  split; [tauto |]. split; [congruence |].
  exists (pre ++ t). repeat split.
  - rewrite Ht', Ht. now rewrite app_assoc.
  - now rewrite written_app, Hwr.
  - now rewrite opened_app, Hop, Ho.
  - assert (Hsp : sent pre = []) by now apply written_nil_sent_nil.
    destruct r as [u | e]; rewrite ?sent_app, ?written_app, Hsp, ?Hwr; cbn;
      intuition.
Qed.

Lemma send_data_frame_run (n : Z) (chunk : bytes) w r w' :
  send_data_frame E n chunk w = (r, w') ->
  frame_run (with_trailer (data_frame n chunk)) w r w'.
Proof.
  unfold send_data_frame. intros H.
  destruct (set_timeout_spec (45 # 100) w) as (w1 & H1 & Ht & Hk & _ & Hc).
  rewrite (bind_ok _ _ _ _ _ H1) in H.
  apply send_frame_run in H; [| lia].
  apply (frame_run_after _ w w1 w1 w' r []); auto.
  now rewrite app_nil_r.
Qed.

Lemma send_tail_frame_run (n : Z) w r w' :
  send_tail_frame E n w = (r, w') ->
  frame_run (with_trailer (tail_frame n)) w r w'.
Proof.
  unfold send_tail_frame. intros H.
  destruct (set_timeout_spec (1 # 100) w) as (w1 & H1 & Ht & Hk & _ & Hc).
  rewrite (bind_ok _ _ _ _ _ H1) in H.
  unfold log_info, emit in H. cbn [bind] in H.
  apply send_frame_run in H; [| lia].
  eapply (frame_run_after _ w _ w1 w' r); [ | | | | | exact H]; cbn;
    try reflexivity; auto.
  - now rewrite Ht.
  - reflexivity.
  - reflexivity.
Qed.

(** The header frame may fail earlier, when [length] or [address] does not
    fit four bytes; then nothing is written. *)
Lemma send_head_frame_run (length address : Z) w r w' :
  send_head_frame E length address w = (r, w') ->
  frame_run (with_trailer (head_frame length address)) w r w'
  /\ (r = Ok tt -> 0 <= length < 2 ^ 32 /\ 0 <= address < 2 ^ 32).
Proof.
  unfold send_head_frame. intros H.
  destruct (set_timeout_spec (9 # 100) w) as (w1 & H1 & Ht & Hk & _ & Hc).
  rewrite (bind_ok _ _ _ _ _ H1) in H.
  unfold log_info, emit in H. cbn [bind] in H.
  unfold to_bytes, lift, bind in H.
  change (256 ^ Z.of_nat 4) with (2 ^ 32) in H.
  assert (Hov : forall e : exn,
             e = OverflowError ->
             (Raise e, add_event (Log INFO "Sending header frame" TOOLNAME) w1)
             = (r, w') ->
             frame_run (with_trailer (head_frame length address)) w r w'
             /\ (r = Ok tt -> 0 <= length < 2 ^ 32 /\ 0 <= address < 2 ^ 32)).
  { intros e -> Heq. injection Heq as <- <-. split; [| discriminate].
    split; [exact Hc |]. split; [exact Hk |].
    exists [Log INFO "Sending header frame" TOOLNAME]. cbn.
    rewrite Ht. repeat split; auto. }
  destruct (Z.ltb_spec length 0) as [Hl0 | Hl0]; cbn [orb] in H;
    [now apply (Hov OverflowError) |].
  destruct (Z.leb_spec (2 ^ 32) length) as [Hl1 | Hl1];
    [now apply (Hov OverflowError) |].
  destruct (Z.ltb_spec address 0) as [Ha0 | Ha0]; cbn [orb] in H;
    [now apply (Hov OverflowError) |].
  destruct (Z.leb_spec (2 ^ 32) address) as [Ha1 | Ha1];
    [now apply (Hov OverflowError) |].
  split; [| intros _; lia].
  rewrite <- app_assoc in H.
  apply send_frame_run in H; [| lia].
  eapply (frame_run_after _ w _ w1 w' r); [ | | | | | exact H]; cbn;
    try reflexivity; auto.
  - now rewrite Ht.
  - reflexivity.
  - reflexivity.
Qed.

End Transport.

(** ** Loops *)

Lemma range_nil (lo hi : Z) : hi <= lo -> range lo hi = [].
Proof.
  intros H. unfold range. now replace (Z.to_nat (hi - lo)) with 0%nat by lia.
Qed.

Lemma range_cons (lo hi : Z) :
  lo < hi -> range lo hi = lo :: range (lo + 1) hi.
Proof.
  intros H. unfold range.
  replace (Z.to_nat (hi - lo)) with (S (Z.to_nat (hi - (lo + 1)))) by lia.
  cbn [seq map]. f_equal; [lia |].
  rewrite <- seq_shift, map_map. apply map_ext. intros i. lia.
Qed.

Lemma range_length (lo hi : Z) : len (range lo hi) = Z.max 0 (hi - lo).
Proof. unfold range, len. rewrite length_map, length_seq. lia. Qed.

(** Induction along [range lo hi], from [lo] upwards. *)
Lemma range_ind (hi : Z) (P : Z -> Prop) :
  (forall lo, hi <= lo -> P lo) ->
  (forall lo, lo < hi -> P (lo + 1) -> P lo) ->
  forall lo, P lo.
Proof.
  intros Hnil Hcons lo.
  remember (Z.to_nat (hi - lo)) as k eqn:Hk.
  revert lo Hk. induction k as [| k IH]; intros lo Hk.
  - apply Hnil. lia.
  - apply Hcons; [lia |]. apply IH. lia.
Qed.

(** ** The number of frames *)

Lemma nframes_of_ceil (length : Z) :
  0 < length -> is_ceil_div length MAX_DATA_LEN (nframes_of length).
Proof.
  intros H. unfold is_ceil_div, nframes_of, MAX_DATA_LEN.
  pose proof (Z.div_mod length 0x400 ltac:(lia)) as Hdm.
  pose proof (Z.mod_pos_bound length 0x400 ltac:(lia)) as Hb.
  destruct (Z.gtb_spec (length mod 0x400) 0); lia.
Qed.

Lemma nframes_of_pos (length : Z) : 0 < length -> 0 < nframes_of length.
Proof.
  intros H. pose proof (nframes_of_ceil length H) as Hc.
  unfold is_ceil_div, MAX_DATA_LEN in Hc. lia.
Qed.

(** ** Frame kinds *)

Lemma data_not_tail (f : bytes) :
  is_data_frame f = true -> is_tail_frame f = false.
Proof.
  destruct f as [| b f]; [discriminate |]. cbn.
  intros H. apply Z.eqb_eq in H. now subst b.
Qed.

Lemma all_data_no_tail (fs : list bytes) :
  Forall (fun f => is_data_frame f = true) fs ->
  List.filter is_tail_frame fs = [].
Proof.
  induction 1 as [| f fs Hf _ IH]; [reflexivity |].
  cbn [List.filter]. now rewrite (data_not_tail f Hf).
Qed.

Lemma partial_upload_no_tail (nf : Z) (frames : list bytes) :
  partial_upload nf frames -> List.filter is_tail_frame frames = [].
Proof.
  intros [-> | (head & dfs & -> & Hh & Hall & _)]; [reflexivity |].
  cbn [List.filter].
  destruct head as [| b head]; [discriminate |].
  cbn in Hh. apply Z.eqb_eq in Hh. subst b. cbn.
  now apply all_data_no_tail.
Qed.

Lemma all_data_filter (fs : list bytes) :
  Forall (fun f => is_data_frame f = true) fs ->
  List.filter is_data_frame fs = fs.
Proof.
  induction 1 as [| f fs Hf _ IH]; [reflexivity |].
  cbn [List.filter]. now rewrite Hf, IH.
Qed.

Lemma partial_upload_count (nf : Z) (frames : list bytes) :
  0 <= nf ->
  partial_upload nf frames ->
  len (List.filter is_data_frame frames) <= nf.
Proof.
  intros Hnf [-> | (head & dfs & -> & Hh & Hall & Hlen)]; [exact Hnf |].
  cbn [List.filter].
  destruct head as [| b head]; [discriminate |].
  cbn in Hh. apply Z.eqb_eq in Hh. subst b. cbn.
  now rewrite all_data_filter.
Qed.

(** ** xupload *)

Section Xupload.

Variable E : env.

Lemma xupload_body_spec (length : Z) (data : bytes) (seq offset : Z) w r w' :
  connected w ->
  offset = (seq - 1) * MAX_DATA_LEN ->
  xupload_body E length data seq offset w = (r, w') ->
  connected w'
  /\ exists t,
       trace w' = trace w ++ t
       /\ opened t = []
       /\ match r with
          | Ok offset' =>
              offset' = seq * MAX_DATA_LEN
              /\ sent t = xupload_data_frames data [seq]
          | Raise e => sent t = [] /\ transport_failure e
          end.
Proof.
  intros Hc Hoff H. unfold xupload_body in H.
  apply bind_inv in H.
  destruct H as [(u & w1 & Hsend & H) | (e & Hsend & ->)];
    apply send_data_frame_run in Hsend;
    destruct Hsend as (Hc1 & _ & t & Ht & _ & Ho & Hr).
  - cbv [bind print emit ret] in H. injection H as <- <-.
    split; [unfold connected in *; cbn; tauto |].
    eexists. cbn [trace add_event]. rewrite Ht, <- app_assoc.
    split; [reflexivity |].
    rewrite opened_app, sent_app, Ho. destruct Hr as [Hr _].
    rewrite (Hr Hc). subst offset.
    replace ((seq - 1) * MAX_DATA_LEN + MAX_DATA_LEN)
      with (seq * MAX_DATA_LEN) by lia.
    cbn [opened sent app]. unfold xupload_data_frames. cbn [map].
    repeat split.
  - split; [now apply Hc1 |]. exists t. destruct Hr as [Hs Hf].
    repeat split; assumption.
Qed.

Lemma xupload_loop_spec (length : Z) (data : bytes) (hi : Z) :
  forall lo offset w r w',
    connected w ->
    offset = (lo - 1) * MAX_DATA_LEN ->
    for_each (range lo hi) (xupload_body E length data) offset w = (r, w') ->
    connected w'
    /\ exists t,
         trace w' = trace w ++ t
         /\ opened t = []
         /\ match r with
            | Ok _ => sent t = xupload_data_frames data (range lo hi)
            | Raise e =>
                transport_failure e
                /\ exists m, lo <= m < hi
                     /\ sent t = xupload_data_frames data (range lo m)
            end.
Proof.
  intros lo. pattern lo. apply (range_ind hi); clear lo.
  - intros lo Hge offset w r w' Hc _ H.
    rewrite range_nil in * by assumption. cbv [for_each ret] in H.
    injection H as <- <-. split; [assumption |].
    exists []. now rewrite app_nil_r.
  - intros lo Hlt IH offset w r w' Hc Hoff H.
    rewrite range_cons in H by assumption. cbn [for_each] in H.
    apply bind_inv in H.
    destruct H as [(off1 & w1 & Hbody & H) | (e & Hbody & ->)];
      apply xupload_body_spec in Hbody; try assumption;
      destruct Hbody as (Hc1 & t1 & Ht1 & Ho1 & Hr1).
    + destruct Hr1 as [Hoff1 Hs1].
      apply IH in H; [| assumption | lia].
      destruct H as (Hc' & t2 & Ht2 & Ho2 & Hr2).
      split; [assumption |].
      exists (t1 ++ t2). rewrite Ht2, Ht1, app_assoc, opened_app, Ho1, Ho2.
      repeat split.
      destruct r as [off' | e]; rewrite sent_app, Hs1.
      * rewrite Hr2, (range_cons lo hi) by assumption. reflexivity.
      * destruct Hr2 as (Hf & m & Hm & Hs2). split; [assumption |].
        exists m. split; [lia |].
        rewrite Hs2, (range_cons lo m) by lia. reflexivity.
    + destruct Hr1 as [Hs1 Hf]. split; [assumption |].
      exists t1. repeat split; try assumption.
      exists lo. split; [lia |]. now rewrite range_nil by lia.
Qed.

Lemma data_frames_all_data (data : bytes) (seqs : list Z) :
  Forall (fun f => is_data_frame f = true) (xupload_data_frames data seqs).
Proof.
  induction seqs as [| n seqs IH]; constructor; [reflexivity | exact IH].
Qed.

Lemma data_frames_length (data : bytes) (seqs : list Z) :
  len (xupload_data_frames data seqs) = len seqs.
Proof. unfold xupload_data_frames, len. now rewrite length_map. Qed.

(** The frames of a successful [xupload], and what an unsuccessful one can
    raise. *)
Lemma xupload_spec (address : Z) (data : bytes) (length : Z) w r w' :
  xupload E address data length w = (r, w') ->
  exists t,
    trace w' = trace w ++ t
    /\ opened t = []
    /\ match r with
       | Ok _ =>
           connected w /\ 0 < len data
           /\ sent t
              = with_trailer (head_frame (len data) address)
                  :: xupload_data_frames data
                       (range 1 (nframes_of (len data) + 1))
                  ++ [with_trailer (tail_frame (nframes_of (len data)))]
       | Raise e =>
           (exists msg, e = FlashException msg /\ t = [])
           \/ (transport_failure e
               /\ partial_upload (nframes_of (len data)) (sent t))
       end.
Proof.
  unfold xupload. intros H.
  destruct (serial w) as [s |] eqn:Hs.
  2: { injection H as <- <-. exists []. rewrite app_nil_r.
       repeat split. left. eauto. }
  assert (Hc : connected w) by (unfold connected; congruence).
  destruct (Z.eqb_spec (len data) 0) as [H0 | H0].
  { injection H as <- <-. exists []. rewrite app_nil_r.
    repeat split. left. eauto. }
  assert (Hpos : 0 < len data) by (unfold len in *; lia).
  apply bind_inv in H.
  destruct H as [(u1 & w1 & Hhead & H) | (e & Hhead & ->)];
    apply send_head_frame_run in Hhead;
    destruct Hhead as [(Hc1 & _ & t1 & Ht1 & _ & Ho1 & Hr1) _].
  2: { exists t1. destruct Hr1 as [Hs1 Hf]. repeat split; try assumption.
       right. split; [exact Hf |]. rewrite Hs1. now left. }
  destruct Hr1 as [Hs1 _]. specialize (Hs1 Hc).
  pose proof (nframes_of_pos _ Hpos) as Hnf.
  apply bind_inv in H.
  destruct H as [(off & w2 & Hloop & H) | (e & Hloop & ->)];
    (apply xupload_loop_spec in Hloop; [| now apply Hc1 | reflexivity]);
    destruct Hloop as (Hc2 & t2 & Ht2 & Ho2 & Hr2).
  2: { exists (t1 ++ t2). rewrite Ht2, Ht1, app_assoc, opened_app, Ho1, Ho2.
       repeat split. right. destruct Hr2 as (Hf & m & Hm & Hs2).
       split; [exact Hf |].
       rewrite sent_app, Hs1, Hs2. right.
       eexists _, _. split; [reflexivity |]. split; [reflexivity |].
       split; [apply data_frames_all_data |].
       rewrite data_frames_length, range_length. lia. }
  apply bind_inv in H.
  destruct H as [(u3 & w3 & Htail & H) | (e & Htail & ->)];
    apply send_tail_frame_run in Htail;
    destruct Htail as (Hc3 & _ & t3 & Ht3 & _ & Ho3 & Hr3).
  2: { exists (t1 ++ t2 ++ t3).
       rewrite Ht3, Ht2, Ht1, <- !app_assoc, !opened_app, Ho1, Ho2, Ho3.
       repeat split. right. destruct Hr3 as [Hs3 Hf].
       split; [exact Hf |].
       rewrite !sent_app, Hs1, Hr2, Hs3, app_nil_r. right.
       eexists _, _. split; [reflexivity |]. split; [reflexivity |].
       split; [apply data_frames_all_data |].
       rewrite data_frames_length, range_length. lia. }
  destruct Hr3 as [Hs3 _]. specialize (Hs3 Hc2).
  cbv [bind print sleep emit] in H. injection H as <- <-.
  eexists. cbn [trace add_event].
  rewrite Ht3, Ht2, Ht1, <- !app_assoc.
  split; [reflexivity |].
  rewrite !opened_app, !sent_app, Ho1, Ho2, Ho3, Hs1, Hr2, Hs3.
  cbn [opened sent app].
  repeat split; assumption.
Qed.

End Xupload.

(** ** send_data *)

Section SendData.

Variable E : env.

Lemma send_data_body_spec (nframes : Z) (start_time : PrimFloat.float)
    (n : Z) (st : send_data_locals) w r w' :
  connected w ->
  send_data_body E nframes start_time n st w = (r, w') ->
  connected w'
  /\ clock_reads w' = S (clock_reads w)
  /\ exists t,
       trace w' = trace w ++ t
       /\ opened t = []
       /\ match r with
          | Ok st' =>
              loc_n st' = Some n
              /\ within_deadline E start_time (clock_reads w)
              /\ exists chunk,
                   sent t = [with_trailer (data_frame (n + 1) chunk)]
          | Raise e =>
              sent t = []
              /\ (transport_failure e
                  \/ (timed_out e
                      /\ ~ within_deadline E start_time (clock_reads w)))
          end.
Proof.
  intros Hc H. unfold send_data_body in H.
  unfold bind at 1 in H. unfold now at 1 in H.
  unfold within_deadline.
  destruct (PrimFloat.ltb (float_of_Z UPLOAD_TIMEOUT)
              (PrimFloat.sub (time_time E (clock_reads w)) start_time))
    eqn:Hq.
  1: { injection H as <- <-. repeat split; [exact Hc |].
       exists []. rewrite app_nil_r. repeat split.
       right. split; [reflexivity | discriminate]. }
  destruct (match loc_data st with
            | Bytes b =>
                (slice b (n * MAX_DATA_LEN) ((n + 1) * MAX_DATA_LEN), Bytes b)
            | File unread =>
                (firstn (Z.to_nat MAX_DATA_LEN) unread,
                 File (skipn (Z.to_nat MAX_DATA_LEN) unread))
            end) as [chunk data'].
  apply bind_inv in H.
  destruct H as [(u & w1 & Hsend & H) | (e & Hsend & ->)];
    apply send_data_frame_run in Hsend;
    destruct Hsend as (Hc1 & Hk1 & t & Ht & _ & Ho & Hr).
  - destruct Hr as [Hr _]. specialize (Hr Hc).
    assert (Hc1' : connected w1) by now apply Hc1.
    cbv beta zeta in H.
    destruct ((100 * (n + 1)) / nframes >? loc_last_percent st);
      cbv [bind print emit ret] in H; injection H as <- <-;
      (split; [exact Hc1' |]); (split; [exact Hk1 |]).
    + eexists. cbn [trace add_event]. rewrite Ht, <- app_assoc.
      split; [reflexivity |].
      rewrite opened_app, sent_app, Ho, Hr. cbn [opened sent app].
      repeat split. eauto.
    + exists t. repeat split; try assumption. eauto.
  - split; [now apply Hc1 |]. split; [exact Hk1 |].
    exists t. destruct Hr as [Hs Hf]. repeat split; try assumption.
    now left.
Qed.

(** The data-frame loop of [send_data] over [range lo hi]. *)
Lemma send_data_loop_spec (nframes : Z) (start_time : PrimFloat.float)
    (hi : Z) :
  forall lo st w r w',
    connected w ->
    for_each (range lo hi) (send_data_body E nframes start_time) st w
    = (r, w') ->
    connected w'
    /\ exists t,
         trace w' = trace w ++ t
         /\ opened t = []
         /\ Forall (fun f => is_data_frame f = true) (sent t)
         /\ match r with
            | Ok st' =>
                map seq_byte (sent t)
                = map (fun n => Z.land (n + 1) 0xFF) (range lo hi)
                /\ (lo < hi -> loc_n st' = Some (hi - 1))
                /\ (forall j, (j < Z.to_nat (hi - lo))%nat ->
                      within_deadline E start_time (clock_reads w + j))
            | Raise e =>
                len (sent t) < hi - lo
                /\ (transport_failure e
                    \/ (timed_out e
                        /\ exists j, (j < Z.to_nat (hi - lo))%nat
                             /\ ~ within_deadline E start_time
                                    (clock_reads w + j)))
            end.
Proof.
  intros lo. pattern lo. apply (range_ind hi); clear lo.
  - intros lo Hge st w r w' Hc H.
    rewrite range_nil in * by assumption. cbv [for_each ret] in H.
    injection H as <- <-. split; [assumption |].
    exists []. rewrite app_nil_r. repeat split; [constructor | lia | lia].
  - intros lo Hlt IH st w r w' Hc H.
    rewrite range_cons in H by assumption. cbn [for_each] in H.
    apply bind_inv in H.
    destruct H as [(st1 & w1 & Hbody & H) | (e & Hbody & ->)];
      apply send_data_body_spec in Hbody; try assumption;
      destruct Hbody as (Hc1 & Hk1 & t1 & Ht1 & Ho1 & Hr1).
    + destruct Hr1 as (Hn1 & Hd1 & chunk & Hs1).
      pose proof H as Hrest.
      apply IH in H; [| assumption].
      destruct H as (Hc' & t2 & Ht2 & Ho2 & Hall2 & Hr2).
      split; [assumption |].
      exists (t1 ++ t2). rewrite Ht2, Ht1, app_assoc, opened_app, Ho1, Ho2.
      rewrite sent_app, Hs1. cbn [app].
      repeat split; [constructor; [reflexivity | assumption] |].
      destruct r as [st' | e].
      * destruct Hr2 as (Hseq & Hlast & Hdl).
        rewrite (range_cons lo hi) by assumption. cbn [map].
        rewrite Hseq. repeat split.
        -- intros _. destruct (Z.eq_dec (lo + 1) hi) as [Heq | Hne].
           ++ rewrite range_nil in Hrest by lia.
              cbv [for_each ret] in Hrest.
              assert (st' = st1) by congruence. subst st'.
              rewrite Hn1. f_equal. lia.
           ++ apply Hlast. lia.
        -- intros j Hj. destruct j as [| j].
           ++ now rewrite Nat.add_0_r.
           ++ replace (clock_reads w + S j)%nat with (clock_reads w1 + j)%nat
                by lia.
              apply Hdl. lia.
      * destruct Hr2 as (Hlen & Hf). unfold len in *. cbn [length].
        split; [lia |].
        destruct Hf as [Hf | (Hto & j & Hj & Hdl)]; [now left |].
        right. split; [assumption |]. exists (S j). split; [lia |].
        now replace (clock_reads w + S j)%nat with (clock_reads w1 + j)%nat
          by lia.
    + destruct Hr1 as [Hs1 Hf]. split; [assumption |].
      exists t1. rewrite Hs1. repeat split; try assumption; [constructor | |].
      * unfold len. cbn. lia.
      * destruct Hf as [Hf | [Hto Hdl]]; [now left |].
        right. split; [assumption |]. exists 0%nat. split; [lia |].
        now rewrite Nat.add_0_r.
Qed.

(** The frames of a successful [send_data] on a connected flasher, the
    clock readings it passed, and what an unsuccessful one can raise. *)
Lemma send_data_spec (data : source) (length address : Z) w r w' :
  connected w ->
  send_data E data length address w = (r, w') ->
  exists t,
    trace w' = trace w ++ t
    /\ opened t = []
    /\ match r with
       | Ok _ =>
           0 < payload_length data length
           /\ (exists dfs,
                 sent t
                 = with_trailer
                     (head_frame (payload_length data length) address)
                     :: dfs
                     ++ [with_trailer
                           (tail_frame
                              (nframes_of (payload_length data length)))]
                 /\ Forall (fun f => is_data_frame f = true) dfs
                 /\ map seq_byte dfs
                    = map (fun n => Z.land (n + 1) 0xFF)
                        (range 0 (nframes_of (payload_length data length))))
           /\ (forall j,
                 (j < Z.to_nat (nframes_of (payload_length data length)))%nat ->
                 within_deadline E (time_time E (clock_reads w))
                   (S (clock_reads w) + j))
       | Raise e =>
           (exists msg, e = FlashException msg /\ t = [])
           \/ ((transport_failure e
                \/ (timed_out e
                    /\ exists j,
                         (j < Z.to_nat
                                (nframes_of (payload_length data length)))%nat
                         /\ ~ within_deadline E (time_time E (clock_reads w))
                                (S (clock_reads w) + j)))
               /\ partial_upload (nframes_of (payload_length data length))
                    (sent t))
       end.
Proof.
  intros Hc H. unfold send_data in H. cbv zeta in H.
  change (match data with Bytes b => len b | File _ => length end)
    with (payload_length data length) in H.
  set (L := payload_length data length) in *.
  destruct (Z.eqb_spec L 0) as [H0 | H0].
  { injection H as <- <-. exists []. rewrite app_nil_r.
    repeat split. left. eauto. }
  apply bind_inv in H.
  destruct H as [(u1 & w1 & Hhead & H) | (e & Hhead & ->)];
    apply send_head_frame_run in Hhead;
    destruct Hhead as [(Hc1 & Hk1 & t1 & Ht1 & _ & Ho1 & Hr1) Hfit].
  2: { exists t1. destruct Hr1 as [Hs1 Hf]. repeat split; try assumption.
       right. split; [now left |]. rewrite Hs1. now left. }
  destruct Hr1 as [Hs1 _]. specialize (Hs1 Hc).
  assert (Hpos : 0 < L) by (destruct u1, (Hfit eq_refl) as [HL _]; lia).
  unfold bind at 1 in H. unfold now at 1 in H.
  rewrite Hk1 in H.
  apply bind_inv in H.
  destruct H as [(st & w2 & Hloop & H) | (e & Hloop & ->)];
    (apply send_data_loop_spec in Hloop; [| now apply Hc1]);
    destruct Hloop as (Hc2 & t2 & Ht2 & Ho2 & Hall2 & Hr2);
    cbn [trace clock_reads count_clock_read] in Ht2, Hr2;
    rewrite Hk1, Z.sub_0_r in Hr2.
  2: { exists (t1 ++ t2). rewrite Ht2, Ht1, app_assoc, opened_app, Ho1, Ho2.
       repeat split. right. destruct Hr2 as (Hlen & Hf).
       split; [exact Hf |].
       rewrite sent_app, Hs1. right.
       eexists _, _. split; [reflexivity |]. split; [reflexivity |].
       split; [assumption | lia]. }
  destruct Hr2 as (Hseq & Hlast & Hdl).
  pose proof (nframes_of_pos L Hpos) as Hnf.
  rewrite (Hlast Hnf) in H.
  cbv [bind print emit] in H. cbv beta iota in H.
  destruct (send_tail_frame E (nframes_of L - 1 + 1)
              (add_event (Print "\nUpload complete!" []) w2))
    as [[u3 | e] w3] eqn:Htail;
    apply send_tail_frame_run in Htail;
    replace (nframes_of L - 1 + 1) with (nframes_of L) in Htail by lia;
    destruct Htail as (Hc3 & _ & t3 & Ht3 & _ & Ho3 & Hr3);
    cbn [trace add_event] in Ht3.
  2: { injection H as <- <-.
       exists (t1 ++ t2 ++ [Print "\nUpload complete!" []] ++ t3).
       rewrite Ht3, Ht2, Ht1, <- !app_assoc, !opened_app, Ho1, Ho2, Ho3.
       repeat split. right. destruct Hr3 as [Hs3 Hf].
       split; [now left |].
       rewrite !sent_app, Hs1, Hs3. cbn [sent app]. rewrite app_nil_r.
       right. eexists _, _. split; [reflexivity |]. split; [reflexivity |].
       split; [assumption |].
       apply (f_equal len) in Hseq. unfold len in Hseq.
       rewrite !length_map in Hseq. fold (len (sent t2)) in Hseq.
       fold (len (range 0 (nframes_of L))) in Hseq.
       rewrite range_length in Hseq. lia. }
  destruct Hr3 as [Hs3 _].
  assert (Hs3' : sent t3 = [with_trailer (tail_frame (nframes_of L))])
    by (apply Hs3; unfold connected in *; cbn; exact Hc2).
  cbv [sleep emit] in H. injection H as <- <-.
  eexists. cbn [trace add_event].
  rewrite Ht3, Ht2, Ht1, <- !app_assoc.
  split; [reflexivity |].
  rewrite !opened_app, !sent_app, Ho1, Ho2, Ho3, Hs1, Hs3'.
  cbn [opened sent app].
  repeat split; try assumption.
  exists (sent t2). repeat split; assumption.
Qed.

End SendData.

(** ** Frame layout *)

Lemma land_0xFF_mod (n : Z) : Z.land n 0xFF = n mod 256.
Proof. change 0xFF with (Z.ones 8). now rewrite Z.land_ones by lia. Qed.

Lemma complement_of_low_byte (n : Z) :
  Z.land (Z.lnot n) 0xFF = Z.land (Z.lnot (Z.land n 0xFF)) 0xFF.
Proof.
  change 0xFF with (Z.ones 8).
  apply Z.bits_inj'. intros i Hi.
  rewrite !Z.land_spec, !Z.lnot_spec, Z.land_spec by lia.
  destruct (Z.ltb_spec i 8) as [Hlt | Hge].
  - rewrite (Z.ones_spec_low 8 i) by lia. now rewrite !andb_true_r.
  - rewrite (Z.ones_spec_high 8 i) by lia. now rewrite !andb_false_r.
Qed.

(** On a connected flasher whose next attempt goes through, a frame
    method with a budget above 1 writes its frame once and returns. *)
Lemma send_frame_first_try (E : env) (data : bytes) (loop : Z) (w : world) :
  connected w ->
  1 < loop ->
  (exists response, attempt_outcome E (attempts w) = Returns response) ->
  send_frame E data loop w
  = (Ok tt, add_event (Tx (with_trailer data) true) (count_attempt w)).
Proof.
  intros Hc Hloop [response Hout]. rewrite send_frame_eq.
  destruct (Z.to_nat (loop - 1)) as [| n] eqn:Hn; [lia |].
  cbn [send_frame_loop]. unfold connected in Hc.
  destruct (serial w) as [s |]; [| contradiction].
  unfold attempt. now rewrite Hout.
Qed.

(** C6. The frame [send_data_frame] builds for sequence index [n] is a
    data frame whose sequence byte is [n mod 256] and whose complement
    byte is the bitwise NOT of the sequence byte masked to 8 bits, and the
    frame [send_tail_frame] builds for the frame count [n] carries the
    count byte and its complement in the same relation.  These are the
    frames the methods put on the wire: whatever either method writes is
    that frame; on a connected flasher a normal return means the frame
    went through, once; and when the next attempt goes through, the method
    returns normally having written exactly that frame. *)
Theorem sequence_complement_law (E : env) (n : Z) (chunk : bytes) (w : world) :
  let dframe := with_trailer (data_frame n chunk) in
  let tframe := with_trailer (tail_frame n) in
  let goes_through :=
    exists response, attempt_outcome E (attempts w) = Returns response in
  (is_data_frame dframe = true
   /\ seq_byte dframe = n mod 256
   /\ complement_byte dframe = Z.land (Z.lnot (seq_byte dframe)) 0xFF
   /\ exists t,
        trace (snd (send_data_frame E n chunk w)) = trace w ++ t
        /\ Forall (eq dframe) (written t)
        /\ (connected w ->
            fst (send_data_frame E n chunk w) = Ok tt ->
            sent t = [dframe])
        /\ (connected w ->
            goes_through ->
            fst (send_data_frame E n chunk w) = Ok tt
            /\ written t = [dframe]))
  /\ (is_tail_frame tframe = true
      /\ seq_byte tframe = n mod 256
      /\ complement_byte tframe = Z.land (Z.lnot (seq_byte tframe)) 0xFF
      /\ exists t,
           trace (snd (send_tail_frame E n w)) = trace w ++ t
           /\ Forall (eq tframe) (written t)
           /\ (connected w ->
               fst (send_tail_frame E n w) = Ok tt ->
               sent t = [tframe])
           /\ (connected w ->
               goes_through ->
               fst (send_tail_frame E n w) = Ok tt
               /\ written t = [tframe])).
Proof.
  intros dframe tframe goes_through. split.
  - split; [reflexivity |].
    split; [apply land_0xFF_mod |].
    split; [apply complement_of_low_byte |].
    destruct (send_data_frame E n chunk w) as [r w'] eqn:H.
    pose proof H as Hrun. apply send_data_frame_run in H.
    destruct H as (_ & _ & t & Ht & Hw & _ & Hr).
    exists t. cbn [fst snd]. split; [assumption |]. split; [assumption |].
    split.
    + intros Hc ->. now apply Hr.
    + intros Hc Hgo. unfold send_data_frame in Hrun.
      destruct (set_timeout_spec (45 # 100) w)
        as (w1 & H1 & Ht1 & _ & Ha1 & Hc1).
      rewrite (bind_ok _ _ _ _ _ H1) in Hrun. cbv zeta in Hrun.
      rewrite send_frame_first_try in Hrun;
        [| now apply Hc1 | lia | now rewrite Ha1].
      injection Hrun as <- <-. split; [reflexivity |].
      cbn [trace add_event count_attempt] in Ht.
      rewrite Ht1 in Ht. apply app_inv_head in Ht. now subst t.
  - split; [reflexivity |].
    split; [apply land_0xFF_mod |].
    split; [apply complement_of_low_byte |].
    destruct (send_tail_frame E n w) as [r w'] eqn:H.
    pose proof H as Hrun. apply send_tail_frame_run in H.
    destruct H as (_ & _ & t & Ht & Hw & _ & Hr).
    exists t. cbn [fst snd]. split; [assumption |]. split; [assumption |].
    split.
    + intros Hc ->. now apply Hr.
    + intros Hc Hgo. unfold send_tail_frame in Hrun.
      destruct (set_timeout_spec (1 # 100) w)
        as (w1 & H1 & Ht1 & _ & Ha1 & Hc1).
      rewrite (bind_ok _ _ _ _ _ H1) in Hrun.
      unfold log_info, emit in Hrun. cbn [bind] in Hrun. cbv zeta in Hrun.
      rewrite send_frame_first_try in Hrun;
        [| unfold connected; cbn [serial add_event]; now apply Hc1
         | lia
         | cbn [attempts add_event]; rewrite Ha1; exact Hgo].
      injection Hrun as <- <-. split; [reflexivity |].
      cbn [trace add_event count_attempt] in Ht.
      rewrite Ht1, <- app_assoc in Ht. apply app_inv_head in Ht.
      now subst t.
Qed.

Lemma sequence_complement_law_witness :
  (exists t,
      trace (snd (send_data_frame Scenario.healthy 258 [1; 2; 3]
                    Scenario.plugged))
      = trace Scenario.plugged ++ t
      /\ written t = [with_trailer (data_frame 258 [1; 2; 3])])
  /\ seq_byte (with_trailer (data_frame 258 [1; 2; 3])) = 2
  /\ complement_byte (with_trailer (data_frame 258 [1; 2; 3])) = 0xFD
  /\ (exists t,
        trace (snd (send_tail_frame Scenario.healthy 258 Scenario.plugged))
        = trace Scenario.plugged ++ t
        /\ written t = [with_trailer (tail_frame 258)]).
Proof.
  destruct (sequence_complement_law Scenario.healthy 258 [1; 2; 3]
              Scenario.plugged)
    as [(_ & Hseq & Hcomp & t & Ht & _ & _ & Hgo)
        (_ & _ & _ & t' & Ht' & _ & _ & Hgo')].
  split; [| split; [| split]].
  - exists t. split; [exact Ht |].
    apply Hgo; [discriminate | exists ack; reflexivity].
  - exact Hseq.
  - rewrite Hcomp, Hseq. reflexivity.
  - exists t'. split; [exact Ht' |].
    apply Hgo'; [discriminate | exists ack; reflexivity].
Defined.

(** ** Retries *)

Section Retries.

Variable E : env.

(** When every attempt fails, the loop uses up its [n] passes and raises
    the head of [fails], if [fails] already has one. *)
Lemma send_frame_loop_all_fail (data : bytes) :
  forall n fails w,
    connected w ->
    all_fail E (attempts w) n ->
    attempts (snd (send_frame_loop E data n fails w)) = (attempts w + n)%nat
    /\ forall ex l, fails = ex :: l ->
         fst (send_frame_loop E data n fails w) = Raise ex.
Proof.
  induction n as [| n IH]; intros fails w Hc Hall.
  - cbn [send_frame_loop]. split.
    + destruct fails; cbn; lia.
    + now intros ex l ->.
  - cbn [send_frame_loop].
    destruct (serial w) as [s |] eqn:Hs; [| now destruct Hc].
    destruct (Hall (attempts w)) as (c & code & Ho); [lia |].
    unfold attempt. rewrite Ho.
    set (w1 := if reaches_write c
               then add_event (Tx data false) (count_attempt w)
               else count_attempt w).
    assert (Ha : attempts w1 = S (attempts w))
      by (unfold w1; now destruct (reaches_write c)).
    assert (Hc1 : connected w1).
    { unfold connected, w1. destruct (reaches_write c); cbn; congruence. }
    destruct (IH (fails ++ [SerialException code]) w1 Hc1) as [IH1 IH2].
    { intros k Hk. apply Hall. lia. }
    split; [lia |].
    intros ex l ->. now apply (IH2 ex (l ++ [SerialException code])).
Qed.

Lemma send_frame_all_fail (data : bytes) (loop : Z) (w : world) :
  connected w ->
  all_fail E (attempts w) (Z.to_nat (loop - 1)) ->
  attempts (snd (send_frame E data loop w))
  = (attempts w + Z.to_nat (loop - 1))%nat.
Proof.
  intros Hc Hall. rewrite send_frame_eq.
  now apply send_frame_loop_all_fail.
Qed.

(** C10. When every attempt of [send_frame] fails and the budget allows at
    least one attempt, the call raises one exception: the failure of the
    first attempt, whatever the later attempts raised. *)
Theorem send_frame_raises_first_failure (data : bytes) (loop : Z) (w : world) :
  connected w ->
  1 < loop ->
  all_fail E (attempts w) (Z.to_nat (loop - 1)) ->
  exists c code,
    attempt_outcome E (attempts w) = Raises c code
    /\ fst (send_frame E data loop w) = Raise (SerialException code).
Proof.
  intros Hc Hloop Hall. rewrite send_frame_eq.
  destruct (Z.to_nat (loop - 1)) as [| n] eqn:Hn; [lia |].
  destruct (Hall (attempts w)) as (c & code & Ho); [lia |].
  exists c, code. split; [exact Ho |].
  cbn [send_frame_loop].
  destruct (serial w) as [s |] eqn:Hs; [| now destruct Hc].
  unfold attempt. rewrite Ho. cbn [app].
  set (w1 := if reaches_write c
             then add_event (Tx (with_trailer data) false) (count_attempt w)
             else count_attempt w).
  assert (Ha : attempts w1 = S (attempts w))
    by (unfold w1; now destruct (reaches_write c)).
  assert (Hc1 : connected w1).
  { unfold connected, w1. destruct (reaches_write c); cbn; congruence. }
  eapply send_frame_loop_all_fail; [exact Hc1 | | reflexivity].
  intros k Hk. apply Hall. lia.
Qed.

End Retries.

Lemma send_frame_raises_first_failure_witness :
  exists c code,
    attempt_outcome Scenario.dead_link 0 = Raises c code
    /\ fst (send_frame Scenario.dead_link startframe 10 Scenario.plugged)
       = Raise (SerialException code).
Proof.
  apply (send_frame_raises_first_failure Scenario.dead_link startframe 10
           Scenario.plugged).
  - discriminate.
  - lia.
  - intros k _. exists serial_read, (Z.of_nat k). reflexivity.
Defined.

(** C2. [send_frame] repeats [loop - 1] times, so on a link where every
    attempt fails the start frame is tried 9999 times, a header frame 9
    times, a data frame 39 times and a tail frame 9 times, one short of
    the budgets 10000, 10, 40 and 10 the methods pass; with a budget of 1
    nothing is attempted and the call returns normally. *)
Theorem retry_budget_is_one_short :
  let tries (m : M unit) := Z.of_nat (attempts (snd (m Scenario.plugged))) in
  tries (send_start_frame Scenario.dead_link) = 9999
  /\ tries (send_head_frame Scenario.dead_link 2500 0x00100000) = 9
  /\ tries (send_data_frame Scenario.dead_link 1 Scenario.payload) = 39
  /\ tries (send_tail_frame Scenario.dead_link 3) = 9
  /\ send_frame Scenario.dead_link startframe 1 Scenario.plugged
     = (Ok tt, Scenario.plugged).
Proof. vm_compute. repeat split. Qed.

(** ** Uploads *)

Section Uploads.

Variable E : env.

Lemma filter_data_shape (head tail : bytes) (dfs : list bytes) :
  is_data_frame head = false ->
  is_data_frame tail = false ->
  Forall (fun f => is_data_frame f = true) dfs ->
  List.filter is_data_frame (head :: dfs ++ [tail]) = dfs.
Proof.
  intros Hh Ht Hall. cbn [List.filter]. rewrite Hh, List.filter_app.
  cbn [List.filter]. rewrite Ht, app_nil_r.
  induction Hall as [| f dfs Hf _ IH]; [reflexivity |].
  cbn [List.filter]. now rewrite Hf, IH.
Qed.


(** The frames of an upload that returns normally. *)
Lemma upload_run_frames (L : Z) w w' :
  connected w ->
  upload_run E L w (Ok tt) w' ->
  0 < L
  /\ exists t address dfs,
       trace w' = trace w ++ t
       /\ sent t
          = with_trailer (head_frame L address)
              :: dfs ++ [with_trailer (tail_frame (nframes_of L))]
       /\ Forall (fun f => is_data_frame f = true) dfs
       /\ len dfs = nframes_of L.
Proof.
  intros Hc [address data length HL H | data length address HL H].
  - apply xupload_spec in H.
    destruct H as (t & Ht & _ & _ & Hpos & Hs). subst L.
    split; [assumption |].
    exists t, address, (xupload_data_frames data
                          (range 1 (nframes_of (len data) + 1))).
    repeat split; try assumption.
    + apply data_frames_all_data.
    + rewrite data_frames_length, range_length.
      pose proof (nframes_of_pos _ Hpos). lia.
  - apply send_data_spec in H; [| assumption].
    destruct H as (t & Ht & _ & Hpos & (dfs & Hs & Hall & Hseq) & _).
    subst L. split; [assumption |].
    exists t, address, dfs. repeat split; try assumption.
    apply (f_equal len) in Hseq. unfold len in Hseq.
    rewrite !length_map in Hseq. fold (len dfs) in Hseq.
    fold (len (range 0 (nframes_of (payload_length data length)))) in Hseq.
    rewrite range_length in Hseq.
    pose proof (nframes_of_pos _ Hpos). lia.
Qed.

(** The frames of an upload that raises. *)
Lemma upload_run_raise (L : Z) w e w' :
  connected w ->
  upload_run E L w (Raise e) w' ->
  exists t,
    trace w' = trace w ++ t /\ partial_upload (nframes_of L) (sent t).
Proof.
  intros Hc [address data length HL H | data length address HL H].
  - apply xupload_spec in H. destruct H as (t & Ht & _ & Hr).
    exists t. split; [assumption |]. subst L.
    destruct Hr as [(msg & _ & ->) | [_ Hp]]; [now left | assumption].
  - apply send_data_spec in H; [| assumption].
    destruct H as (t & Ht & _ & Hr).
    exists t. split; [assumption |]. subst L.
    destruct Hr as [(msg & _ & ->) | [_ Hp]]; [now left | assumption].
Qed.

(** *** Uploads over a link that is up *)

Lemma send_head_frame_goes_through (length address : Z) (w : world) :
  link_up E -> connected w ->
  0 <= length < 2 ^ 32 -> 0 <= address < 2 ^ 32 ->
  exists w', send_head_frame E length address w = (Ok tt, w').
Proof.
  intros Hup Hc Hl Ha. unfold send_head_frame.
  destruct (set_timeout_spec (9 # 100) w) as (w1 & H1 & _ & _ & _ & Hc1).
  rewrite (bind_ok _ _ _ _ _ H1).
  unfold log_info, emit. cbn [bind].
  unfold to_bytes, lift, bind. change (256 ^ Z.of_nat 4) with (2 ^ 32).
  destruct (Z.ltb_spec length 0); [lia |].
  destruct (Z.leb_spec (2 ^ 32) length); [lia |].
  destruct (Z.ltb_spec address 0); [lia |].
  destruct (Z.leb_spec (2 ^ 32) address); [lia |].
  cbn [orb]. rewrite send_frame_first_try;
    [eauto | unfold connected; cbn [serial add_event]; now apply Hc1
     | lia | apply Hup].
Qed.

Lemma send_data_frame_goes_through (n : Z) (chunk : bytes) (w : world) :
  link_up E -> connected w ->
  exists w', send_data_frame E n chunk w = (Ok tt, w').
Proof.
  intros Hup Hc. unfold send_data_frame.
  destruct (set_timeout_spec (45 # 100) w) as (w1 & H1 & _ & _ & _ & Hc1).
  rewrite (bind_ok _ _ _ _ _ H1). cbv zeta.
  rewrite send_frame_first_try; [eauto | now apply Hc1 | lia | apply Hup].
Qed.

Lemma send_tail_frame_goes_through (n : Z) (w : world) :
  link_up E -> connected w ->
  exists w', send_tail_frame E n w = (Ok tt, w').
Proof.
  intros Hup Hc. unfold send_tail_frame.
  destruct (set_timeout_spec (1 # 100) w) as (w1 & H1 & _ & _ & _ & Hc1).
  rewrite (bind_ok _ _ _ _ _ H1).
  unfold log_info, emit. cbn [bind]. cbv zeta.
  rewrite send_frame_first_try;
    [eauto | unfold connected; cbn [serial add_event]; now apply Hc1
     | lia | apply Hup].
Qed.

Lemma xupload_loop_goes_through (length : Z) (data : bytes) (hi : Z) :
  link_up E ->
  forall lo off w,
    connected w ->
    exists off' w',
      for_each (range lo hi) (xupload_body E length data) off w
      = (Ok off', w')
      /\ connected w'.
Proof.
  intros Hup lo. pattern lo. apply (range_ind hi); clear lo.
  - intros lo Hge off w Hc. rewrite range_nil by assumption.
    exists off, w. split; [reflexivity | assumption].
  - intros lo Hlt IH off w Hc. rewrite range_cons by assumption.
    cbn [for_each].
    assert (Hbody : exists off1 w1,
               xupload_body E length data lo off w = (Ok off1, w1)
               /\ connected w1).
    { unfold xupload_body. cbv zeta.
      destruct (send_data_frame_goes_through lo
                  (slice data off (off + MAX_DATA_LEN)) w Hup Hc)
        as [w1 H1].
      rewrite (bind_ok _ _ _ _ _ H1). cbv [bind print emit ret].
      eexists _, _. split; [reflexivity |].
      apply send_data_frame_run in H1. destruct H1 as (Hc1 & _).
      unfold connected. cbn [serial add_event]. now apply Hc1. }
    destruct Hbody as (off1 & w1 & Hb & Hc1).
    rewrite (bind_ok _ _ _ _ _ Hb). now apply IH.
Qed.

Lemma xupload_goes_through (address : Z) (data : bytes) (length : Z)
    (w : world) :
  link_up E -> connected w ->
  0 < len data < 2 ^ 32 -> 0 <= address < 2 ^ 32 ->
  exists w', xupload E address data length w = (Ok tt, w').
Proof.
  intros Hup Hc Hl Ha. unfold xupload.
  destruct (serial w) as [s |] eqn:Hs; [| now destruct Hc].
  cbv zeta. destruct (Z.eqb_spec (len data) 0); [lia |].
  destruct (send_head_frame_goes_through (len data) address w Hup Hc
              ltac:(lia) Ha)
    as [w1 H1].
  rewrite (bind_ok _ _ _ _ _ H1).
  apply send_head_frame_run in H1. destruct H1 as [(Hc1 & _) _].
  destruct (xupload_loop_goes_through (len data) data
              (nframes_of (len data) + 1) Hup 1 0 w1 (proj1 Hc1 Hc))
    as (off & w2 & H2 & Hc2).
  rewrite (bind_ok _ _ _ _ _ H2).
  destruct (send_tail_frame_goes_through (nframes_of (len data)) w2 Hup Hc2)
    as [w3 H3].
  rewrite (bind_ok _ _ _ _ _ H3).
  cbv [bind print sleep emit]. eauto.
Qed.

Lemma send_data_body_goes_through (nframes : Z) (start_time : PrimFloat.float)
    (n : Z) (st : send_data_locals) (w : world) :
  link_up E -> connected w ->
  within_deadline E start_time (clock_reads w) ->
  exists st' w', send_data_body E nframes start_time n st w = (Ok st', w').
Proof.
  intros Hup Hc Hd. unfold send_data_body.
  unfold bind at 1. unfold now at 1.
  unfold within_deadline in Hd. rewrite Hd.
  destruct (match loc_data st with
            | Bytes b => _
            | File unread => _
            end) as [chunk rest].
  destruct (send_data_frame_goes_through (n + 1) chunk (count_clock_read w)
              Hup Hc)
    as [w1 H1].
  rewrite (bind_ok _ _ _ _ _ H1). cbv beta zeta.
  destruct (_ >? _); cbv [bind print emit ret]; eauto.
Qed.

Lemma send_data_loop_goes_through (nframes : Z)
    (start_time : PrimFloat.float) (hi : Z) :
  link_up E ->
  forall lo st w,
    connected w ->
    (forall j, (j < Z.to_nat (hi - lo))%nat ->
       within_deadline E start_time (clock_reads w + j)) ->
    exists st' w',
      for_each (range lo hi) (send_data_body E nframes start_time) st w
      = (Ok st', w').
Proof.
  intros Hup lo. pattern lo. apply (range_ind hi); clear lo.
  - intros lo Hge st w Hc Hd. rewrite range_nil by assumption.
    exists st, w. reflexivity.
  - intros lo Hlt IH st w Hc Hd. rewrite range_cons by assumption.
    cbn [for_each].
    destruct (send_data_body_goes_through nframes start_time lo st w Hup Hc)
      as (st1 & w1 & Hb).
    { specialize (Hd 0%nat). rewrite Nat.add_0_r in Hd. apply Hd. lia. }
    rewrite (bind_ok _ _ _ _ _ Hb).
    apply send_data_body_spec in Hb; [| assumption].
    destruct Hb as (Hc1 & Hk1 & _).
    apply IH; [assumption |]. intros j Hj. rewrite Hk1.
    replace (S (clock_reads w) + j)%nat with (clock_reads w + S j)%nat by lia.
    apply Hd. lia.
Qed.

Lemma send_data_goes_through (data : source) (length address : Z)
    (w : world) :
  link_up E -> connected w ->
  0 < payload_length data length < 2 ^ 32 -> 0 <= address < 2 ^ 32 ->
  (forall j,
      (j < Z.to_nat (nframes_of (payload_length data length)))%nat ->
      within_deadline E (time_time E (clock_reads w))
        (S (clock_reads w) + j)) ->
  exists w', send_data E data length address w = (Ok tt, w').
Proof.
  intros Hup Hc Hl Ha Hd. unfold send_data. cbv zeta.
  change (match data with Bytes b => len b | File _ => length end)
    with (payload_length data length).
  set (L := payload_length data length) in *.
  destruct (Z.eqb_spec L 0); [lia |].
  destruct (send_head_frame_goes_through L address w Hup Hc ltac:(lia) Ha)
    as [w1 H1].
  rewrite (bind_ok _ _ _ _ _ H1).
  apply send_head_frame_run in H1. destruct H1 as [(Hc1 & Hk1 & _) _].
  unfold bind at 1. unfold now at 1. rewrite Hk1.
  assert (Hc1' : connected (count_clock_read w1)) by now apply Hc1.
  destruct (send_data_loop_goes_through (nframes_of L)
              (time_time E (clock_reads w)) (nframes_of L) Hup 0
              {| loc_n := None; loc_data := data; loc_last_percent := -1 |}
              (count_clock_read w1) Hc1')
    as (st & w2 & H2).
  { intros j Hj. cbn [clock_reads count_clock_read]. rewrite Hk1.
    apply Hd. lia. }
  fold L. rewrite (bind_ok _ _ _ _ _ H2).
  apply send_data_loop_spec in H2; [| assumption].
  destruct H2 as (Hc2 & _ & _ & _ & _ & _ & Hlast & _).
  rewrite (Hlast (nframes_of_pos L ltac:(lia))).
  cbv [bind print emit]. cbv beta iota.
  destruct (send_tail_frame_goes_through (nframes_of L - 1 + 1)
              (add_event (Print "\nUpload complete!" []) w2) Hup)
    as [w3 H3].
  { unfold connected in *. cbn [serial add_event]. exact Hc2. }
  rewrite H3. cbv [sleep emit]. eauto.
Qed.

(** C4, as amended.  On a connected flasher, an upload of an empty
    payload raises [FlashException] and leaves the world as it was, so no
    frame of any kind is sent.  For a payload of length [L > 0] the number
    of data frames sent never exceeds [ceil(L / 1024)], and equals it when
    the upload returns normally, which both methods do whenever every
    attempt goes through, length and address fit 32 bits and (for
    [send_data]) every deadline check passes. *)
Theorem chunk_count_law (w : world) :
  connected w ->
  (forall L r w',
      upload_run E L w r w' ->
      (L = 0 -> (exists msg, r = Raise (FlashException msg)) /\ w' = w)
      /\ (0 < L ->
          exists k t,
            is_ceil_div L MAX_DATA_LEN k
            /\ trace w' = trace w ++ t
            /\ len (List.filter is_data_frame (sent t)) <= k
            /\ (r = Ok tt ->
                len (List.filter is_data_frame (sent t)) = k)))
  /\ (link_up E ->
      forall address data length,
        0 < len data < 2 ^ 32 -> 0 <= address < 2 ^ 32 ->
        fst (xupload E address data length w) = Ok tt)
  /\ (link_up E ->
      forall data length address,
        0 < payload_length data length < 2 ^ 32 ->
        0 <= address < 2 ^ 32 ->
        (forall j,
            (j < Z.to_nat (nframes_of (payload_length data length)))%nat ->
            within_deadline E (time_time E (clock_reads w))
              (S (clock_reads w) + j)) ->
        fst (send_data E data length address w) = Ok tt).
Proof.
  intros Hc. split; [| split].
  - intros L r w' Hrun. split.
    + intros H0.
      destruct Hrun as [address data length HL H | data length address HL H].
      * unfold xupload in H. rewrite <- HL, H0 in H.
        destruct (serial w); cbv [raise Z.eqb] in H; injection H as <- <-;
          eauto.
      * unfold send_data in H. cbv zeta in H.
        change (match data with Bytes b => len b | File _ => length end)
          with (payload_length data length) in H.
        rewrite <- HL, H0 in H. cbv [raise Z.eqb] in H.
        injection H as <- <-. eauto.
    + intros Hpos. exists (nframes_of L).
      pose proof (nframes_of_pos L Hpos) as Hnf.
      destruct r as [[] | e].
      * destruct (upload_run_frames L w w' Hc Hrun)
          as (_ & t & address & dfs & Ht & Hs & Hall & Hlen).
        exists t. split; [now apply nframes_of_ceil |].
        split; [assumption |].
        rewrite Hs, filter_data_shape by (reflexivity || assumption).
        split; [lia | intros _; exact Hlen].
      * destruct (upload_run_raise L w e w' Hc Hrun) as (t & Ht & Hp).
        exists t. split; [now apply nframes_of_ceil |].
        split; [assumption |].
        split; [apply partial_upload_count; [lia | assumption]
               | discriminate].
  - intros Hup address data length Hl Ha.
    destruct (xupload_goes_through address data length w Hup Hc Hl Ha)
      as [w' H].
    now rewrite H.
  - intros Hup data length address Hl Ha Hd.
    destruct (send_data_goes_through data length address w Hup Hc Hl Ha Hd)
      as [w' H].
    now rewrite H.
Qed.


(** [xupload] has no exception for a deadline. *)
Lemma xupload_never_times_out (address : Z) (data : bytes) (length : Z) w msg :
  fst (xupload E address data length w) <> Raise (TimeoutException msg).
Proof.
  destruct (xupload E address data length w) as [r w'] eqn:H.
  apply xupload_spec in H. destruct H as (t & _ & _ & Hr). cbn.
  intros ->. destruct Hr as [(m & Hm & _) | [[Hf | (code & Hf)] _]];
    discriminate.
Qed.

(** [send_data] does: when one of its checks reads the clock past the
    deadline, it does not return normally and no tail frame is sent. *)
Lemma send_data_enforces_deadline (data : source) (length address : Z)
    w r w' (j : nat) :
  connected w ->
  send_data E data length address w = (r, w') ->
  (j < Z.to_nat (nframes_of (payload_length data length)))%nat ->
  ~ within_deadline E (time_time E (clock_reads w)) (S (clock_reads w) + j) ->
  (exists e, r = Raise e)
  /\ exists t,
       trace w' = trace w ++ t
       /\ List.filter is_tail_frame (sent t) = [].
Proof.
  intros Hc H Hj Hlate. apply send_data_spec in H; [| assumption].
  destruct H as (t & Ht & _ & Hr). destruct r as [u | e].
  - destruct Hr as (_ & _ & Hdl). now destruct (Hlate (Hdl j Hj)).
  - split; [eauto |]. exists t. split; [assumption |].
    destruct Hr as [(msg & _ & ->) | [_ Hp]]; [reflexivity |].
    now apply partial_upload_no_tail in Hp.
Qed.

(** C9, as amended.  On an unconnected flasher [xupload] raises
    [FlashException] at once, leaving the world as it was, whereas
    [send_frame], through which [send_data] sends, makes no such check: it
    returns normally without writing anything. *)
Theorem unconnected_upload (w : world) :
  serial w = None ->
  (forall address data length,
      xupload E address data length w
      = (Raise (FlashException "Serial port not connected"), w))
  /\ (forall data loop, send_frame E data loop w = (Ok tt, w)).
Proof.
  intros Hs. split.
  - intros address data length. unfold xupload. now rewrite Hs.
  - intros data loop. rewrite send_frame_eq.
    destruct (Z.to_nat (loop - 1)); cbn [send_frame_loop];
      [reflexivity | now rewrite Hs].
Qed.

End Uploads.

Lemma chunk_count_law_witness :
  (exists k t,
      is_ceil_div 2500 MAX_DATA_LEN k
      /\ trace (snd (xupload Scenario.healthy 0x00100000 Scenario.payload
                       2500 Scenario.plugged))
         = trace Scenario.plugged ++ t
      /\ len (List.filter is_data_frame (sent t)) = k)
  /\ (exists k t,
        is_ceil_div 2500 MAX_DATA_LEN k
        /\ trace (snd (send_data Scenario.healthy (Bytes Scenario.payload)
                         2500 0x00100000 Scenario.plugged))
           = trace Scenario.plugged ++ t
        /\ len (List.filter is_data_frame (sent t)) = k).
Proof.
  assert (Hc : connected Scenario.plugged) by discriminate.
  assert (Hup : link_up Scenario.healthy) by (intros k; exists ack; reflexivity).
  destruct (chunk_count_law Scenario.healthy Scenario.plugged Hc)
    as (Hlaw & Hx & Hs).
  split.
  - specialize (Hx Hup 0x00100000 Scenario.payload 2500).
    destruct (proj2 (Hlaw 2500 _ _
                       (by_xupload _ _ _ _ _ 0x00100000 Scenario.payload
                          2500 eq_refl (surjective_pairing _)))
                ltac:(lia))
      as (k & t & Hk & Ht & _ & Heq).
    exists k, t. split; [exact Hk |]. split; [exact Ht |].
    apply Heq. apply Hx; [vm_compute; split; reflexivity | lia].
  - specialize (Hs Hup (Bytes Scenario.payload) 2500 0x00100000).
    destruct (proj2 (Hlaw 2500 _ _
                       (by_send_data _ _ _ _ _ (Bytes Scenario.payload)
                          2500 0x00100000 eq_refl (surjective_pairing _)))
                ltac:(lia))
      as (k & t & Hk & Ht & _ & Heq).
    exists k, t. split; [exact Hk |]. split; [exact Ht |].
    apply Heq. apply Hs; [vm_compute; split; reflexivity | lia |].
    intros j Hj. vm_compute in Hj.
    destruct j as [| [| [| j]]]; try (vm_compute; reflexivity).
    exfalso. lia.
Defined.

(** C4, as stated, fails: over a link on which every attempt raises, the
    upload of 2500 bytes gives up at the header frame and has sent none of
    the 3 data frames. *)
Lemma failed_upload_sends_fewer_frames :
  ~ (forall (E : env) (L : Z) (w : world) (r : result unit) (w' : world),
        connected w ->
        upload_run E L w r w' ->
        0 < L ->
        exists t,
          trace w' = trace w ++ t
          /\ is_ceil_div L MAX_DATA_LEN
               (len (List.filter is_data_frame (sent t)))).
Proof.
  intros H.
  destruct (H Scenario.dead_link 2500 Scenario.plugged _ _
              ltac:(discriminate)
              (by_xupload _ _ _ _ _ 0x00100000 Scenario.payload 2500
                 eq_refl (surjective_pairing _))
              ltac:(lia))
    as (t & Ht & Hk).
  vm_compute in Ht. subst t. vm_compute in Hk.
  destruct Hk as [_ Hk]. now apply Hk.
Qed.


Lemma unconnected_upload_witness :
  xupload Scenario.healthy 0x00100000 Scenario.payload 2500 Scenario.fresh
  = (Raise (FlashException "Serial port not connected"), Scenario.fresh)
  /\ send_frame Scenario.healthy startframe 10000 Scenario.fresh
     = (Ok tt, Scenario.fresh).
Proof.
  destruct (unconnected_upload Scenario.healthy Scenario.fresh eq_refl)
    as [Hx Hf].
  split; [apply Hx | apply Hf].
Defined.

(** C9, as stated, fails: [send_data] on an unconnected flasher goes
    through the whole upload and returns normally. *)
Lemma unconnected_send_data_proceeds :
  ~ (forall (E : env) (data : source) (length address : Z) (w : world),
        serial w = None ->
        exists msg,
          fst (send_data E data length address w)
          = Raise (FlashException msg)).
Proof.
  intros H.
  destruct (H Scenario.healthy (Bytes [1; 2; 3]) 3 0 Scenario.fresh eq_refl)
    as [msg Hmsg].
  vm_compute in Hmsg. discriminate.
Qed.

(** C3. [xupload] never looks at the clock: with a hundred seconds
    between clock readings it uploads the 2500 bytes and sends the tail
    frame with count 3, where [send_data] raises [TimeoutException] at
    its first check. *)
Theorem xupload_has_no_deadline :
  let run := xupload Scenario.stalled 0x00100000 Scenario.payload 2500
               Scenario.plugged in
  fst run = Ok tt
  /\ clock_reads (snd run) = clock_reads Scenario.plugged
  /\ map seq_byte (List.filter is_tail_frame (sent (trace (snd run)))) = [3]
  /\ fst (send_data Scenario.stalled (Bytes Scenario.payload) 2500 0x00100000
            Scenario.plugged)
     = Raise (TimeoutException "Upload timeout exceeded!").
Proof. vm_compute. repeat split. Qed.

(** ** Device selection *)

Section Selection.

Variable E : env.

Lemma is_idt_port_iff (p : ListPortInfo) :
  is_idt_port p = true <-> vid p = Some 0x12D1 /\ pid p = Some 0x3609.
Proof.
  unfold is_idt_port. rewrite andb_true_iff, !bool_decide_eq_true.
  reflexivity.
Qed.

(** C8. Without an explicit device path, [connect_serial] keeps the
    enumerated ports whose vendor id is 0x12D1 and whose product id is
    0x3609; with no such port it raises [DeviceDetectException], with two
    or more it raises [DeviceDetectException], and with exactly one it
    logs the selection at warning level and opens that port. *)
Theorem device_selection (w : world) :
  let matching := List.filter is_idt_port (comports E) in
  (forall p, In p matching <->
             In p (comports E)
             /\ vid p = Some 0x12D1 /\ pid p = Some 0x3609)
  /\ (matching = [] ->
      connect_serial E None w
      = (Raise (DeviceDetectException "No IDT mode device found"), w))
  /\ (1 < len matching ->
      connect_serial E None w
      = (Raise (DeviceDetectException
                  "Multiple IDT devices found. Specify manually."), w))
  /\ (forall p, matching = [p] ->
      let port := port_path E (device p) in
      let logged :=
        add_event (Log WARNING ("Autoselecting " +:+ device p) TOOLNAME) w in
      connect_serial E None w
      = match serial_Serial E port with
        | Some code => (Raise (SerialException code), logged)
        | None =>
            (Ok tt,
             add_event (SerialOpen port)
               (set_serial (Some (fresh_handle port)) logged))
        end).
Proof.
  intros matching. split; [| split; [| split]].
  - intros p. unfold matching. rewrite filter_In, is_idt_port_iff.
    reflexivity.
  - intros Hnil. unfold connect_serial. fold matching. rewrite Hnil.
    reflexivity.
  - intros Hlen. unfold connect_serial. fold matching.
    destruct matching as [| p l]; [discriminate |].
    rewrite bool_decide_eq_false_2 by discriminate.
    destruct (Z.gtb_spec (len (p :: l)) 1); [reflexivity | lia].
  - intros p Hone port logged. unfold connect_serial. fold matching.
    rewrite Hone. cbn [bool_decide decide_rel].
    rewrite bool_decide_eq_false_2 by discriminate.
    change (len [p] >? 1) with false. cbn iota.
    change ([p] !! 0%nat) with (Some p). cbn iota.
    cbv [bind log_warning emit ret]. fold logged.
    change (if String.eqb (platform_system E) "Windows"
               && startswith (upper (device p)) "COM"
            then replace (device p) "COM" "\\.\COM"
            else device p) with port.
    unfold open_serial. destruct (serial_Serial E port); reflexivity.
Qed.

(** What [connect_serial] leaves behind: nothing is written; a normal
    return has opened one port and the flasher is connected; an exception
    has opened none and the handle is as before. *)
Lemma connect_serial_spec (explicit : option string) w r w' :
  connect_serial E explicit w = (r, w') ->
  exists t,
    trace w' = trace w ++ t
    /\ written t = []
    /\ match r with
       | Ok _ => (exists p, opened t = [p]) /\ connected w'
       | Raise e => opened t = [] /\ serial w' = serial w
       end.
Proof.
  unfold connect_serial. intros H. apply bind_inv in H.
  destruct H as [(dev & w1 & Hsel & H) | (e & Hsel & ->)].
  - assert (Hw1 : exists t0, trace w1 = trace w ++ t0 /\ written t0 = []
                    /\ opened t0 = [] /\ serial w1 = serial w).
    { destruct explicit as [d |].
      - injection Hsel as <- <-. exists []. now rewrite app_nil_r.
      - destruct (bool_decide _); [discriminate |].
        destruct (_ >? 1); [discriminate |].
        destruct (_ !! 0%nat) as [p |]; [| discriminate].
        cbv [bind log_warning emit ret] in Hsel. injection Hsel as <- <-.
        eexists. cbn [trace add_event]. repeat split. }
    destruct Hw1 as (t0 & Ht0 & Hwr0 & Hop0 & Hs0).
    unfold open_serial in H.
    destruct (serial_Serial E _) as [code |].
    + injection H as <- <-. exists t0. repeat split; try assumption.
    + injection H as <- <-. eexists. cbn [trace add_event set_serial].
      rewrite Ht0, <- app_assoc. split; [reflexivity |].
      rewrite written_app, opened_app, Hwr0, Hop0. cbn.
      repeat split; [eauto | discriminate].
  - destruct explicit as [d |]; [discriminate |].
    destruct (bool_decide _).
    { injection Hsel as <- <-. exists []. now rewrite app_nil_r. }
    destruct (_ >? 1).
    { injection Hsel as <- <-. exists []. now rewrite app_nil_r. }
    destruct (_ !! 0%nat) as [p |].
    + cbv [bind log_warning emit ret] in Hsel. discriminate.
    + injection Hsel as <- <-. exists []. now rewrite app_nil_r.
Qed.

End Selection.

Lemma device_selection_witness :
  connect_serial Scenario.no_device None Scenario.fresh
  = (Raise (DeviceDetectException "No IDT mode device found"),
     Scenario.fresh)
  /\ connect_serial Scenario.two_devices None Scenario.fresh
     = (Raise (DeviceDetectException
                 "Multiple IDT devices found. Specify manually."),
        Scenario.fresh)
  /\ connect_serial Scenario.healthy None Scenario.fresh
     = (Ok tt,
        {| serial := Some (fresh_handle "/dev/ttyUSB0");
           attempts := 0; clock_reads := 0;
           trace := [Log WARNING "Autoselecting /dev/ttyUSB0" TOOLNAME;
                     SerialOpen "/dev/ttyUSB0"] |}).
Proof.
  split; [| split].
  - apply (device_selection Scenario.no_device Scenario.fresh). reflexivity.
  - apply (device_selection Scenario.two_devices Scenario.fresh).
    reflexivity.
  - apply (proj2 (proj2 (proj2
             (device_selection Scenario.healthy Scenario.fresh)))
             Scenario.idt_port).
    reflexivity.
Defined.

(** ** The upload stage of main *)

Section Main.

Variable E : env.

Lemma print_role_addresses_spec (roles : gmap string Z) (names : list string) :
  forall w,
    exists w1 t,
      for_each names (print_role_address roles) tt w = (Ok tt, w1)
      /\ trace w1 = trace w ++ t
      /\ written t = [] /\ opened t = [].
Proof.
  induction names as [| role names IH]; intros w.
  - exists w, []. now rewrite app_nil_r.
  - cbn [for_each]. unfold print_role_address at 1.
    destruct (roles !! role) as [a |].
    + destruct (IH (add_event
                      (Print ("[DEBUG] " +:+ role +:+ " address: 0x{:08X}")
                         [a]) w))
        as (w1 & t & Hrun & Ht & Hw & Ho).
      exists w1. eexists. cbv [bind print emit]. rewrite Hrun.
      split; [reflexivity |]. rewrite Ht. cbn [trace add_event].
      rewrite <- app_assoc. split; [reflexivity |].
      rewrite written_app, opened_app, Hw, Ho. split; reflexivity.
    + destruct (IH w) as (w1 & t & Hrun & Ht & Hw & Ho).
      exists w1, t. cbv [bind ret]. rewrite Hrun. auto.
Qed.

(** With exactly one IDT port, which opens, [connect_serial] logs its
    choice and opens the port. *)
Lemma connect_serial_autoselect (p : ListPortInfo) (w : world) :
  List.filter is_idt_port (comports E) = [p] ->
  serial_Serial E (port_path E (device p)) = None ->
  connect_serial E None w
  = (Ok tt,
     add_event (SerialOpen (port_path E (device p)))
       (set_serial (Some (fresh_handle (port_path E (device p))))
          (add_event (Log WARNING ("Autoselecting " +:+ device p) TOOLNAME)
             w))).
Proof.
  intros Hf Ho. unfold connect_serial. cbv zeta. rewrite Hf.
  rewrite bool_decide_eq_false_2 by discriminate.
  change (len [p] >? 1) with false. cbn [lookup list_lookup].
  cbv [bind log_warning emit ret].
  change (if String.eqb (platform_system E) "Windows"
             && startswith (upper (device p)) "COM"
          then replace (device p) "COM" "\\.\COM"
          else device p)
    with (port_path E (device p)).
  unfold open_serial. rewrite Ho. reflexivity.
Qed.

(** C7, as amended.  When the role table has no [xloader], [main] aborts
    and no frame is handed to the serial port; but the role table is not
    checked beforehand, and the abort comes from the lookup of the role,
    after [connect_serial].  If a port was opened, the exception is
    [KeyError] for [xloader] and the last thing done is closing that port;
    and a port is opened whenever the two flags are not both set, the
    manifest exists, exactly one IDT port is found and it opens. *)
Theorem missing_xloader_aborts (chipset : string) (unlock wipefrp : bool)
    (roles : gmap string Z) (w : world) (r : result unit) (w' : world) :
  load_manifest E (("loaders/" +:+ chipset) +:+ "/manifest.xml") = Some roles ->
  roles !! "xloader" = None ->
  main E chipset unlock wipefrp w = (r, w') ->
  (exists e, r = Raise e)
  /\ exists t,
       trace w' = trace w ++ t
       /\ written t = []
       /\ (opened t = []
           \/ (r = Raise (KeyError "xloader")
               /\ exists p t0, opened t = [p] /\ t = t0 ++ [SerialClose]))
       /\ (unlock && wipefrp = false ->
           path_exists E (("loaders/" +:+ chipset) +:+ "/manifest.xml")
           = true ->
           forall p,
             List.filter is_idt_port (comports E) = [p] ->
             serial_Serial E (port_path E (device p)) = None ->
             r = Raise (KeyError "xloader")
             /\ opened t = [port_path E (device p)]
             /\ exists t0, t = t0 ++ [SerialClose]).
Proof.
  intros Hman Hx H. unfold main in H.
  destruct (unlock && wipefrp).
  { injection H as <- <-. split; [eauto |].
    exists []. rewrite app_nil_r.
    split; [reflexivity |]. split; [reflexivity |].
    split; [now left | discriminate]. }
  cbv zeta in H.
  destruct (path_exists E _).
  2: { injection H as <- <-. split; [eauto |].
       exists []. rewrite app_nil_r.
       split; [reflexivity |]. split; [reflexivity |].
       split; [now left | intros _; discriminate]. }
  cbn [negb] in H. rewrite Hman in H.
  unfold bind at 1 in H. unfold ret at 1 in H.
  unfold bind at 1 in H. unfold print at 1, emit at 1 in H.
  set (p0 := Print ("[INFO] Uploading images for chipset: " +:+ chipset) [])
    in H.
  unfold bind at 1 in H.
  destruct (print_role_addresses_spec roles ["xloader"; "fastboot"; "uce"]
              (add_event p0 w))
    as (w1 & t1 & Hrun & Ht1 & Hw1 & Ho1).
  rewrite Hrun in H. cbn [trace add_event] in Ht1.
  unfold bind at 1 in H. unfold with_ImageFlasher at 1 in H.
  unfold bind at 1 in H.
  destruct (connect_serial E None (set_serial None w1)) as [[u | e] w2] eqn:Hcs;
    pose proof Hcs as Hauto;
    apply connect_serial_spec in Hcs;
    destruct Hcs as (t2 & Ht2 & Hw2 & Hr2); cbn [trace set_serial] in Ht2.
  - destruct Hr2 as [[p Hp] Hc2].
    unfold bind at 1 in H. unfold print at 1, emit at 1 in H.
    unfold bind at 1 in H. unfold upload_role at 1 in H.
    unfold bind at 1 in H. unfold getitem at 1 in H.
    rewrite Hx in H. unfold raise at 1 in H.
    cbn [serial add_event] in H.
    destruct (serial w2) as [s |] eqn:Hs2; [| now destruct Hc2].
    injection H as <- <-. split; [eauto |].
    set (t0 := [p0] ++ t1 ++ t2 ++ [Print "[INFO] Uploading xloader..." []]).
    assert (Hop : opened t0 = [p])
      by (unfold t0; rewrite !opened_app, Ho1, Hp; reflexivity).
    exists (t0 ++ [SerialClose]). split; [| split; [| split]].
    + cbn [trace add_event]. rewrite Ht2, Ht1. unfold t0.
      rewrite <- !app_assoc. reflexivity.
    + unfold t0. rewrite !written_app, Hw1, Hw2. reflexivity.
    + right. split; [reflexivity |]. exists p, t0.
      split; [| reflexivity]. rewrite opened_app, Hop. reflexivity.
    + intros _ _ q Hq Hopen. split; [reflexivity |].
      split; [| exists t0; reflexivity].
      rewrite (connect_serial_autoselect q _ Hq Hopen) in Hauto.
      injection Hauto as _ Hw2'. apply (f_equal trace) in Hw2'.
      cbn [trace add_event set_serial] in Hw2'.
      rewrite Ht2, <- app_assoc in Hw2'. apply app_inv_head in Hw2'.
      rewrite <- Hw2' in Hp. cbn in Hp. injection Hp as Hp.
      rewrite opened_app, Hop, Hp. reflexivity.
  - destruct Hr2 as [Ho2 Hs2]. cbn [serial set_serial] in Hs2.
    rewrite Hs2 in H. injection H as <- <-. split; [eauto |].
    exists ([p0] ++ t1 ++ t2). rewrite Ht2, Ht1, <- !app_assoc.
    split; [reflexivity |].
    rewrite !written_app, !opened_app, Hw1, Hw2, Ho1, Ho2.
    split; [reflexivity |]. split; [now left |].
    intros _ _ q Hq Hopen.
    rewrite (connect_serial_autoselect q _ Hq Hopen) in Hauto.
    discriminate.
Qed.

End Main.

Lemma missing_xloader_aborts_witness :
  exists t,
    trace (snd (main Scenario.no_xloader "hisi960" true false Scenario.fresh))
    = trace Scenario.fresh ++ t
    /\ written t = []
    /\ fst (main Scenario.no_xloader "hisi960" true false Scenario.fresh)
       = Raise (KeyError "xloader")
    /\ opened t = ["/dev/ttyUSB0"%string]
    /\ exists t0, t = t0 ++ [SerialClose].
Proof.
  destruct (missing_xloader_aborts Scenario.no_xloader "hisi960" true false
              Scenario.only_fastboot Scenario.fresh
              (fst (main Scenario.no_xloader "hisi960" true false
                      Scenario.fresh))
              (snd (main Scenario.no_xloader "hisi960" true false
                      Scenario.fresh)))
    as (_ & t & Ht & Hw & _ & Hopen).
  - reflexivity.
  - vm_compute. reflexivity.
  - apply surjective_pairing.
  - exists t. split; [exact Ht |]. split; [exact Hw |].
    apply (Hopen eq_refl eq_refl Scenario.idt_port); reflexivity.
Defined.

(** C7, as stated, fails: with a role table holding only [fastboot] and
    one IDT port present, [main] has opened the port by the time it
    aborts. *)
Lemma missing_xloader_opens_port :
  ~ (forall (E : env) (chipset : string) (unlock wipefrp : bool)
            (roles : gmap string Z) (w : world),
        load_manifest E (("loaders/" +:+ chipset) +:+ "/manifest.xml")
        = Some roles ->
        roles !! "xloader" = None ->
        opened (trace (snd (main E chipset unlock wipefrp w)))
        = opened (trace w)).
Proof.
  intros H.
  specialize (H Scenario.no_xloader "hisi960" true false
                Scenario.only_fastboot Scenario.fresh eq_refl).
  assert (Hx : Scenario.only_fastboot !! "xloader" = None)
    by (vm_compute; reflexivity).
  specialize (H Hx). vm_compute in H. discriminate.
Qed.

(** ** Worked runs *)

Example calc_crc_startframe : calc_crc startframe 0 = 0x47E5.
Proof. reflexivity. Qed.

Example port_path_windows :
  port_path
    {| attempt_outcome := Scenario.acks;
       time_time := Scenario.steady_clock;
       comports := [];
       platform_system := "Windows";
       serial_Serial := fun _ => None;
       path_exists := fun _ => true;
       file_contents := fun _ => None;
       load_manifest := fun _ => None |}
    "COM3"
  = "\\.\COM3"
  /\ port_path Scenario.healthy "COM3" = "COM3".
Proof. split; reflexivity. Qed.

(** 2500 bytes to address 0x00100000: a header frame carrying the length
    and the address, three data frames numbered 1, 2, 3 with 1024, 1024
    and 452 payload bytes, one tail frame with count 3. *)
Example upload_2500_bytes :
  let run := xupload Scenario.healthy 0x00100000 Scenario.payload 2500
               Scenario.plugged in
  fst run = Ok tt
  /\ map (fun f => (len f, firstn 3 f)) (sent (trace (snd run)))
     = [(14, [0xFE; 0x00; 0xFF]);
        (1029, [0xDA; 1; 0xFE]);
        (1029, [0xDA; 2; 0xFD]);
        (457, [0xDA; 3; 0xFC]);
        (5, [0xED; 3; 0xFC])]
  /\ firstn 12 (hd [] (sent (trace (snd run))))
     = [0xFE; 0x00; 0xFF; 0x01; 0; 0; 0x09; 0xC4; 0x00; 0x10; 0x00; 0x00].
Proof. vm_compute. repeat split. Qed.

(** The same payload read from a file by [download_from_disk]. *)
Example download_2500_bytes :
  let run := download_from_disk Scenario.healthy "loaders/hisi960/xloader.img"
               0x00100000 Scenario.plugged in
  fst run = Ok tt
  /\ map (fun f => (len f, firstn 3 f)) (sent (trace (snd run)))
     = [(14, [0xFE; 0x00; 0xFF]);
        (1029, [0xDA; 1; 0xFE]);
        (1029, [0xDA; 2; 0xFD]);
        (457, [0xDA; 3; 0xFC]);
        (5, [0xED; 3; 0xFC])].
Proof. vm_compute. repeat split. Qed.

(** A failed attempt is retried: the frame is written twice and counts as
    sent once. *)
Example retry_after_one_failure :
  let E := Scenario.make_env
             (fun k => match k with
                       | O => Raises serial_read 5
                       | _ => Returns ack
                       end)
             Scenario.steady_clock [Scenario.idt_port] Scenario.both_roles in
  let run := send_tail_frame E 3 Scenario.plugged in
  fst run = Ok tt
  /\ written (trace (snd run)) = [[0xED; 3; 0xFC; 0x99; 0xA0];
                                  [0xED; 3; 0xFC; 0x99; 0xA0]]
  /\ sent (trace (snd run)) = [[0xED; 3; 0xFC; 0x99; 0xA0]].
Proof. vm_compute. repeat split. Qed.

(** * Further properties *)

(** ** The checksum is CRC-16/XMODEM *)

Section Xmodem.

Lemma table_linear_check :
  forallb
    (fun x =>
       forallb
         (fun y =>
            table_entry (Z.lxor (Z.of_nat x) (Z.of_nat y))
            =? Z.lxor (table_entry (Z.of_nat x)) (table_entry (Z.of_nat y)))
         (seq 0 256))
    (seq 0 256) = true.
Proof. vm_compute. reflexivity. Qed.

(** The table is linear over xor. *)
Lemma table_linear (x y : Z) :
  is_byte x -> is_byte y ->
  table_entry (Z.lxor x y) = Z.lxor (table_entry x) (table_entry y).
Proof.
  intros Hx Hy. unfold is_byte in *.
  pose proof table_linear_check as H.
  rewrite forallb_forall in H.
  specialize (H (Z.to_nat x)). rewrite forallb_forall in H.
  specialize (H ltac:(apply in_seq; lia) (Z.to_nat y) ltac:(apply in_seq; lia)).
  rewrite !Z2Nat.id in H by lia. now apply Z.eqb_eq.
Qed.

Lemma table_range_check :
  forallb (fun x => (0 <=? table_entry (Z.of_nat x))
                    && (table_entry (Z.of_nat x) <? 2 ^ 16))
    (seq 0 256) = true.
Proof. vm_compute. reflexivity. Qed.

Lemma table_range (x : Z) : is_byte x -> 0 <= table_entry x < 2 ^ 16.
Proof.
  intros Hx. unfold is_byte in *.
  pose proof table_range_check as H.
  rewrite forallb_forall in H.
  specialize (H (Z.to_nat x) ltac:(apply in_seq; lia)).
  rewrite Z2Nat.id in H by lia. lia.
Qed.

Lemma crc_hqx_single (h : Z) : binascii.crc_hqx [h] 0 = table_entry h.
Proof.
  unfold binascii.crc_hqx, binascii.crc_hqx_step, table_entry. cbn [fold_left].
  change (Z.land 0 0xffff) with 0. now rewrite Z.shiftl_0_l, Z.shiftr_0_l.
Qed.

Lemma testbit_high (z n i : Z) :
  0 <= z < 2 ^ n -> 0 <= n <= i -> Z.testbit z i = false.
Proof.
  intros Hz Hi. rewrite <- (Z.mod_small z (2 ^ n)) by lia.
  apply Z.mod_pow2_bits_high. lia.
Qed.

Lemma byte_iff_land (z : Z) : is_byte z <-> Z.land z 0xFF = z.
Proof.
  unfold is_byte. split.
  - intros Hz. change 0xFF with (Z.ones 8). rewrite Z.land_ones by lia.
    apply Z.mod_small. lia.
  - intros <-. apply land_0xFF_byte.
Qed.

Lemma lxor_byte (x y : Z) : is_byte x -> is_byte y -> is_byte (Z.lxor x y).
Proof.
  rewrite !byte_iff_land. intros Hx Hy.
  rewrite <- Hx, <- Hy at 2. change 0xFF with (Z.ones 8).
  apply Z.bits_inj'. intros i Hi.
  rewrite !Z.land_spec, !Z.lxor_spec, !Z.land_spec.
  destruct (Z.testbit x i), (Z.testbit y i), (Z.testbit (Z.ones 8) i);
    reflexivity.
Qed.

Lemma hi_byte (c : Z) : is_byte (high_byte c).
Proof. apply land_0xFF_byte. Qed.

Lemma hi_lxor (x y : Z) : high_byte (Z.lxor x y) = Z.lxor (high_byte x) (high_byte y).
Proof.
  unfold high_byte. apply Z.bits_inj'. intros i Hi.
  rewrite !Z.land_spec, !Z.lxor_spec, !Z.land_spec, !Z.shiftr_spec,
    Z.lxor_spec by lia.
  destruct (Z.testbit x (i + 8)), (Z.testbit y (i + 8)),
    (Z.testbit 0xFF i); reflexivity.
Qed.

Lemma sh_lxor (x y : Z) : shift_byte (Z.lxor x y) = Z.lxor (shift_byte x) (shift_byte y).
Proof.
  unfold shift_byte. apply Z.bits_inj'. intros i Hi.
  rewrite !Z.land_spec, !Z.lxor_spec, !Z.land_spec, !Z.shiftl_spec,
    Z.lxor_spec by lia.
  destruct (Z.testbit x (i - 8)), (Z.testbit y (i - 8)),
    (Z.testbit 0xFFFF i); reflexivity.
Qed.

(** On a byte, one update is an xor of three terms. *)
Lemma update_linear_form (a b : Z) :
  is_byte b ->
  Reference.update a b = Z.lxor (Z.lxor (shift_byte a) b) (table_entry (high_byte a)).
Proof.
  intros Hb. unfold Reference.update.
  rewrite <- crc_hqx_single_byte, crc_hqx_single by apply land_0xFF_byte.
  fold (high_byte a). pose proof (table_range (high_byte a) (hi_byte a)) as Ht.
  unfold shift_byte. change 0xFFFF with (Z.ones 16).
  apply Z.bits_inj'. intros i Hi.
  rewrite !Z.land_spec, !Z.lxor_spec, Z.lor_spec, Z.land_spec,
    !Z.shiftl_spec by lia.
  destruct (Z.ltb_spec i 8) as [H8 | H8].
  - rewrite (Z.testbit_neg_r a (i - 8)) by lia.
    rewrite (Z.ones_spec_low 16 i) by lia.
    destruct (Z.testbit b i), (Z.testbit (table_entry (high_byte a)) i);
      reflexivity.
  - rewrite (testbit_high b 8 i) by (unfold is_byte in Hb; lia).
    destruct (Z.ltb_spec i 16) as [H16 | H16].
    + rewrite (Z.ones_spec_low 16 i) by lia.
      destruct (Z.testbit a (i - 8)), (Z.testbit (table_entry (high_byte a)) i);
        reflexivity.
    + rewrite (Z.ones_spec_high 16 i) by lia.
      rewrite (testbit_high (table_entry (high_byte a)) 16 i) by lia.
      destruct (Z.testbit a (i - 8)); reflexivity.
Qed.

Lemma update_lxor (x y b c : Z) :
  is_byte b -> is_byte c ->
  Reference.update (Z.lxor x y) (Z.lxor b c)
  = Z.lxor (Reference.update x b) (Reference.update y c).
Proof.
  intros Hb Hc.
  rewrite !update_linear_form by auto using lxor_byte.
  rewrite sh_lxor, hi_lxor, table_linear by apply hi_byte.
  apply Z.bits_inj'. intros i Hi. rewrite !Z.lxor_spec.
  destruct (Z.testbit (shift_byte x) i), (Z.testbit (shift_byte y) i), (Z.testbit b i),
    (Z.testbit c i), (Z.testbit (table_entry (high_byte x)) i),
    (Z.testbit (table_entry (high_byte y)) i); reflexivity.
Qed.

Lemma byte_zero : is_byte 0.
Proof. unfold is_byte. lia. Qed.

Lemma update_zero_byte (b : Z) : is_byte b -> Reference.update 0 b = b.
Proof.
  intros Hb. rewrite update_linear_form by assumption.
  change (shift_byte 0) with 0. change (table_entry (high_byte 0)) with 0.
  now rewrite Z.lxor_0_l, Z.lxor_0_r.
Qed.

Lemma update_byte_zero (b : Z) :
  is_byte b -> Reference.update b 0 = Z.shiftl b 8.
Proof.
  intros Hb. rewrite update_linear_form by apply byte_zero.
  assert (Hhi : high_byte b = 0).
  { unfold high_byte. rewrite Z.shiftr_div_pow2 by lia.
    rewrite Z.div_small by (unfold is_byte in Hb; lia). reflexivity. }
  rewrite Hhi. change (table_entry 0) with 0. rewrite !Z.lxor_0_r.
  unfold shift_byte. change 0xFFFF with (Z.ones 16). rewrite Z.land_ones by lia.
  apply Z.mod_small. rewrite Z.shiftl_mul_pow2 by lia.
  unfold is_byte in Hb. lia.
Qed.

Lemma update_shifted_byte (b : Z) :
  is_byte b -> Reference.update (Z.shiftl b 8) 0 = table_entry b.
Proof.
  intros Hb. rewrite update_linear_form by apply byte_zero.
  assert (Hhi : high_byte (Z.shiftl b 8) = b).
  { unfold high_byte. rewrite Z.shiftr_shiftl_l, Z.sub_diag, Z.shiftl_0_r by lia.
    now apply byte_iff_land. }
  assert (Hsh : shift_byte (Z.shiftl b 8) = 0).
  { unfold shift_byte. rewrite Z.shiftl_shiftl by lia.
    change 0xFFFF with (Z.ones 16). rewrite Z.land_ones by lia.
    rewrite Z.shiftl_mul_pow2 by lia. change (8 + 8) with 16.
    apply Z.mod_mul. lia. }
  now rewrite Hhi, Hsh, Z.lxor_0_r, Z.lxor_0_l.
Qed.

Lemma update_range (a b : Z) : 0 <= Reference.update a b < 2 ^ 16.
Proof.
  unfold Reference.update. change 0xFFFF with (Z.ones 16).
  rewrite Z.land_ones by lia. apply Z.mod_pos_bound. lia.
Qed.

Lemma update_byte_split (a b : Z) :
  is_byte b -> Reference.update a b = Z.lxor (Reference.update a 0) b.
Proof.
  intros Hb. rewrite !update_linear_form by auto using byte_zero.
  apply Z.bits_inj'. intros i Hi. rewrite !Z.lxor_spec, Z.bits_0.
  destruct (Z.testbit (shift_byte a) i), (Z.testbit b i),
    (Z.testbit (table_entry (high_byte a)) i); reflexivity.
Qed.

Lemma update_lxor_zero (x y : Z) :
  Reference.update (Z.lxor x y) 0
  = Z.lxor (Reference.update x 0) (Reference.update y 0).
Proof. exact (update_lxor x y 0 0 byte_zero byte_zero). Qed.

(** Flushing two zero bytes after a byte is one table-driven step after
    flushing. *)
Lemma flush_after_byte (a b : Z) :
  is_byte b ->
  Reference.update (Reference.update (Reference.update a b) 0) 0
  = binascii.crc_hqx_step
      (Reference.update (Reference.update a 0) 0) b.
Proof.
  intros Hb.
  rewrite (update_byte_split a b Hb).
  rewrite update_lxor_zero, (update_byte_zero b Hb).
  rewrite update_lxor_zero, (update_shifted_byte b Hb).
  set (d := Reference.update (Reference.update a 0) 0).
  pose proof (update_range (Reference.update a 0) 0) as Hd. fold d in Hd.
  rewrite update_linear_form by apply byte_zero. rewrite Z.lxor_0_r.
  unfold binascii.crc_hqx_step. fold (table_entry (Z.lxor (Z.shiftr d 8) b)).
  assert (Hhi : Z.shiftr d 8 = high_byte d).
  { unfold high_byte. symmetry. apply byte_iff_land. unfold is_byte.
    rewrite Z.shiftr_div_pow2 by lia. split.
    - apply Z.div_pos; lia.
    - apply Z.div_lt_upper_bound; lia. }
  rewrite Hhi, table_linear by (apply hi_byte || assumption).
  assert (Hsh : Z.land (Z.shiftl d 8) 0xff00 = shift_byte d).
  { unfold shift_byte. apply Z.bits_inj'. intros i Hi.
    rewrite !Z.land_spec, Z.shiftl_spec by lia.
    destruct (Z.ltb_spec i 8) as [H8 | H8].
    - now rewrite (Z.testbit_neg_r d (i - 8)) by lia.
    - destruct (Z.ltb_spec i 16) as [H16 | H16].
      + change 0xff00 with (Z.shiftl (Z.ones 8) 8).
        change 0xFFFF with (Z.ones 16).
        rewrite Z.shiftl_spec, !Z.ones_spec_low by lia. reflexivity.
      + rewrite (testbit_high 0xff00 16 i), (testbit_high 0xFFFF 16 i)
          by lia. reflexivity. }
  rewrite Hsh. now rewrite Z.lxor_assoc.
Qed.

Lemma fold_flush (data : bytes) :
  Forall is_byte data ->
  forall a,
    Reference.update (Reference.update (fold_left Reference.update data a) 0) 0
    = fold_left binascii.crc_hqx_step data
        (Reference.update (Reference.update a 0) 0).
Proof.
  induction 1 as [| b data Hb _ IH]; intros a; cbn [fold_left].
  - reflexivity.
  - now rewrite IH, flush_after_byte.
Qed.

Lemma calc_crc_reference (data : bytes) :
  calc_crc data 0
  = Reference.update
      (Reference.update (fold_left Reference.update data 0) 0) 0.
Proof.
  unfold calc_crc.
  rewrite <- fold_left_app, fold_crc_update_truncates.
  change (Z.land 0 0xFFFF) with 0. now rewrite fold_left_app.
Qed.

(** X1. On bytes, the checksum is the CRC-16/XMODEM of the data as
    [binascii.crc_hqx] computes it from the initial value 0. *)
Theorem calc_crc_is_crc_hqx (data : bytes) :
  Forall is_byte data -> calc_crc data 0 = binascii.crc_hqx data 0.
Proof.
  intros Hd. rewrite calc_crc_reference, fold_flush by assumption.
  reflexivity.
Qed.

End Xmodem.

Lemma calc_crc_is_crc_hqx_witness :
  calc_crc startframe 0 = binascii.crc_hqx startframe 0.
Proof.
  apply calc_crc_is_crc_hqx.
  repeat constructor; unfold is_byte; lia.
Defined.

(** ** Frames on the wire *)

Section Wire.

Variable E : env.

Lemma be_digits_length (k : nat) : forall n, length (be_digits k n) = k.
Proof.
  induction k as [| k IH]; intros n; cbn [be_digits]; [reflexivity |].
  rewrite length_app, IH. cbn. lia.
Qed.

Lemma be_digits_bytes (k : nat) : forall n, Forall is_byte (be_digits k n).
Proof.
  induction k as [| k IH]; intros n; cbn [be_digits]; [constructor |].
  apply Forall_app. split; [apply IH |].
  constructor; [| constructor]. unfold is_byte. apply Z.mod_pos_bound. lia.
Qed.

Lemma be_value_snoc (l : bytes) (x : Z) :
  be_value (l ++ [x]) = be_value l * 256 + x.
Proof. unfold be_value. now rewrite fold_left_app. Qed.

(** Decoding what [to_bytes] encodes gives the integer back, modulo the
    width. *)
Lemma be_value_be_digits (k : nat) :
  forall n, be_value (be_digits k n) = n mod 256 ^ Z.of_nat k.
Proof.
  induction k as [| k IH]; intros n; cbn [be_digits].
  - now rewrite Z.mod_1_r.
  - rewrite be_value_snoc, IH.
    replace (256 ^ Z.of_nat (S k)) with (256 * 256 ^ Z.of_nat k)
      by (rewrite Nat2Z.inj_succ, Z.pow_succ_r; lia).
    rewrite Z.rem_mul_r by lia. lia.
Qed.

Lemma with_trailer_bytes (data : bytes) :
  Forall is_byte data -> Forall is_byte (with_trailer data).
Proof.
  intros H. apply Forall_app. split; [assumption | apply be_digits_bytes].
Qed.

Lemma send_frame_writes (data : bytes) (loop : Z) (w : world) :
  writes_only (eq (with_trailer data)) (send_frame E data loop) w.
Proof.
  unfold writes_only.
  destruct (send_frame E data loop w) as [r w'] eqn:H.
  rewrite send_frame_eq in H. apply send_frame_loop_spec in H.
  destruct H as (_ & _ & _ & t & Ht & Hw & _).
  exists t. split; [assumption |]. now apply writes_of_written in Hw.
Qed.

Lemma writes_only_weaken (P Q : bytes -> Prop) (m : M unit) (w : world) :
  (forall f, P f -> Q f) -> writes_only P m w -> writes_only Q m w.
Proof.
  intros HPQ (t & Ht & Hall). exists t. split; [assumption |].
  eapply Forall_impl; eauto.
Qed.

Lemma send_start_frame_run w r w' :
  send_start_frame E w = (r, w') ->
  frame_run (with_trailer startframe) w r w'.
Proof.
  unfold send_start_frame. intros H.
  destruct (set_timeout_spec (3 # 100) w) as (w1 & H1 & Ht & Hk & _ & Hc).
  rewrite (bind_ok _ _ _ _ _ H1) in H.
  unfold log_info, emit in H. cbn [bind] in H.
  apply send_frame_run in H; [| lia].
  eapply (frame_run_after _ w _ w1 w' r); [ | | | | | exact H]; cbn;
    try reflexivity; auto.
  - now rewrite Ht.
  - reflexivity.
  - reflexivity.
Qed.

Lemma frame_run_writes (f : bytes) (m : M unit) (w : world) :
  (forall r w', m w = (r, w') -> frame_run f w r w') ->
  writes_only (eq f) m w.
Proof.
  intros H. destruct (m w) as [r w'] eqn:Hm.
  destruct (H r w' eq_refl) as (_ & _ & t & Ht & Hw & _).
  exists t. unfold writes_only. rewrite Hm. auto.
Qed.

Lemma crc_hqx_range (data : bytes) :
  Forall is_byte data -> 0 <= binascii.crc_hqx data 0 < 2 ^ 16.
Proof.
  intros H.
  replace (binascii.crc_hqx data 0) with (calc_crc data 0)
    by (rewrite calc_crc_reference, fold_flush by assumption; reflexivity).
  apply calc_crc_range.
Qed.

(** Feeding a CRC its own two bytes, high byte first, gives zero. *)
Lemma crc_hqx_step_residue (c : Z) :
  0 <= c < 2 ^ 16 ->
  fold_left binascii.crc_hqx_step (be_digits 2 c) c = 0.
Proof.
  intros Hc. cbn [be_digits app fold_left].
  assert (Hh : (c / 256) mod 256 = Z.shiftr c 8).
  { rewrite Z.shiftr_div_pow2 by lia. change (2 ^ 8) with 256.
    apply Z.mod_small. split.
    - apply Z.div_pos; lia.
    - apply Z.div_lt_upper_bound; lia. }
  rewrite Hh. unfold binascii.crc_hqx_step at 2.
  rewrite Z.lxor_nilpotent. change (nth (Z.to_nat 0) binascii.crctab_hqx 0)
    with 0. rewrite Z.lxor_0_r.
  assert (Hx : Z.land (Z.shiftl c 8) 0xff00 = Z.shiftl (c mod 256) 8).
  { rewrite <- land_0xFF_mod. change 0xff00 with (Z.shiftl 0xFF 8).
    now rewrite Z.shiftl_land. }
  rewrite Hx. unfold binascii.crc_hqx_step.
  rewrite Z.shiftr_shiftl_l, Z.sub_diag, Z.shiftl_0_r by lia.
  rewrite Z.lxor_nilpotent. change (nth (Z.to_nat 0) binascii.crctab_hqx 0)
    with 0. rewrite Z.lxor_0_r.
  apply Z.bits_inj'. intros i Hi.
  rewrite Z.shiftl_shiftl by lia.
  rewrite Z.land_spec, Z.bits_0, Z.shiftl_spec by lia.
  destruct (Z.ltb_spec i 16) as [H16 | H16].
  - now rewrite (Z.testbit_neg_r (c mod 256) (i - (8 + 8))) by lia.
  - rewrite (testbit_high 0xff00 16 i) by lia. apply andb_false_r.
Qed.

Lemma with_trailer_residue (data : bytes) :
  Forall is_byte data -> binascii.crc_hqx (with_trailer data) 0 = 0.
Proof.
  intros Hd. unfold with_trailer, binascii.crc_hqx.
  rewrite fold_left_app. fold (binascii.crc_hqx data 0).
  replace (calc_crc data 0) with (binascii.crc_hqx data 0)
    by (rewrite calc_crc_reference, fold_flush by assumption; reflexivity).
  apply crc_hqx_step_residue. now apply crc_hqx_range.
Qed.

(** X2. Whatever [send_frame] writes for a frame of bytes is that frame
    followed by two more bytes, and its CRC-16/XMODEM is zero: a receiver
    that runs the CRC over the whole frame, trailer included, gets 0. *)
Theorem written_frames_have_zero_crc (data : bytes) (loop : Z) (w : world) :
  Forall is_byte data ->
  writes_only
    (fun f => firstn (length data) f = data
              /\ len f = len data + 2
              /\ binascii.crc_hqx f 0 = 0)
    (send_frame E data loop) w.
Proof.
  intros Hd. eapply writes_only_weaken; [| apply send_frame_writes].
  intros f <-. split; [| split].
  - unfold with_trailer. now rewrite firstn_app, Nat.sub_diag, firstn_all,
      app_nil_r.
  - unfold with_trailer, len. rewrite length_app, be_digits_length. lia.
  - now apply with_trailer_residue.
Qed.

End Wire.

Lemma written_frames_have_zero_crc_witness :
  writes_only
    (fun f => firstn (length startframe) f = startframe
              /\ len f = len startframe + 2
              /\ binascii.crc_hqx f 0 = 0)
    (send_frame Scenario.healthy startframe 10000) Scenario.plugged.
Proof.
  apply written_frames_have_zero_crc.
  repeat constructor; unfold is_byte; lia.
Defined.

(** ** The header frame *)

Section Header.

Variable E : env.

Lemma to_bytes_ok (n : Z) (k : nat) :
  0 <= n < 256 ^ Z.of_nat k -> to_bytes n k = Ok (be_digits k n).
Proof.
  intros H. unfold to_bytes.
  destruct (Z.ltb_spec n 0); [lia |].
  destruct (Z.leb_spec (256 ^ Z.of_nat k) n); [lia | reflexivity].
Qed.

Lemma to_bytes_overflow (n : Z) (k : nat) :
  ~ 0 <= n < 256 ^ Z.of_nat k -> to_bytes n k = Raise OverflowError.
Proof.
  intros H. unfold to_bytes.
  destruct (Z.ltb_spec n 0); [reflexivity |].
  destruct (Z.leb_spec (256 ^ Z.of_nat k) n); [reflexivity | lia].
Qed.

(** X3. When [length] and [address] fit 32 bits, whatever
    [send_head_frame] writes is the 14-byte frame that starts with
    FE 00 FF 01 and whose bytes 4..8 and 8..12 read back, big-endian, as
    [length] and [address]; when one of them does not fit, it raises
    [OverflowError] and writes nothing. *)
Theorem head_frame_carries_length_and_address
    (length address : Z) (w : world) :
  let f := with_trailer (head_frame length address) in
  (0 <= length < 2 ^ 32 /\ 0 <= address < 2 ^ 32 ->
   len f = 14
   /\ firstn 4 f = [0xFE; 0x00; 0xFF; 0x01]
   /\ be_value (slice f 4 8) = length
   /\ be_value (slice f 8 12) = address
   /\ writes_only (eq f) (send_head_frame E length address) w)
  /\ (~ (0 <= length < 2 ^ 32 /\ 0 <= address < 2 ^ 32) ->
      fst (send_head_frame E length address w) = Raise OverflowError
      /\ writes_only (fun _ => False) (send_head_frame E length address) w).
Proof.
  intros f. split.
  - intros [Hl Ha]. split; [reflexivity |]. split; [reflexivity |].
    split; [| split].
    + change (slice f 4 8) with (be_digits 4 length).
      rewrite be_value_be_digits. apply Z.mod_small.
      change (256 ^ Z.of_nat 4) with (2 ^ 32). lia.
    + change (slice f 8 12) with (be_digits 4 address).
      rewrite be_value_be_digits. apply Z.mod_small.
      change (256 ^ Z.of_nat 4) with (2 ^ 32). lia.
    + apply frame_run_writes. intros r w' H.
      now apply send_head_frame_run in H.
  - intros Hbad. unfold writes_only, send_head_frame.
    destruct (set_timeout_spec (9 # 100) w) as (w1 & H1 & Ht & _).
    rewrite (bind_ok _ _ _ _ _ H1).
    unfold log_info, emit. cbn [bind].
    set (w2 := add_event (Log INFO "Sending header frame" TOOLNAME) w1).
    assert (Hw2 : trace w2
                  = trace w ++ [Log INFO "Sending header frame" TOOLNAME])
      by (cbn; now rewrite Ht).
    destruct (Z_lt_dec length 0) as [Hl0 | Hl0];
      [| destruct (Z_le_dec (2 ^ 32) length) as [Hl1 | Hl1]].
    + unfold bind, lift. rewrite to_bytes_overflow by lia. cbn.
      split; [reflexivity |]. eexists. split; [exact Hw2 | constructor].
    + unfold bind, lift. rewrite to_bytes_overflow
        by (change (256 ^ Z.of_nat 4) with (2 ^ 32); lia). cbn.
      split; [reflexivity |]. eexists. split; [exact Hw2 | constructor].
    + unfold bind at 1, lift at 1. rewrite to_bytes_ok
        by (change (256 ^ Z.of_nat 4) with (2 ^ 32); lia).
      unfold bind, lift. rewrite to_bytes_overflow
        by (change (256 ^ Z.of_nat 4) with (2 ^ 32); lia). cbn.
      split; [reflexivity |]. eexists. split; [exact Hw2 | constructor].
Qed.

End Header.

Lemma head_frame_carries_length_and_address_witness :
  be_value (slice (with_trailer (head_frame 2500 0x00100000)) 4 8) = 2500
  /\ be_value (slice (with_trailer (head_frame 2500 0x00100000)) 8 12)
     = 0x00100000
  /\ fst (send_head_frame Scenario.healthy (2 ^ 32) 0 Scenario.plugged)
     = Raise OverflowError.
Proof.
  pose proof (head_frame_carries_length_and_address Scenario.healthy
                2500 0x00100000 Scenario.plugged) as [Hfit _].
  pose proof (head_frame_carries_length_and_address Scenario.healthy
                (2 ^ 32) 0 Scenario.plugged) as [_ Hbad].
  destruct Hfit as (_ & _ & Hl & Ha & _); [lia |].
  destruct Hbad as [Hr _]; [lia |].
  auto.
Defined.

(** ** Bytes, timeouts and retries *)

Section FrameMethods.

Variable E : env.

(** X4. Everything the four frame methods hand to [serial.write] is a
    sequence of bytes: for every integer sequence number, count, length
    and address, each element lies in 0..255, provided the payload chunk
    of a data frame does. *)
Theorem frame_methods_write_bytes
    (n length address : Z) (chunk : bytes) (w : world) :
  writes_only (Forall is_byte) (send_start_frame E) w
  /\ writes_only (Forall is_byte) (send_head_frame E length address) w
  /\ (Forall is_byte chunk ->
      writes_only (Forall is_byte) (send_data_frame E n chunk) w)
  /\ writes_only (Forall is_byte) (send_tail_frame E n) w.
Proof.
  split; [| split; [| split]].
  - eapply writes_only_weaken;
      [| apply (frame_run_writes (with_trailer startframe));
         intros r w'; apply send_start_frame_run].
    intros f <-. apply with_trailer_bytes. unfold startframe.
    repeat (constructor; [unfold is_byte; lia |]). constructor.
  - eapply writes_only_weaken;
      [| apply (frame_run_writes (with_trailer (head_frame length address)));
         intros r w' H; now apply send_head_frame_run in H].
    intros f <-. apply with_trailer_bytes. unfold head_frame.
    apply Forall_app. split;
      [| apply Forall_app; split; apply be_digits_bytes].
    change headframe with [0xFE; 0x00; 0xFF; 0x01].
    repeat (constructor; [unfold is_byte; lia |]). constructor.
  - intros Hchunk. eapply writes_only_weaken;
      [| apply (frame_run_writes (with_trailer (data_frame n chunk)));
         intros r w'; apply send_data_frame_run].
    intros f <-. apply with_trailer_bytes.
    change (data_frame n chunk)
      with (0xDA :: Z.land n 0xFF :: Z.land (Z.lnot n) 0xFF :: chunk).
    constructor; [unfold is_byte; lia |].
    constructor; [apply land_0xFF_byte |].
    constructor; [apply land_0xFF_byte | assumption].
  - eapply writes_only_weaken;
      [| apply (frame_run_writes (with_trailer (tail_frame n)));
         intros r w'; apply send_tail_frame_run].
    intros f <-. apply with_trailer_bytes.
    change (tail_frame n)
      with [0xED; Z.land n 0xFF; Z.land (Z.lnot n) 0xFF].
    constructor; [unfold is_byte; lia |].
    constructor; [apply land_0xFF_byte |].
    constructor; [apply land_0xFF_byte | constructor].
Qed.

Lemma send_frame_keeps_serial (data : bytes) (loop : Z) (w : world) :
  serial (snd (send_frame E data loop w)) = serial w.
Proof.
  destruct (send_frame E data loop w) as [r w'] eqn:H.
  rewrite send_frame_eq in H. apply send_frame_loop_spec in H. tauto.
Qed.

Lemma set_timeout_serial (q : Q) (s : Serial) (w : world) :
  serial w = Some s ->
  exists w1, set_timeout q w = (Ok tt, w1)
             /\ serial w1 = Some (with_timeout s q).
Proof.
  intros Hs. unfold set_timeout. rewrite Hs. eexists. split; reflexivity.
Qed.

(** X5. On a connected flasher each frame method leaves the read timeout
    of the handle at the value of its frame kind, 0.03 s for the start
    frame, 0.09 s for a header frame, 0.45 s for a data frame and 0.01 s
    for a tail frame, whether the send succeeds or not, and changes
    nothing else of the handle. *)
Theorem frame_methods_set_timeout
    (s : Serial) (n length address : Z) (chunk : bytes) (w : world) :
  serial w = Some s ->
  serial (snd (send_start_frame E w)) = Some (with_timeout s (3 # 100))
  /\ serial (snd (send_head_frame E length address w))
     = Some (with_timeout s (9 # 100))
  /\ serial (snd (send_data_frame E n chunk w))
     = Some (with_timeout s (45 # 100))
  /\ serial (snd (send_tail_frame E n w))
     = Some (with_timeout s (1 # 100)).
Proof.
  intros Hs. split; [| split; [| split]].
  - destruct (set_timeout_serial (3 # 100) s w Hs) as (w1 & H1 & Hs1).
    unfold send_start_frame. rewrite (bind_ok _ _ _ _ _ H1).
    unfold log_info, emit. cbn [bind]. now rewrite send_frame_keeps_serial.
  - destruct (set_timeout_serial (9 # 100) s w Hs) as (w1 & H1 & Hs1).
    unfold send_head_frame. rewrite (bind_ok _ _ _ _ _ H1).
    unfold log_info, emit. cbn [bind]. unfold bind, lift.
    destruct (to_bytes length 4); [| exact Hs1].
    destruct (to_bytes address 4); [| exact Hs1].
    now rewrite send_frame_keeps_serial.
  - destruct (set_timeout_serial (45 # 100) s w Hs) as (w1 & H1 & Hs1).
    unfold send_data_frame. rewrite (bind_ok _ _ _ _ _ H1).
    now rewrite send_frame_keeps_serial.
  - destruct (set_timeout_serial (1 # 100) s w Hs) as (w1 & H1 & Hs1).
    unfold send_tail_frame. rewrite (bind_ok _ _ _ _ _ H1).
    unfold log_info, emit. cbn [bind]. now rewrite send_frame_keeps_serial.
Qed.

(** The retry loop stops at the first attempt that goes through. *)
Lemma send_frame_loop_first_success (data : bytes) :
  forall j n fails w,
    connected w ->
    (j < n)%nat ->
    first_success E (attempts w) j ->
    exists w',
      send_frame_loop E data n fails w = (Ok tt, w')
      /\ attempts w' = (attempts w + j + 1)%nat
      /\ serial w' = serial w
      /\ exists t,
           trace w' = trace w ++ t
           /\ sent t = [data]
           /\ (length (written t) <= j + 1)%nat.
Proof.
  induction j as [| j IH]; intros n fails w Hc Hj [Hall [resp Hresp]].
  - destruct n as [| n]; [lia |]. cbn [send_frame_loop].
    destruct (serial w) as [s |] eqn:Hs; [| now destruct Hc].
    unfold attempt. rewrite Nat.add_0_r in Hresp. rewrite Hresp.
    eexists. split; [reflexivity |]. cbn.
    repeat split; [lia | assumption |].
    exists [Tx data true]. repeat split. cbn. lia.
  - destruct n as [| n]; [lia |]. cbn [send_frame_loop].
    destruct (serial w) as [s |] eqn:Hs; [| now destruct Hc].
    destruct (Hall (attempts w)) as (c & code & Ho); [lia |].
    unfold attempt. rewrite Ho.
    set (w1 := if reaches_write c
               then add_event (Tx data false) (count_attempt w)
               else count_attempt w).
    assert (Ha : attempts w1 = S (attempts w))
      by (unfold w1; now destruct (reaches_write c)).
    assert (Hs1 : serial w1 = serial w)
      by (unfold w1; now destruct (reaches_write c)).
    assert (Ht1 : exists t1, trace w1 = trace w ++ t1 /\ sent t1 = []
                             /\ (length (written t1) <= 1)%nat).
    { unfold w1. destruct (reaches_write c).
      - exists [Tx data false]. repeat split. cbn. lia.
      - exists []. cbn. rewrite app_nil_r. repeat split. lia. }
    destruct Ht1 as (t1 & Ht1 & Hsent1 & Hlen1).
    destruct (IH n (fails ++ [SerialException code]) w1)
      as (w' & Hrun & Hatt & Hser & t & Ht & Hsent & Hlen).
    + unfold connected. rewrite Hs1, Hs. discriminate.
    + lia.
    + split.
      * intros k Hk. apply Hall. lia.
      * exists resp. rewrite Ha.
        now replace (S (attempts w) + j)%nat with (attempts w + S j)%nat
          by lia.
    + exists w'. split; [exact Hrun |].
      repeat split; [lia | congruence |].
      exists (t1 ++ t). rewrite Ht, Ht1, app_assoc.
      split; [reflexivity |].
      rewrite sent_app, written_app, length_app, Hsent1, Hsent.
      split; [reflexivity | lia].
Qed.

(** X6. If attempt [j] is the first that goes through and the budget
    reaches it ([j < loop - 1]), [send_frame] returns normally after
    exactly [j + 1] attempts, the frame counts as sent once, and the
    failures before it are dropped. *)
Theorem send_frame_stops_at_first_success
    (data : bytes) (loop : Z) (w : world) (j : nat) :
  connected w ->
  (j < Z.to_nat (loop - 1))%nat ->
  first_success E (attempts w) j ->
  exists w',
    send_frame E data loop w = (Ok tt, w')
    /\ attempts w' = (attempts w + j + 1)%nat
    /\ exists t, trace w' = trace w ++ t /\ sent t = [with_trailer data].
Proof.
  intros Hc Hj Hfirst. rewrite send_frame_eq.
  destruct (send_frame_loop_first_success (with_trailer data) j
              (Z.to_nat (loop - 1)) [] w Hc Hj Hfirst)
    as (w' & Hrun & Hatt & _ & t & Ht & Hsent & _).
  exists w'. repeat split; try assumption. eauto.
Qed.

(** Within any number of attempts, either all fail or one is the first
    to go through. *)
Lemma all_fail_or_first_success (from : nat) :
  forall n,
    all_fail E from n
    \/ exists j, (j < n)%nat /\ first_success E from j.
Proof.
  induction n as [| n [IH | (j & Hj & Hfirst)]].
  - left. intros k Hk. lia.
  - destruct (attempt_outcome E (from + n)) as [resp | c code] eqn:Ho.
    + right. exists n. split; [lia |]. split; eauto.
    + left. intros k Hk. destruct (Nat.eq_dec k (from + n)%nat) as [-> | Hne].
      * eauto.
      * apply IH. lia.
  - right. exists j. split; [lia | assumption].
Qed.

Lemma send_frame_all_fail_raises (data : bytes) (loop : Z) (w : world) :
  connected w ->
  1 < loop ->
  all_fail E (attempts w) (Z.to_nat (loop - 1)) ->
  exists e, fst (send_frame E data loop w) = Raise e.
Proof.
  intros Hc Hloop Hall. rewrite send_frame_eq.
  destruct (Z.to_nat (loop - 1)) as [| n] eqn:Hn; [lia |].
  destruct (Hall (attempts w)) as (c & code & Ho); [lia |].
  exists (SerialException code). cbn [send_frame_loop].
  destruct (serial w) as [s |] eqn:Hs; [| now destruct Hc].
  unfold attempt. rewrite Ho. cbn [app].
  set (w1 := if reaches_write c
             then add_event (Tx (with_trailer data) false) (count_attempt w)
             else count_attempt w).
  assert (Ha : attempts w1 = S (attempts w))
    by (unfold w1; now destruct (reaches_write c)).
  assert (Hc1 : connected w1).
  { unfold connected, w1. destruct (reaches_write c); cbn; congruence. }
  eapply send_frame_loop_all_fail; [exact Hc1 | | reflexivity].
  intros k Hk. apply Hall. lia.
Qed.

(** X7. [send_frame] returns normally exactly when the flasher is not
    connected, or the budget is 1 or less (no attempt is made), or one of
    the [loop - 1] attempts goes through. *)
Theorem send_frame_returns_iff (data : bytes) (loop : Z) (w : world) :
  fst (send_frame E data loop w) = Ok tt
  <-> serial w = None
      \/ loop <= 1
      \/ exists j response,
           (j < Z.to_nat (loop - 1))%nat
           /\ attempt_outcome E (attempts w + j) = Returns response.
Proof.
  split.
  - intros Hok.
    destruct (serial w) as [s |] eqn:Hs; [| now left].
    destruct (Z_le_dec loop 1) as [Hle | Hgt]; [now right; left |].
    right. right.
    assert (Hc : connected w) by (unfold connected; congruence).
    destruct (all_fail_or_first_success (attempts w) (Z.to_nat (loop - 1)))
      as [Hall | (j & Hj & _ & resp & Hresp)].
    + destruct (send_frame_all_fail_raises data loop w Hc ltac:(lia) Hall)
        as [e He].
      congruence.
    + eauto.
  - intros [Hnone | [Hle | (j & resp & Hj & Hresp)]].
    + rewrite send_frame_eq.
      destruct (Z.to_nat (loop - 1)); cbn [send_frame_loop];
        [reflexivity | now rewrite Hnone].
    + rewrite send_frame_eq.
      now replace (Z.to_nat (loop - 1)) with 0%nat by lia.
    + destruct (serial w) as [s |] eqn:Hs.
      * assert (Hc : connected w) by (unfold connected; congruence).
        destruct (all_fail_or_first_success (attempts w)
                    (Z.to_nat (loop - 1)))
          as [Hall | (j' & Hj' & Hfirst)].
        -- destruct (Hall (attempts w + j)%nat) as (c & code & Ho); [lia |].
           congruence.
        -- rewrite send_frame_eq.
           destruct (send_frame_loop_first_success (with_trailer data) j'
                       (Z.to_nat (loop - 1)) [] w Hc Hj' Hfirst)
             as (w' & Hrun & _).
           now rewrite Hrun.
      * rewrite send_frame_eq.
        destruct (Z.to_nat (loop - 1)); cbn [send_frame_loop];
          [reflexivity | now rewrite Hs].
Qed.

End FrameMethods.
Lemma frame_methods_write_bytes_witness :
  writes_only (Forall is_byte)
    (send_data_frame Scenario.healthy 1 [0x5A; 0xA5]) Scenario.plugged.
Proof.
  apply (frame_methods_write_bytes Scenario.healthy 1 0 0 [0x5A; 0xA5]
           Scenario.plugged).
  repeat (constructor; [unfold is_byte; lia |]). constructor.
Defined.

Lemma frame_methods_set_timeout_witness :
  serial (snd (send_data_frame Scenario.dead_link 1 Scenario.payload
                 Scenario.plugged))
  = Some (with_timeout (fresh_handle "/dev/ttyUSB0") (45 # 100)).
Proof.
  apply (frame_methods_set_timeout Scenario.dead_link
           (fresh_handle "/dev/ttyUSB0") 1 0 0 Scenario.payload
           Scenario.plugged eq_refl).
Defined.

Lemma send_frame_stops_at_first_success_witness :
  exists w',
    send_frame
      (Scenario.make_env
         (fun k => if (k <? 2)%nat then Raises serial_read 7 else Returns ack)
         Scenario.steady_clock [Scenario.idt_port] Scenario.both_roles)
      startframe 10 Scenario.plugged
    = (Ok tt, w')
    /\ attempts w' = 3%nat
    /\ exists t,
         trace w' = trace Scenario.plugged ++ t
         /\ sent t = [with_trailer startframe].
Proof.
  apply (send_frame_stops_at_first_success _ startframe 10 Scenario.plugged 2).
  - discriminate.
  - cbn. lia.
  - split.
    + intros k Hk. cbn in Hk. exists serial_read, 7.
      destruct k as [| [| k]]; [reflexivity | reflexivity | lia].
    + exists ack. reflexivity.
Defined.

Lemma send_frame_returns_iff_witness :
  fst (send_frame Scenario.healthy startframe 1 Scenario.plugged) = Ok tt
  /\ fst (send_frame Scenario.healthy startframe 10 Scenario.fresh) = Ok tt
  /\ fst (send_frame Scenario.dead_link startframe 10 Scenario.plugged)
     <> Ok tt.
Proof.
  split; [| split].
  - apply send_frame_returns_iff. right. left. lia.
  - apply send_frame_returns_iff. left. reflexivity.
  - intros H. apply send_frame_returns_iff in H.
    destruct H as [H | [H | (j & resp & _ & H)]]; [discriminate | lia |].
    discriminate.
Defined.

(** ** The acknowledgement byte *)

Section Acknowledgement.

Variables E1 E2 : env.
Hypothesis Hsame : same_failures E1 E2.

Lemma send_frame_loop_ignores_response (data : bytes) :
  forall n fails w,
    send_frame_loop E1 data n fails w = send_frame_loop E2 data n fails w.
Proof.
  induction n as [| n IH]; intros fails w; cbn [send_frame_loop];
    [reflexivity |].
  destruct (serial w); [| reflexivity].
  unfold attempt. pose proof (Hsame (attempts w)) as Hk.
  destruct (attempt_outcome E1 (attempts w)) as [r1 | c1 code1],
    (attempt_outcome E2 (attempts w)) as [r2 | c2 code2];
    try contradiction.
  - reflexivity.
  - destruct Hk as [-> ->]. apply IH.
Qed.

(** X8. [send_frame] never looks at the byte it reads back: in two runs
    that differ only in what the device answers to the attempts that go
    through (any bytes, or none at all), it returns the same result and
    leaves the same world. *)
Theorem send_frame_ignores_response (data : bytes) (loop : Z) (w : world) :
  send_frame E1 data loop w = send_frame E2 data loop w.
Proof.
  rewrite !send_frame_eq. apply send_frame_loop_ignores_response.
Qed.

End Acknowledgement.

Lemma send_frame_ignores_response_witness :
  send_frame Scenario.healthy startframe 10 Scenario.plugged
  = send_frame
      (Scenario.make_env (fun _ => Returns [])
         Scenario.steady_clock [Scenario.idt_port] Scenario.both_roles)
      startframe 10 Scenario.plugged.
Proof.
  apply send_frame_ignores_response. intros k. exact I.
Defined.

(** ** The payload arrives intact *)

Section Payload.

Variable E : env.

Lemma frame_payload_data_frame (n : Z) (chunk : bytes) :
  frame_payload (with_trailer (data_frame n chunk)) = chunk.
Proof.
  unfold frame_payload, with_trailer.
  change (data_frame n chunk)
    with ([0xDA; Z.land n 0xFF; Z.land (Z.lnot n) 0xFF] ++ chunk).
  rewrite <- app_assoc, !length_app, be_digits_length.
  cbn [length]. rewrite drop_app_length'; [| reflexivity].
  replace (3 + (length chunk + 2) - 5)%nat with (length chunk) by lia.
  apply take_app_length.
Qed.

Lemma slice_app {A} (l : list A) (a b c : Z) :
  0 <= a <= b -> b <= c -> slice l a b ++ slice l b c = slice l a c.
Proof.
  intros Hab Hbc. unfold slice.
  replace (Z.to_nat b) with (Z.to_nat a + Z.to_nat (b - a))%nat by lia.
  rewrite <- drop_drop, take_take_drop. f_equal. lia.
Qed.

Lemma slice_all {A} (l : list A) (hi : Z) :
  len l <= hi -> slice l 0 hi = l.
Proof.
  intros H. unfold slice. cbn [Z.to_nat skipn].
  apply take_ge. unfold len in H. lia.
Qed.

Lemma slice_length {A} (l : list A) (a b : Z) :
  0 <= a <= b -> len (slice l a b) = Z.max 0 (Z.min (b - a) (len l - a)).
Proof.
  intros H. unfold slice, len. rewrite length_take, length_drop. lia.
Qed.

(** The chunks [xupload] cuts for the sequence numbers [lo .. hi - 1] are
    the payload between their offsets. *)
Lemma concat_chunks (data : bytes) (hi : Z) :
  forall lo,
    1 <= lo <= hi ->
    concat (map (fun seq => slice data ((seq - 1) * MAX_DATA_LEN)
                              (seq * MAX_DATA_LEN))
              (range lo hi))
    = slice data ((lo - 1) * MAX_DATA_LEN) ((hi - 1) * MAX_DATA_LEN).
Proof.
  intros lo. pattern lo. apply (range_ind hi); clear lo.
  - intros lo Hge Hlo. rewrite range_nil by assumption.
    replace lo with hi by lia. unfold slice.
    now rewrite Z.sub_diag.
  - intros lo Hlt IH Hlo. rewrite range_cons by assumption.
    cbn [map concat]. rewrite IH by lia.
    replace (lo + 1 - 1) with lo by lia.
    apply slice_app; unfold MAX_DATA_LEN; lia.
Qed.

Lemma payload_of_data_frames (data : bytes) (seqs : list Z) :
  map frame_payload (xupload_data_frames data seqs)
  = map (fun seq => slice data ((seq - 1) * MAX_DATA_LEN)
                      (seq * MAX_DATA_LEN)) seqs.
Proof.
  unfold xupload_data_frames. rewrite map_map. apply map_ext.
  intros seq. apply frame_payload_data_frame.
Qed.

(** X9. After an [xupload] that returns normally, the payload bytes of the
    data frames sent, put end to end, are exactly the image: nothing is
    lost, repeated or reordered.  Every data frame carries between 1 and
    1024 payload bytes, and the frames are numbered 1, 2, 3, ... in their
    sequence byte, modulo 256. *)
Theorem xupload_delivers_payload
    (address : Z) (data : bytes) (length : Z) (w w' : world) :
  xupload E address data length w = (Ok tt, w') ->
  exists t,
    trace w' = trace w ++ t
    /\ payload_sent t = data
    /\ Forall (fun f => 1 <= len (frame_payload f) <= 1024)
         (List.filter is_data_frame (sent t))
    /\ map seq_byte (List.filter is_data_frame (sent t))
       = map (fun k => k mod 256)
           (range 1 (len (List.filter is_data_frame (sent t)) + 1)).
Proof.
  intros H. apply xupload_spec in H.
  destruct H as (t & Ht & _ & _ & Hpos & Hs).
  exists t. split; [assumption |].
  set (nf := nframes_of (len data)) in *.
  pose proof (nframes_of_ceil (len data) Hpos) as Hceil. fold nf in Hceil.
  unfold is_ceil_div, MAX_DATA_LEN in Hceil.
  assert (Hdfs : List.filter is_data_frame (sent t)
                 = xupload_data_frames data (range 1 (nf + 1))).
  { rewrite Hs. apply filter_data_shape;
      [reflexivity | reflexivity | apply data_frames_all_data]. }
  unfold payload_sent. rewrite Hdfs. split; [| split].
  - rewrite payload_of_data_frames, concat_chunks by lia.
    replace (nf + 1 - 1) with nf by lia.
    change ((1 - 1) * MAX_DATA_LEN) with 0.
    apply slice_all. unfold MAX_DATA_LEN. lia.
  - unfold xupload_data_frames. apply Forall_map, Forall_forall.
    intros seq Hin. rewrite frame_payload_data_frame.
    apply list_elem_of_In in Hin.
    unfold range in Hin. apply in_map_iff in Hin.
    destruct Hin as (i & <- & Hi). apply in_seq in Hi.
    rewrite slice_length by (unfold MAX_DATA_LEN; lia).
    unfold MAX_DATA_LEN. lia.
  - rewrite data_frames_length, range_length.
    replace (Z.max 0 (nf + 1 - 1) + 1) with (nf + 1) by lia.
    unfold xupload_data_frames. rewrite map_map. apply map_ext.
    intros seq. apply land_0xFF_mod.
Qed.

End Payload.

Lemma xupload_delivers_payload_witness :
  exists t,
    trace (snd (xupload Scenario.healthy 0x00100000 Scenario.payload 2500
                  Scenario.plugged))
    = trace Scenario.plugged ++ t
    /\ payload_sent t = Scenario.payload
    /\ Forall (fun f => 1 <= len (frame_payload f) <= 1024)
         (List.filter is_data_frame (sent t))
    /\ map seq_byte (List.filter is_data_frame (sent t))
       = map (fun k => k mod 256)
           (range 1 (len (List.filter is_data_frame (sent t)) + 1)).
Proof.
  apply (xupload_delivers_payload Scenario.healthy 0x00100000
           Scenario.payload 2500).
  vm_compute. reflexivity.
Defined.

(** ** The payload of send_data *)

Section SendDataPayload.

Variable E : env.

Lemma bind_ok_inv {A B} (m : M A) (k : A -> M B) w v w' :
  bind m k w = (Ok v, w') ->
  exists a w1, m w = (Ok a, w1) /\ k a w1 = (Ok v, w').
Proof.
  intros H. apply bind_inv in H.
  destruct H as [H | (e & _ & He)]; [exact H | discriminate].
Qed.

(** One iteration that goes through sends the next chunk and moves the
    source on. *)
Lemma send_data_body_chunk (nframes : Z) (start_time : PrimFloat.float)
    (n : Z) (st st' : send_data_locals) w w' :
  connected w ->
  send_data_body E nframes start_time n st w = (Ok st', w') ->
  exists t,
    trace w' = trace w ++ t
    /\ sent t
       = [with_trailer (data_frame (n + 1) (fst (next_chunk (loc_data st) n)))]
    /\ loc_data st' = snd (next_chunk (loc_data st) n).
Proof.
  intros Hc H. unfold send_data_body in H.
  unfold bind at 1 in H. unfold now at 1 in H.
  destruct (PrimFloat.ltb _ _); [discriminate |].
  change (match loc_data st with
          | Bytes b =>
              (slice b (n * MAX_DATA_LEN) ((n + 1) * MAX_DATA_LEN), Bytes b)
          | File unread =>
              (firstn (Z.to_nat MAX_DATA_LEN) unread,
               File (skipn (Z.to_nat MAX_DATA_LEN) unread))
          end) with (next_chunk (loc_data st) n) in H.
  destruct (next_chunk (loc_data st) n) as [chunk rest]. cbn [fst snd].
  apply bind_ok_inv in H. destruct H as (u & w1 & Hsend & H).
  apply send_data_frame_run in Hsend.
  destruct Hsend as (_ & _ & t & Ht & _ & _ & Hr & _).
  specialize (Hr Hc). cbv beta zeta in H.
  destruct ((100 * (n + 1)) / nframes >? loc_last_percent st);
    cbv [bind print emit ret] in H; injection H as <- <-.
  - eexists. cbn [trace add_event]. rewrite Ht, <- app_assoc.
    split; [reflexivity |]. rewrite sent_app, Hr. split; reflexivity.
  - exists t. repeat split; assumption.
Qed.

Lemma pending_step (data : source) (lo hi : Z) :
  0 <= lo < hi ->
  fst (next_chunk data lo) ++ pending (snd (next_chunk data lo)) (lo + 1) hi
  = pending data lo hi.
Proof.
  intros H. destruct data as [b | unread]; cbn [next_chunk pending fst snd].
  - apply slice_app; unfold MAX_DATA_LEN; lia.
  - rewrite take_take_drop. f_equal. unfold MAX_DATA_LEN. lia.
Qed.

Lemma send_data_loop_payload (nframes : Z) (start_time : PrimFloat.float)
    (hi : Z) :
  forall lo st w st' w',
    0 <= lo <= hi ->
    connected w ->
    for_each (range lo hi) (send_data_body E nframes start_time) st w
    = (Ok st', w') ->
    exists t,
      trace w' = trace w ++ t
      /\ concat (map frame_payload (sent t)) = pending (loc_data st) lo hi.
Proof.
  intros lo. pattern lo. apply (range_ind hi); clear lo.
  - intros lo Hge st w st' w' Hlo Hc H.
    rewrite range_nil in H by assumption. cbv [for_each ret] in H.
    injection H as <- <-. exists []. rewrite app_nil_r.
    split; [reflexivity |]. replace lo with hi by lia.
    destruct (loc_data st); cbn [pending sent map concat]; unfold slice;
      now rewrite Z.sub_diag.
  - intros lo Hlt IH st w st' w' Hlo Hc H.
    rewrite range_cons in H by assumption. cbn [for_each] in H.
    apply bind_ok_inv in H. destruct H as (st1 & w1 & Hbody & H).
    pose proof Hbody as Hbody'.
    apply send_data_body_spec in Hbody'; [| assumption].
    destruct Hbody' as (Hc1 & _).
    apply send_data_body_chunk in Hbody; [| assumption].
    destruct Hbody as (t1 & Ht1 & Hs1 & Hd1).
    apply IH in H; [| lia | assumption].
    destruct H as (t2 & Ht2 & Hp2).
    exists (t1 ++ t2). rewrite Ht2, Ht1, app_assoc.
    split; [reflexivity |].
    rewrite sent_app, Hs1. cbn [app map concat].
    rewrite frame_payload_data_frame, Hp2, Hd1.
    apply pending_step. lia.
Qed.

(** What the iterations of a [send_data] that returns normally take from
    the source is what its data frames carry. *)
Lemma send_data_payload_pending
    (data : source) (length address : Z) (w w' : world) :
  connected w ->
  send_data E data length address w = (Ok tt, w') ->
  0 < payload_length data length
  /\ exists t,
       trace w' = trace w ++ t
       /\ payload_sent t
          = pending data 0 (nframes_of (payload_length data length)).
Proof.
  intros Hc H. unfold send_data in H. cbv zeta in H.
  change (match data with Bytes b => len b | File _ => length end)
    with (payload_length data length) in H.
  set (L := payload_length data length) in *.
  destruct (Z.eqb_spec L 0) as [H0 | H0]; [discriminate |].
  apply bind_ok_inv in H. destruct H as (u1 & w1 & Hhead & H).
  apply send_head_frame_run in Hhead.
  destruct Hhead as [(Hc1 & _ & t1 & Ht1 & _ & _ & Hs1 & _) Hfit].
  specialize (Hs1 Hc).
  assert (Hpos : 0 < L) by (destruct u1, (Hfit eq_refl) as [HL _]; lia).
  pose proof (nframes_of_pos L Hpos) as Hnf.
  unfold bind at 1 in H. unfold now at 1 in H.
  apply bind_ok_inv in H. destruct H as (st & w2 & Hloop & H).
  assert (Hc1' : connected (count_clock_read w1)) by now apply Hc1.
  pose proof Hloop as Hloop'.
  apply send_data_loop_spec in Hloop'; [| assumption].
  destruct Hloop' as (Hc2 & t2 & Ht2 & _ & Hall2 & _ & Hlast & _).
  apply send_data_loop_payload in Hloop; [| lia | assumption].
  destruct Hloop as (t2' & Ht2' & Hp2).
  assert (t2' = t2) by (rewrite Ht2 in Ht2'; now apply app_inv_head in Ht2').
  subst t2'. cbn [trace count_clock_read loc_data] in Ht2, Hp2.
  rewrite (Hlast Hnf) in H.
  cbv [bind print emit] in H. cbv beta iota in H.
  destruct (send_tail_frame E (nframes_of L - 1 + 1)
              (add_event (Print "\nUpload complete!" []) w2))
    as [[u3 | e] w3] eqn:Htail; [| discriminate].
  apply send_tail_frame_run in Htail.
  destruct Htail as (_ & _ & t3 & Ht3 & _ & _ & Hs3 & _).
  assert (Hs3' : sent t3 = [with_trailer (tail_frame (nframes_of L - 1 + 1))])
    by (apply Hs3; unfold connected in *; cbn; exact Hc2).
  cbn [trace add_event] in Ht3.
  cbv [sleep emit] in H. injection H as <-.
  split; [exact Hpos |].
  eexists. cbn [trace add_event].
  rewrite Ht3, Ht2, Ht1, <- !app_assoc. split; [reflexivity |].
  unfold payload_sent. rewrite !sent_app, Hs1, Hs3'. cbn [sent app].
  rewrite filter_data_shape by (reflexivity || assumption).
  exact Hp2.
Qed.

(** X10. After a [send_data] that returns normally on a connected
    flasher, the payload bytes of the data frames sent, put end to end,
    are the [bytes] object it was given; for a file, they are what
    [ceil(length / 1024)] reads of 1024 bytes take from it, the whole file
    when [length] is its size. *)
Theorem send_data_delivers_payload
    (data : source) (length address : Z) (w w' : world) :
  connected w ->
  send_data E data length address w = (Ok tt, w') ->
  exists t,
    trace w' = trace w ++ t
    /\ payload_sent t
       = match data with
         | Bytes b => b
         | File unread =>
             firstn (Z.to_nat (nframes_of length * MAX_DATA_LEN)) unread
         end.
Proof.
  intros Hc H. apply send_data_payload_pending in H; [| assumption].
  destruct H as (Hpos & t & Ht & Hp). exists t. split; [assumption |].
  rewrite Hp.
  destruct data as [b | unread]; cbn [pending payload_length] in *.
  - change (0 * MAX_DATA_LEN) with 0. apply slice_all.
    pose proof (nframes_of_ceil (len b) Hpos) as Hceil.
    unfold is_ceil_div in Hceil. lia.
  - now rewrite Z.sub_0_r.
Qed.

(** X11. [download_from_disk] raises [FileNotFoundError] and does nothing
    else when the file is missing; when it returns normally on a
    connected flasher, the data frames sent carry the whole file, byte
    for byte. *)
Theorem download_from_disk_sends_the_file
    (fil : string) (address : Z) (w : world) :
  (file_contents E fil = None ->
   download_from_disk E fil address w = (Raise (FileNotFoundError fil), w))
  /\ (forall content w',
        file_contents E fil = Some content ->
        connected w ->
        download_from_disk E fil address w = (Ok tt, w') ->
        exists t, trace w' = trace w ++ t /\ payload_sent t = content).
Proof.
  unfold download_from_disk. split.
  - now intros ->.
  - intros content w' -> Hc H.
    apply send_data_payload_pending in H; [| assumption].
    destruct H as (Hlen & t & Ht & Hp). exists t. split; [assumption |].
    rewrite Hp. cbn [pending payload_length] in *. apply take_ge.
    pose proof (nframes_of_ceil (len content) Hlen) as Hceil.
    unfold is_ceil_div in Hceil. unfold len in *. lia.
Qed.

End SendDataPayload.

Lemma send_data_delivers_payload_witness :
  exists t,
    trace (snd (send_data Scenario.healthy (Bytes Scenario.payload) 0
                  0x00100000 Scenario.plugged))
    = trace Scenario.plugged ++ t
    /\ payload_sent t = Scenario.payload.
Proof.
  apply (send_data_delivers_payload Scenario.healthy (Bytes Scenario.payload)
           0 0x00100000 Scenario.plugged).
  - discriminate.
  - vm_compute. reflexivity.
Defined.

Lemma download_from_disk_sends_the_file_witness :
  exists t,
    trace (snd (download_from_disk Scenario.healthy
                  "loaders/hisi960/xloader.img" 0x00100000 Scenario.plugged))
    = trace Scenario.plugged ++ t
    /\ payload_sent t = Scenario.payload.
Proof.
  apply (proj2 (download_from_disk_sends_the_file Scenario.healthy
                  "loaders/hisi960/xloader.img" 0x00100000 Scenario.plugged)
           Scenario.payload).
  - reflexivity.
  - discriminate.
  - vm_compute. reflexivity.
Defined.

(** ** Sessions *)

Section Sessions.

Variable E : env.



Lemma steady_lift {A} (x : result A) : steady (lift x).
Proof.
  intros w r w' H. injection H as <- <-. split; [auto |].
  exists []. now rewrite app_nil_r.
Qed.














(** [connect_serial] writes nothing, and the opening of the port is the
    last thing it does. *)
Lemma connect_serial_opens_last (explicit : option string) w r w' :
  connect_serial E explicit w = (r, w') ->
  exists t,
    trace w' = trace w ++ t
    /\ match r with
       | Ok _ =>
           connected w'
           /\ exists pre p,
                t = pre ++ [SerialOpen p]
                /\ written pre = [] /\ opened pre = []
       | Raise e => written t = [] /\ opened t = [] /\ serial w' = serial w
       end.
Proof.
  unfold connect_serial. intros H. apply bind_inv in H.
  destruct H as [(dev & w1 & Hsel & H) | (e & Hsel & ->)].
  - assert (Hw1 : exists t0, trace w1 = trace w ++ t0 /\ written t0 = []
                    /\ opened t0 = [] /\ serial w1 = serial w).
    { destruct explicit as [d |].
      - injection Hsel as <- <-. exists []. now rewrite app_nil_r.
      - destruct (bool_decide _); [discriminate |].
        destruct (_ >? 1); [discriminate |].
        destruct (_ !! 0%nat) as [p |]; [| discriminate].
        cbv [bind log_warning emit ret] in Hsel. injection Hsel as <- <-.
        eexists. cbn [trace add_event]. repeat split. }
    destruct Hw1 as (t0 & Ht0 & Hwr0 & Hop0 & Hs0).
    unfold open_serial in H.
    destruct (serial_Serial E _) as [code |].
    + injection H as <- <-. exists t0. repeat split; assumption.
    + injection H as <- <-. eexists. cbn [trace add_event set_serial].
      rewrite Ht0, <- app_assoc. split; [reflexivity |].
      split; [discriminate |]. eauto.
  - destruct explicit as [d |]; [discriminate |].
    destruct (bool_decide _).
    { injection Hsel as <- <-. exists []. now rewrite app_nil_r. }
    destruct (_ >? 1).
    { injection Hsel as <- <-. exists []. now rewrite app_nil_r. }
    destruct (_ !! 0%nat) as [p |].
    + cbv [bind log_warning emit ret] in Hsel. discriminate.
    + injection Hsel as <- <-. exists []. now rewrite app_nil_r.
Qed.





End Sessions.

(** ** The download wrapper *)

Section DownloadWrapper.

Variable E : env.
Variable str : exn -> string.



End DownloadWrapper.

(** ** The order of the uploads of main *)

Section UploadOrder.

Variable E : env.

Lemma xupload_no_KeyError (address : Z) (data : bytes) (length : Z) w e w' :
  xupload E address data length w = (Raise e, w') -> not_a_KeyError e.
Proof.
  intros H key ->. apply xupload_spec in H.
  destruct H as (t & _ & _ & [(msg & Hm & _) | [[Hf | (code & Hf)] _]]);
    discriminate.
Qed.

(** One upload of a role: its frames when it goes through; a [KeyError]
    only for the role itself, when the role table lacks it, before
    anything is done. *)
Lemma upload_role_spec (roles : gmap string Z) (loaders_dir role : string)
    w r w' :
  upload_role E roles loaders_dir role w = (r, w') ->
  exists t,
    trace w' = trace w ++ t
    /\ match r with
       | Ok _ =>
           is_Some (roles !! role)
           /\ is_Some (file_contents E
                         (loaders_dir +:+ "/" +:+ role +:+ ".img"))
           /\ sent t = role_frames E roles loaders_dir role
       | Raise e =>
           (e = KeyError role /\ roles !! role = None /\ t = [])
           \/ not_a_KeyError e
       end.
Proof.
  unfold upload_role, role_frames, getitem, read_file, getsize. intros H.
  destruct (roles !! role) as [a |] eqn:Hrole.
  2: { injection H as <- <-. exists []. rewrite app_nil_r.
       split; [reflexivity |]. left. auto. }
  unfold bind at 1 in H. unfold ret at 1 in H.
  destruct (file_contents E _) as [d |] eqn:Hfile.
  2: { injection H as <- <-. exists []. rewrite app_nil_r.
       split; [reflexivity |]. right. intros key. discriminate. }
  unfold bind at 1 in H. unfold ret at 1 in H.
  unfold bind at 1 in H. unfold ret at 1 in H.
  destruct r as [u | e].
  - destruct u. apply xupload_spec in H.
    destruct H as (t & Ht & _ & _ & _ & Hs).
    exists t. split; [assumption |].
    split; [eauto |]. split; [eauto |]. exact Hs.
  - pose proof (xupload_no_KeyError _ _ _ _ _ _ H) as Hno.
    apply xupload_spec in H. destruct H as (t & Ht & _).
    exists t. split; [assumption |]. now right.
Qed.

(** The uploads of [main], once connected. *)
Lemma upload_stage_spec (roles : gmap string Z) (loaders_dir : string)
    w r w' :
  connected w ->
  (print "[INFO] Uploading xloader..." [] ;;
   upload_role E roles loaders_dir "xloader" ;;
   match roles !! "uce" with
   | Some _ =>
       print "[INFO] Uploading uce..." [] ;;
       upload_role E roles loaders_dir "uce"
   | None => ret tt
   end ;;
   print "[INFO] Uploading fastboot..." [] ;;
   upload_role E roles loaders_dir "fastboot") w = (r, w') ->
  exists t,
    trace w' = trace w ++ t
    /\ match r with
       | Ok _ =>
           (is_Some (roles !! "xloader")
            /\ is_Some (file_contents E (loaders_dir +:+ "/xloader.img")))
           /\ (is_Some (roles !! "fastboot")
               /\ is_Some (file_contents E (loaders_dir +:+ "/fastboot.img")))
           /\ sent t
              = role_frames E roles loaders_dir "xloader"
                ++ role_frames E roles loaders_dir "uce"
                ++ role_frames E roles loaders_dir "fastboot"
       | Raise e =>
           e = KeyError "fastboot" ->
           roles !! "fastboot" = None
           /\ (is_Some (roles !! "xloader")
               /\ is_Some (file_contents E (loaders_dir +:+ "/xloader.img")))
           /\ sent t
              = role_frames E roles loaders_dir "xloader"
                ++ role_frames E roles loaders_dir "uce"
       end.
Proof.
  intros Hc H.
  unfold bind at 1 in H. unfold print at 1, emit at 1 in H.
  set (p1 := Print "[INFO] Uploading xloader..." []) in H.
  apply bind_inv in H.
  destruct H as [(u1 & w1 & Hx & H) | (e & Hx & ->)];
    apply upload_role_spec in Hx; destruct Hx as (t1 & Ht1 & Hr1);
    cbn [trace add_event] in Ht1.
  2: { exists ([p1] ++ t1). split; [now rewrite Ht1, <- app_assoc |].
       intros ->. destruct Hr1 as [(Hk & _) | Hno];
         [discriminate | now destruct (Hno "fastboot")]. }
  destruct Hr1 as (Hxl & Hxf & Hs1).
  assert (Hx : is_Some (roles !! "xloader")
               /\ is_Some (file_contents E (loaders_dir +:+ "/xloader.img")))
    by (split; assumption).
  clear Hxl Hxf.
  apply bind_inv in H.
  assert (Huce : forall r2 w2,
             match roles !! "uce" with
             | Some _ =>
                 print "[INFO] Uploading uce..." [] ;;
                 upload_role E roles loaders_dir "uce"
             | None => ret tt
             end w1 = (r2, w2) ->
             exists t2,
               trace w2 = trace w1 ++ t2
               /\ match r2 with
                  | Ok _ => sent t2 = role_frames E roles loaders_dir "uce"
                  | Raise e => not_a_KeyError e
                  end).
  { intros r2 w2 H2. destruct (roles !! "uce") as [au |] eqn:Hu.
    - unfold bind at 1 in H2. unfold print at 1, emit at 1 in H2.
      apply upload_role_spec in H2. destruct H2 as (t2 & Ht2 & Hr2).
      cbn [trace add_event] in Ht2.
      exists ([Print "[INFO] Uploading uce..." []] ++ t2).
      split; [now rewrite Ht2, <- app_assoc |].
      destruct r2 as [u | e].
      + rewrite sent_app. cbn [sent app]. tauto.
      + destruct Hr2 as [(_ & Hnone & _) | Hno]; [congruence | assumption].
    - injection H2 as <- <-. exists []. rewrite app_nil_r.
      split; [reflexivity |]. unfold role_frames. now rewrite Hu. }
  destruct H as [(u2 & w2 & Hu & H) | (e & Hu & ->)];
    apply Huce in Hu; destruct Hu as (t2 & Ht2 & Hr2).
  2: { exists (([p1] ++ t1) ++ t2).
       split; [now rewrite Ht2, Ht1, <- !app_assoc |].
       intros ->. now destruct (Hr2 "fastboot"). }
  unfold bind at 1 in H. unfold print at 1, emit at 1 in H.
  set (p3 := Print "[INFO] Uploading fastboot..." []) in H.
  apply upload_role_spec in H. destruct H as (t3 & Ht3 & Hr3).
  cbn [trace add_event] in Ht3.
  exists ((([p1] ++ t1) ++ t2) ++ [p3] ++ t3).
  split; [now rewrite Ht3, Ht2, Ht1, <- !app_assoc |].
  assert (Hs12 : sent (([p1] ++ t1) ++ t2)
                 = role_frames E roles loaders_dir "xloader"
                   ++ role_frames E roles loaders_dir "uce").
  { rewrite !sent_app, Hs1, Hr2. reflexivity. }
  destruct r as [u | e].
  - destruct Hr3 as (Hfb & Hff & Hs3).
    split; [assumption |]. split; [split; assumption |].
    rewrite sent_app, Hs12, sent_app, Hs3. cbn [sent app].
    now rewrite <- app_assoc.
  - intros ->. destruct Hr3 as [(_ & Hnone & ->) | Hno];
      [| now destruct (Hno "fastboot")].
    split; [assumption |]. split; [assumption |].
    rewrite sent_app, Hs12. cbn [sent app]. now rewrite app_nil_r.
Qed.

Lemma connect_serial_no_KeyError (explicit : option string) w e w' :
  connect_serial E explicit w = (Raise e, w') -> not_a_KeyError e.
Proof.
  unfold connect_serial. intros H key ->. apply bind_inv in H.
  destruct H as [(dev & w1 & _ & H) | (e & Hsel & He)].
  - unfold open_serial in H.
    destruct (serial_Serial E _); discriminate.
  - injection He as <-.
    destruct explicit as [d |]; [discriminate |].
    destruct (bool_decide _); [discriminate |].
    destruct (_ >? 1); [discriminate |].
    destruct (_ !! 0%nat) as [p |]; [| discriminate].
    cbv [bind log_warning emit ret] in Hsel. discriminate.
Qed.

(** What [main] has sent when it returns normally, and when it raises
    [KeyError] for [fastboot]. *)
Lemma main_upload_spec (chipset : string) (unlock wipefrp : bool)
    (roles : gmap string Z) w r w' :
  load_manifest E (("loaders/" +:+ chipset) +:+ "/manifest.xml") = Some roles ->
  main E chipset unlock wipefrp w = (r, w') ->
  exists t,
    trace w' = trace w ++ t
    /\ match r with
       | Ok _ =>
           (is_Some (roles !! "xloader")
            /\ is_Some (file_contents E
                          (("loaders/" +:+ chipset) +:+ "/xloader.img")))
           /\ (is_Some (roles !! "fastboot")
               /\ is_Some (file_contents E
                             (("loaders/" +:+ chipset) +:+ "/fastboot.img")))
           /\ sent t
              = role_frames E roles ("loaders/" +:+ chipset) "xloader"
                ++ role_frames E roles ("loaders/" +:+ chipset) "uce"
                ++ role_frames E roles ("loaders/" +:+ chipset) "fastboot"
       | Raise e =>
           e = KeyError "fastboot" ->
           roles !! "fastboot" = None
           /\ (is_Some (roles !! "xloader")
               /\ is_Some (file_contents E
                             (("loaders/" +:+ chipset) +:+ "/xloader.img")))
           /\ sent t
              = role_frames E roles ("loaders/" +:+ chipset) "xloader"
                ++ role_frames E roles ("loaders/" +:+ chipset) "uce"
       end.
Proof.
  intros Hman H. unfold main in H.
  destruct (unlock && wipefrp).
  { injection H as <- <-. exists []. rewrite app_nil_r.
    split; [reflexivity | discriminate]. }
  cbv zeta in H.
  destruct (path_exists E _); cbn [negb] in H.
  2: { injection H as <- <-. exists []. rewrite app_nil_r.
       split; [reflexivity | discriminate]. }
  rewrite Hman in H.
  unfold bind at 1 in H. unfold ret at 1 in H.
  unfold bind at 1 in H. unfold print at 1, emit at 1 in H.
  set (p0 := Print ("[INFO] Uploading images for chipset: " +:+ chipset) [])
    in H.
  unfold bind at 1 in H.
  destruct (print_role_addresses_spec roles ["xloader"; "fastboot"; "uce"]
              (add_event p0 w))
    as (w1 & t1 & Hrun & Ht1 & Hw1 & _).
  rewrite Hrun in H. cbn [trace add_event] in Ht1.
  apply written_nil_sent_nil in Hw1.
  unfold bind at 1 in H. unfold with_ImageFlasher at 1 in H.
  unfold bind at 1 in H.
  destruct (connect_serial E None (set_serial None w1))
    as [[u | e] w2] eqn:Hcs.
  2: { pose proof (connect_serial_no_KeyError _ _ _ _ Hcs) as Hno.
       apply connect_serial_opens_last in Hcs.
       destruct Hcs as (t2 & Ht2 & _). cbn [trace set_serial] in Ht2.
       destruct (serial w2); injection H as <- <-.
       - exists (([p0] ++ t1) ++ t2 ++ [SerialClose]).
         split; [cbn [trace add_event];
                 now rewrite Ht2, Ht1, <- !app_assoc |].
         intros ->. now destruct (Hno "fastboot").
       - exists (([p0] ++ t1) ++ t2).
         split; [now rewrite Ht2, Ht1, <- !app_assoc |].
         intros ->. now destruct (Hno "fastboot"). }
  apply connect_serial_opens_last in Hcs.
  destruct Hcs as (t2 & Ht2 & Hc2 & pre & p & -> & Hwp & _).
  cbn [trace set_serial] in Ht2.
  assert (Hs2 : sent (pre ++ [SerialOpen p]) = []).
  { rewrite sent_app, (written_nil_sent_nil pre Hwp). reflexivity. }
  match type of H with
  | context [?stage w2] =>
      match stage with
      | bind _ _ => destruct (stage w2) as [r3 w3] eqn:Hstage
      end
  end.
  apply upload_stage_spec in Hstage; [| assumption].
  destruct Hstage as (t3 & Ht3 & Hr3).
  assert (Hs : sent (([p0] ++ t1) ++ (pre ++ [SerialOpen p]) ++ t3) = sent t3).
  { rewrite sent_app, (sent_app [p0]), Hw1, sent_app, Hs2. reflexivity. }
  assert (Hw3 : exists w3',
             match serial w3 with
             | Some _ => add_event SerialClose w3
             | None => w3
             end = w3'
             /\ exists c, trace w3' = trace w3 ++ c /\ sent c = []).
  { eexists. split; [reflexivity |].
    destruct (serial w3).
    - exists [SerialClose]. split; reflexivity.
    - exists []. now rewrite app_nil_r. }
  destruct Hw3 as (w3' & Hw3' & c & Hc & Hsc).
  rewrite Hw3' in H.
  destruct r3 as [u3 | e3].
  - cbv [bind print sleep emit] in H. injection H as <- <-.
    exists (((([p0] ++ t1) ++ (pre ++ [SerialOpen p]) ++ t3) ++ c)
            ++ [Print "[INFO] Upload complete, waiting 5 seconds." [];
                Sleep 5]).
    split.
    + cbn [trace add_event]. rewrite Hc, Ht3, Ht2, Ht1, <- !app_assoc.
      reflexivity.
    + rewrite sent_app, (sent_app _ c), Hs, Hsc. cbn [sent].
      rewrite !app_nil_r. exact Hr3.
  - injection H as <- <-.
    exists ((([p0] ++ t1) ++ (pre ++ [SerialOpen p]) ++ t3) ++ c).
    split.
    + rewrite Hc, Ht3, Ht2, Ht1, <- !app_assoc. reflexivity.
    + rewrite (sent_app _ c), Hs, Hsc, app_nil_r. exact Hr3.
Qed.

(** X14. When [main] returns normally, the role table has [xloader] and
    [fastboot], their image files exist, and the frames sent are, in this
    order, a complete upload of the xloader image, a complete upload of
    the uce image if the role table has [uce], and a complete upload of
    the fastboot image, each to the address of its role, and nothing
    else. *)
Theorem main_uploads_in_order (chipset : string) (unlock wipefrp : bool)
    (roles : gmap string Z) (w w' : world) :
  load_manifest E (("loaders/" +:+ chipset) +:+ "/manifest.xml") = Some roles ->
  main E chipset unlock wipefrp w = (Ok tt, w') ->
  exists t address_x data_x address_f data_f,
    trace w' = trace w ++ t
    /\ roles !! "xloader" = Some address_x
    /\ file_contents E (("loaders/" +:+ chipset) +:+ "/xloader.img")
       = Some data_x
    /\ roles !! "fastboot" = Some address_f
    /\ file_contents E (("loaders/" +:+ chipset) +:+ "/fastboot.img")
       = Some data_f
    /\ sent t
       = upload_frames address_x data_x
         ++ role_frames E roles ("loaders/" +:+ chipset) "uce"
         ++ upload_frames address_f data_f.
Proof.
  intros Hman H.
  destruct (main_upload_spec _ _ _ _ _ _ _ Hman H)
    as (t & Ht & ([ax Hax] & [dx Hdx]) & ([af Haf] & [df Hdf]) & Hs).
  exists t, ax, dx, af, df. repeat split; try assumption.
  rewrite Hs. unfold role_frames at 1 3.
  change (("loaders/" +:+ chipset) +:+ "/" +:+ "xloader" +:+ ".img")
    with (("loaders/" +:+ chipset) +:+ "/xloader.img").
  change (("loaders/" +:+ chipset) +:+ "/" +:+ "fastboot" +:+ ".img")
    with (("loaders/" +:+ chipset) +:+ "/fastboot.img").
  now rewrite Hax, Hdx, Haf, Hdf.
Qed.

(** X15. When the role table has no [fastboot], [main] never returns
    normally; and when it aborts with the [KeyError] for [fastboot], that
    is after the xloader image, and the uce image if the role table has
    [uce], were uploaded in full: the missing role is found out only when
    its turn comes. *)
Theorem missing_fastboot_aborts_late
    (chipset : string) (unlock wipefrp : bool)
    (roles : gmap string Z) (w : world) (r : result unit) (w' : world) :
  load_manifest E (("loaders/" +:+ chipset) +:+ "/manifest.xml") = Some roles ->
  roles !! "fastboot" = None ->
  main E chipset unlock wipefrp w = (r, w') ->
  (exists e, r = Raise e)
  /\ (r = Raise (KeyError "fastboot") ->
      exists t address_x data_x,
        trace w' = trace w ++ t
        /\ roles !! "xloader" = Some address_x
        /\ file_contents E (("loaders/" +:+ chipset) +:+ "/xloader.img")
           = Some data_x
        /\ sent t
           = upload_frames address_x data_x
             ++ role_frames E roles ("loaders/" +:+ chipset) "uce").
Proof.
  intros Hman Hnone H.
  destruct (main_upload_spec _ _ _ _ _ _ _ Hman H) as (t & Ht & Hr).
  split.
  - destruct r as [u | e]; [| eauto].
    destruct Hr as (_ & ([af Haf] & _) & _). congruence.
  - intros ->. destruct (Hr eq_refl) as (_ & ([ax Hax] & [dx Hdx]) & Hs).
    exists t, ax, dx. repeat split; try assumption.
    rewrite Hs. unfold role_frames at 1.
    change (("loaders/" +:+ chipset) +:+ "/" +:+ "xloader" +:+ ".img")
      with (("loaders/" +:+ chipset) +:+ "/xloader.img").
    now rewrite Hax, Hdx.
Qed.

End UploadOrder.

Lemma main_uploads_in_order_witness :
  exists t address_x data_x address_f data_f,
    trace (snd (main Scenario.healthy "hisi960" true false Scenario.fresh))
    = trace Scenario.fresh ++ t
    /\ Scenario.both_roles !! "xloader" = Some address_x
    /\ file_contents Scenario.healthy
         (("loaders/" +:+ "hisi960") +:+ "/xloader.img") = Some data_x
    /\ Scenario.both_roles !! "fastboot" = Some address_f
    /\ file_contents Scenario.healthy
         (("loaders/" +:+ "hisi960") +:+ "/fastboot.img") = Some data_f
    /\ sent t
       = upload_frames address_x data_x
         ++ role_frames Scenario.healthy Scenario.both_roles
              ("loaders/" +:+ "hisi960") "uce"
         ++ upload_frames address_f data_f.
Proof.
  apply (main_uploads_in_order Scenario.healthy "hisi960" true false
           Scenario.both_roles Scenario.fresh).
  - reflexivity.
  - vm_compute. reflexivity.
Defined.

Lemma missing_fastboot_aborts_late_witness :
  exists t address_x data_x,
    trace (snd (main only_xloader_env "hisi960" true false Scenario.fresh))
    = trace Scenario.fresh ++ t
    /\ ({[ "xloader" := 0x00020000 ]} : gmap string Z) !! "xloader"
       = Some address_x
    /\ file_contents only_xloader_env
         (("loaders/" +:+ "hisi960") +:+ "/xloader.img") = Some data_x
    /\ sent t
       = upload_frames address_x data_x
         ++ role_frames only_xloader_env {[ "xloader" := 0x00020000 ]}
              ("loaders/" +:+ "hisi960") "uce".
Proof.
  refine (proj2 (missing_fastboot_aborts_late only_xloader_env "hisi960"
                   true false {[ "xloader" := 0x00020000 ]} Scenario.fresh
                   (Raise (KeyError "fastboot")) _ _ _ _) _).
  - reflexivity.
  - vm_compute. reflexivity.
  - vm_compute. reflexivity.
  - reflexivity.
Defined.

(** ** The deadline of send_data *)

Section Deadline.

Variable E : env.

Lemma no_tail_written_frame (f : bytes) (m : M unit) :
  is_tail_frame f = false ->
  (forall w r w', m w = (r, w') -> frame_run f w r w') ->
  no_tail_written m.
Proof.
  intros Hf Hm w r w' H.
  destruct (Hm w r w' H) as (_ & _ & t & Ht & Hw & _).
  exists t. split; [assumption |].
  induction Hw as [| g l <- _ IH]; [reflexivity |].
  cbn [List.filter]. now rewrite Hf.
Qed.

Lemma no_tail_written_bind {A B} (m : M A) (k : A -> M B) :
  no_tail_written m -> (forall a, no_tail_written (k a)) ->
  no_tail_written (bind m k).
Proof.
  intros Hm Hk w r w' H. apply bind_inv in H.
  destruct H as [(a & w1 & H1 & H2) | (e & H1 & ->)].
  - destruct (Hm _ _ _ H1) as (t1 & Ht1 & Hp1).
    destruct (Hk a _ _ _ H2) as (t2 & Ht2 & Hp2).
    exists (t1 ++ t2).
    rewrite Ht2, Ht1, app_assoc, written_app, List.filter_app, Hp1, Hp2.
    auto.
  - exact (Hm _ _ _ H1).
Qed.

Lemma no_tail_written_still {A} (m : M A) :
  (forall w, exists r e, m w = (r, w) \/ m w = (r, add_event e w)
                         /\ written [e] = []) ->
  no_tail_written m.
Proof.
  intros Hm w r w' H.
  destruct (Hm w) as (r0 & e & [H0 | [H0 He]]); rewrite H0 in H;
    injection H as <- <-.
  - exists []. now rewrite app_nil_r.
  - exists [e]. cbn [trace add_event]. now rewrite He.
Qed.

Lemma no_tail_written_body (nframes : Z) (start_time : PrimFloat.float)
    (n : Z) (st : send_data_locals) :
  no_tail_written (send_data_body E nframes start_time n st).
Proof.
  unfold send_data_body.
  apply no_tail_written_bind.
  { intros w r w' H. injection H as <- <-. exists []. cbn.
    now rewrite app_nil_r. }
  intros t. destruct (PrimFloat.ltb _ _).
  { apply no_tail_written_still. intros w.
    exists (Raise (TimeoutException "Upload timeout exceeded!")),
      SerialClose.
    now left. }
  destruct (match loc_data st with
            | Bytes b => _
            | File unread => _
            end) as [chunk rest].
  apply no_tail_written_bind.
  { apply (no_tail_written_frame (with_trailer (data_frame (n + 1) chunk)));
      [reflexivity |].
    intros w r w'. apply send_data_frame_run. }
  intros _. cbv beta zeta.
  destruct (_ >? _).
  - apply no_tail_written_bind.
    + apply no_tail_written_still. intros w. eexists _, _. right.
      split; reflexivity.
    + intros _. apply no_tail_written_still. intros w.
      eexists _, SerialClose. left. reflexivity.
  - apply no_tail_written_still. intros w.
    eexists _, SerialClose. left. reflexivity.
Qed.

Lemma no_tail_written_loop {X S} (body : X -> S -> M S) (xs : list X) :
  (forall x s, no_tail_written (body x s)) ->
  forall s, no_tail_written (for_each xs body s).
Proof.
  intros Hbody. induction xs as [| x xs IH]; intros s.
  - apply no_tail_written_still. intros w.
    exists (Ok s), SerialClose. left. reflexivity.
  - cbn [for_each]. apply no_tail_written_bind; [apply Hbody | exact IH].
Qed.

(** A [send_data] that raises [TimeoutException] has written no tail
    frame: the exception comes from a check in the loop, before
    [send_tail_frame] is reached. *)
Lemma send_data_timeout_writes (data : source) (length address : Z)
    (w : world) (e : exn) (w' : world) :
  send_data E data length address w = (Raise e, w') ->
  timed_out e ->
  exists t,
    trace w' = trace w ++ t
    /\ List.filter is_tail_frame (written t) = [].
Proof.
  intros H Hto. unfold send_data in H. cbv zeta in H.
  change (match data with Bytes b => len b | File _ => length end)
    with (payload_length data length) in H.
  set (L := payload_length data length) in *.
  destruct (Z.eqb_spec L 0) as [H0 | H0].
  { injection H as <- <-. exists []. now rewrite app_nil_r. }
  assert (Hhead : no_tail_written (send_head_frame E L address)).
  { apply (no_tail_written_frame (with_trailer (head_frame L address)));
      [reflexivity |].
    intros w0 r0 w0' H0'. now apply send_head_frame_run in H0'. }
  apply bind_inv in H.
  destruct H as [(u1 & w1 & H1 & H) | (e1 & H1 & He)].
  2: { exact (Hhead _ _ _ H1). }
  destruct (Hhead _ _ _ H1) as (t1 & Ht1 & Hp1).
  unfold bind at 1 in H. unfold now at 1 in H.
  apply bind_inv in H.
  destruct H as [(st & w2 & H2 & H) | (e2 & H2 & He)];
    apply no_tail_written_loop in H2;
    try (intros; apply no_tail_written_body);
    destruct H2 as (t2 & Ht2 & Hp2); cbn [trace count_clock_read] in Ht2.
  2: { exists (t1 ++ t2).
       rewrite Ht2, Ht1, app_assoc, written_app, List.filter_app, Hp1, Hp2.
       auto. }
  exfalso. unfold timed_out in Hto. subst e.
  cbv [bind print emit] in H. cbv beta iota in H.
  destruct (loc_n st) as [n |]; [| discriminate].
  destruct (send_tail_frame E (n + 1)
              (add_event (Print "\nUpload complete!" []) w2))
    as [[u3 | e3] w3] eqn:Htail; [discriminate |].
  injection H as -> _.
  apply send_tail_frame_run in Htail.
  destruct Htail as (_ & _ & t3 & _ & _ & _ & _ & [Hf | (code & Hf)]);
    discriminate.
Qed.

(** X16. After the header frame [send_data] reads the clock, and before
    each data frame it reads it again and compares, in doubles, the
    reading minus that first one with 50.  On a connected flasher a normal
    return means that at none of these checks the difference was above 50.
    When it raises, no tail frame went through; and when it raises
    [TimeoutException], one of the checks found the difference above 50
    and no tail frame was even written. *)
Theorem send_data_deadline
    (data : source) (length address : Z) (w : world) (r : result unit)
    (w' : world) :
  connected w ->
  send_data E data length address w = (r, w') ->
  let start_time := time_time E (clock_reads w) in
  let checks := Z.to_nat (nframes_of (payload_length data length)) in
  exists t,
    trace w' = trace w ++ t
    /\ match r with
       | Ok _ =>
           forall j, (j < checks)%nat ->
             within_deadline E start_time (S (clock_reads w) + j)
       | Raise e =>
           List.filter is_tail_frame (sent t) = []
           /\ (timed_out e ->
               List.filter is_tail_frame (written t) = []
               /\ exists j, (j < checks)%nat
                    /\ ~ within_deadline E start_time
                           (S (clock_reads w) + j))
       end.
Proof.
  intros Hc H start_time checks. pose proof H as Hrun.
  apply send_data_spec in H; [| assumption].
  destruct H as (t & Ht & _ & Hr). exists t. split; [assumption |].
  destruct r as [u | e].
  - destruct Hr as (_ & _ & Hdl). exact Hdl.
  - split.
    + destruct Hr as [(msg & _ & ->) | [_ Hp]]; [reflexivity |].
      now apply partial_upload_no_tail in Hp.
    + intros Hto. split.
      * destruct (send_data_timeout_writes _ _ _ _ _ _ Hrun Hto)
          as (t' & Ht' & Hw).
        rewrite Ht in Ht'. apply app_inv_head in Ht'. now subst t'.
      * unfold timed_out in Hto. subst e.
        destruct Hr as [(msg & Hm & _) | [[[Hf | (code & Hf)] | [_ Hj]] _]];
          try discriminate.
        exact Hj.
Qed.

End Deadline.

Lemma send_data_deadline_witness :
  exists t,
    trace (snd (send_data Scenario.stalled (Bytes Scenario.payload) 2500
                  0x00100000 Scenario.plugged))
    = trace Scenario.plugged ++ t
    /\ List.filter is_tail_frame (sent t) = []
    /\ (timed_out (TimeoutException "Upload timeout exceeded!") ->
        List.filter is_tail_frame (written t) = []
        /\ exists j, (j < Z.to_nat (nframes_of 2500))%nat
             /\ ~ within_deadline Scenario.stalled
                    (time_time Scenario.stalled 0) (S 0 + j)).
Proof.
  refine (send_data_deadline Scenario.stalled (Bytes Scenario.payload) 2500
            0x00100000 Scenario.plugged
            (Raise (TimeoutException "Upload timeout exceeded!")) _ _ _).
  - discriminate.
  - vm_compute. reflexivity.
Defined.

(** The difference of the doubles nearest 50.1 and 0.1 rounds to 50.0,
    which is not above 50: the check passes and the upload goes on. *)
Example deadline_check_rounds :
  within_deadline tenth_env (time_time tenth_env 0) 1
  /\ fst (send_data tenth_env (Bytes [1; 2; 3]) 3 0x00100000
            Scenario.plugged)
     = Ok tt.
Proof. split; vm_compute; reflexivity. Qed.

(** ** The progress line *)

Section Progress.

Variable E : env.

Lemma progress_app (t1 t2 : list event) :
  progress (t1 ++ t2) = progress t1 ++ progress t2.
Proof.
  induction t1 as [| e t1 IH]; [reflexivity |].
  destruct e as [| | | | text args |]; cbn [app progress]; try exact IH.
  destruct (String.eqb text _); [| exact IH].
  now rewrite IH, app_assoc.
Qed.

Lemma last_cons (p : Z) (l : list Z) (d : Z) :
  List.last (p :: l) d = List.last l p.
Proof.
  revert p d. induction l as [| q l IH]; intros p d; [reflexivity |].
  change (List.last (p :: q :: l) d) with (List.last (q :: l) d).
  now rewrite (IH q d), (IH q p).
Qed.

Lemma increasing_app (last : Z) (l1 l2 : list Z) :
  increasing last l1 ->
  increasing (List.last l1 last) l2 ->
  increasing last (l1 ++ l2).
Proof.
  revert last. induction l1 as [| p l1 IH]; intros last H1 H2; [exact H2 |].
  destruct H1 as [Hp H1]. split; [assumption |].
  apply IH; [assumption |]. now rewrite last_cons in H2.
Qed.

Lemma last_app_cons (l1 l2 : list Z) (d : Z) :
  List.last (l1 ++ l2) d = List.last l2 (List.last l1 d).
Proof.
  revert d. induction l1 as [| p l1 IH]; intros d; [reflexivity |].
  change ((p :: l1) ++ l2) with (p :: (l1 ++ l2)).
  rewrite !last_cons. apply IH.
Qed.

Lemma silent_ret {A} (a : A) : silent (ret a).
Proof.
  intros w r w' H. injection H as <- <-. exists []. now rewrite app_nil_r.
Qed.

Lemma silent_raise {A} (e : exn) : silent (@raise A e).
Proof.
  intros w r w' H. injection H as <- <-. exists []. now rewrite app_nil_r.
Qed.

Lemma silent_lift {A} (x : result A) : silent (lift x).
Proof.
  intros w r w' H. injection H as <- <-. exists []. now rewrite app_nil_r.
Qed.

Lemma silent_bind {A B} (m : M A) (k : A -> M B) :
  silent m -> (forall a, silent (k a)) -> silent (bind m k).
Proof.
  intros Hm Hk w r w' H. apply bind_inv in H.
  destruct H as [(a & w1 & H1 & H2) | (e & H1 & ->)].
  - destruct (Hm _ _ _ H1) as (t1 & Ht1 & Hp1).
    destruct (Hk a _ _ _ H2) as (t2 & Ht2 & Hp2).
    exists (t1 ++ t2). rewrite Ht2, Ht1, app_assoc, progress_app, Hp1, Hp2.
    auto.
  - exact (Hm _ _ _ H1).
Qed.

Lemma silent_emit (e : event) : progress [e] = [] -> silent (emit e).
Proof.
  intros He w r w' H. injection H as <- <-. exists [e]. auto.
Qed.

Lemma silent_set_timeout (q : Q) : silent (set_timeout q).
Proof.
  intros w r w' H.
  destruct (set_timeout_spec q w) as (w1 & H1 & Ht & _).
  rewrite H1 in H. injection H as <- <-.
  exists []. now rewrite app_nil_r.
Qed.

Lemma silent_now : silent (now E).
Proof.
  intros w r w' H. injection H as <- <-. exists []. cbn.
  now rewrite app_nil_r.
Qed.

Lemma writes_of_progress (data : bytes) (t : list event) :
  writes_of data t -> progress t = [].
Proof. induction 1 as [| e t [ok ->] _ IH]; [reflexivity | exact IH]. Qed.

Lemma silent_send_frame (data : bytes) (loop : Z) :
  silent (send_frame E data loop).
Proof.
  intros w r w' H. rewrite send_frame_eq in H.
  apply send_frame_loop_spec in H.
  destruct H as (_ & _ & _ & t & Ht & Hw & _).
  exists t. split; [assumption |]. now apply writes_of_progress in Hw.
Qed.

Lemma silent_send_head_frame (length address : Z) :
  silent (send_head_frame E length address).
Proof.
  unfold send_head_frame.
  apply silent_bind; [apply silent_set_timeout | intros _].
  apply silent_bind; [now apply silent_emit | intros _].
  apply silent_bind; [apply silent_lift | intros l].
  apply silent_bind; [apply silent_lift | intros a].
  apply silent_send_frame.
Qed.

Lemma silent_send_data_frame (n : Z) (chunk : bytes) :
  silent (send_data_frame E n chunk).
Proof.
  unfold send_data_frame.
  apply silent_bind; [apply silent_set_timeout | intros _].
  apply silent_send_frame.
Qed.

Lemma silent_send_tail_frame (n : Z) : silent (send_tail_frame E n).
Proof.
  unfold send_tail_frame.
  apply silent_bind; [apply silent_set_timeout | intros _].
  apply silent_bind; [now apply silent_emit | intros _].
  apply silent_send_frame.
Qed.

(** One iteration prints at most the percentage of its frame, and leaves
    it as the last percentage printed. *)
Lemma send_data_body_progress (nframes : Z) (start_time : PrimFloat.float)
    (n : Z) (st : send_data_locals) w r w' :
  0 < nframes -> 0 <= n ->
  loc_last_percent st <= (100 * n) / nframes ->
  send_data_body E nframes start_time n st w = (r, w') ->
  exists t,
    trace w' = trace w ++ t
    /\ increasing (loc_last_percent st) (progress t)
    /\ Forall (fun p => p <= (100 * (n + 1)) / nframes) (progress t)
    /\ match r with
       | Ok st' =>
           loc_last_percent st' = (100 * (n + 1)) / nframes
           /\ List.last (progress t) (loc_last_percent st)
              = (100 * (n + 1)) / nframes
       | Raise _ => True
       end.
Proof.
  intros Hnf Hn Hlast H.
  assert (Hmono : (100 * n) / nframes <= (100 * (n + 1)) / nframes)
    by (apply Z.div_le_mono; lia).
  unfold send_data_body in H.
  apply bind_inv in H.
  destruct H as [(now_t & w1 & Hnow & H) | (e & Hnow & ->)];
    apply silent_now in Hnow; destruct Hnow as (t1 & Ht1 & Hp1).
  2: { exists t1. rewrite Hp1. repeat split; auto. }
  destruct (PrimFloat.ltb _ _).
  { injection H as <- <-. exists t1. rewrite Hp1. repeat split; auto. }
  destruct (match loc_data st with
            | Bytes b => _
            | File unread => _
            end) as [chunk rest].
  apply bind_inv in H.
  destruct H as [(u & w2 & Hsend & H) | (e & Hsend & ->)];
    apply silent_send_data_frame in Hsend;
    destruct Hsend as (t2 & Ht2 & Hp2).
  2: { exists (t1 ++ t2). rewrite Ht2, Ht1, app_assoc, progress_app, Hp1, Hp2.
       repeat split; auto. }
  cbv beta zeta in H.
  destruct (Z.gtb_spec ((100 * (n + 1)) / nframes) (loc_last_percent st))
    as [Hgt | Hle];
    cbv [bind print emit ret] in H; injection H as <- <-.
  - eexists. cbn [trace add_event]. rewrite Ht2, Ht1, <- !app_assoc.
    split; [reflexivity |].
    rewrite !progress_app, Hp1, Hp2. cbn.
    repeat split; try lia. repeat constructor. lia.
  - exists (t1 ++ t2). rewrite Ht2, Ht1, app_assoc, progress_app, Hp1, Hp2.
    cbn. repeat split; auto; lia.
Qed.

Lemma send_data_loop_progress (nframes : Z) (start_time : PrimFloat.float)
    (hi : Z) :
  0 < nframes ->
  forall lo st w r w',
    0 <= lo <= hi ->
    loc_last_percent st <= (100 * lo) / nframes ->
    for_each (range lo hi) (send_data_body E nframes start_time) st w
    = (r, w') ->
    exists t,
      trace w' = trace w ++ t
      /\ increasing (loc_last_percent st) (progress t)
      /\ Forall (fun p => p <= (100 * hi) / nframes) (progress t)
      /\ match r with
         | Ok _ =>
             lo < hi ->
             List.last (progress t) (loc_last_percent st)
             = (100 * hi) / nframes
         | Raise _ => True
         end.
Proof.
  intros Hnf lo. pattern lo. apply (range_ind hi); clear lo.
  - intros lo Hge st w r w' Hlo Hlast H.
    rewrite range_nil in H by assumption. cbv [for_each ret] in H.
    injection H as <- <-. exists []. rewrite app_nil_r.
    repeat split; [constructor | lia].
  - intros lo Hlt IH st w r w' Hlo Hlast H.
    rewrite range_cons in H by assumption. cbn [for_each] in H.
    apply bind_inv in H.
    destruct H as [(st1 & w1 & Hbody & H) | (e & Hbody & ->)];
      apply send_data_body_progress in Hbody; try assumption; try lia;
      destruct Hbody as (t1 & Ht1 & Hinc1 & Hall1 & Hr1).
    + destruct Hr1 as [Hl1 Hlast1].
      apply IH in H; [| lia | rewrite Hl1; lia].
      destruct H as (t2 & Ht2 & Hinc2 & Hall2 & Hr2).
      rewrite Hl1 in Hinc2, Hr2.
      exists (t1 ++ t2). rewrite Ht2, Ht1, app_assoc, progress_app.
      split; [reflexivity |]. split; [| split].
      * apply increasing_app; [assumption | now rewrite Hlast1].
      * apply Forall_app. split; [| assumption].
        eapply Forall_impl; [exact Hall1 |]. cbn. intros p Hp.
        assert ((100 * (lo + 1)) / nframes <= (100 * hi) / nframes)
          by (apply Z.div_le_mono; lia).
        lia.
      * destruct r as [st' | e]; [| exact I]. intros _.
        rewrite last_app_cons, Hlast1.
        destruct (Z.eq_dec (lo + 1) hi) as [<- | Hne].
        -- assert (Hp2 : progress t2 = []).
           { destruct (progress t2) as [| p l]; [reflexivity |].
             destruct Hinc2 as [Hlt2 _]. inversion Hall2; subst. lia. }
           now rewrite Hp2.
        -- apply Hr2. lia.
    + exists t1. split; [assumption |]. split; [assumption |].
      split; [| exact I].
      eapply Forall_impl; [exact Hall1 |]. cbn. intros p Hp.
      assert ((100 * (lo + 1)) / nframes <= (100 * hi) / nframes)
        by (apply Z.div_le_mono; lia).
      lia.
Qed.

(** X17. The percentages [send_data] prints on its progress line are
    strictly increasing, lie between 0 and 100, and no percentage is
    printed twice; when [send_data] returns normally, the last one
    printed is 100. *)
Theorem send_data_progress_increases
    (data : source) (length address : Z) (w : world) (r : result unit)
    (w' : world) :
  send_data E data length address w = (r, w') ->
  exists t,
    trace w' = trace w ++ t
    /\ increasing (-1) (progress t)
    /\ Forall (fun p => p <= 100) (progress t)
    /\ (r = Ok tt -> List.last (progress t) (-1) = 100).
Proof.
  intros H. unfold send_data in H. cbv zeta in H.
  change (match data with Bytes b => len b | File _ => length end)
    with (payload_length data length) in H.
  set (L := payload_length data length) in *.
  destruct (Z.eqb_spec L 0) as [H0 | H0].
  { injection H as <- <-. exists []. rewrite app_nil_r.
    repeat split; [constructor | discriminate]. }
  apply bind_inv in H.
  destruct H as [(u1 & w1 & Hhead & H) | (e & Hhead & ->)].
  2: { apply silent_send_head_frame in Hhead.
       destruct Hhead as (t1 & Ht1 & Hp1). exists t1. rewrite Hp1.
       repeat split; [assumption | constructor | discriminate]. }
  pose proof Hhead as Hfit. apply send_head_frame_run in Hfit.
  destruct Hfit as [_ Hfit].
  assert (Hpos : 0 < L) by (destruct u1, (Hfit eq_refl) as [HL _]; lia).
  pose proof (nframes_of_pos L Hpos) as Hnf.
  apply silent_send_head_frame in Hhead.
  destruct Hhead as (t1 & Ht1 & Hp1).
  unfold bind at 1 in H. unfold now at 1 in H.
  apply bind_inv in H.
  destruct H as [(st & w2 & Hloop & H) | (e & Hloop & ->)];
    (apply send_data_loop_progress in Hloop;
       [| assumption | lia | cbn; rewrite Z.div_0_l by lia; lia]);
    destruct Hloop as (t2 & Ht2 & Hinc2 & Hall2 & Hr2);
    cbn [trace count_clock_read loc_last_percent] in Ht2, Hinc2, Hr2;
    rewrite Z.div_mul in Hall2 by lia;
    try rewrite Z.div_mul in Hr2 by lia.
  2: { exists (t1 ++ t2). rewrite Ht2, Ht1, app_assoc, progress_app, Hp1.
       repeat split; [assumption | assumption | discriminate]. }
  specialize (Hr2 Hnf).
  apply bind_inv in H.
  assert (Hrest : forall r3 w3 (k : M unit),
             silent k -> k w2 = (r3, w3) ->
             exists t,
               trace w3 = trace w ++ t
               /\ progress t = progress t2).
  { intros r3 w3 k Hk Hrun. destruct (Hk _ _ _ Hrun) as (t3 & Ht3 & Hp3).
    exists ((t1 ++ t2) ++ t3).
    rewrite Ht3, Ht2, Ht1, <- !app_assoc.
    split; [reflexivity |].
    rewrite !progress_app, Hp1, Hp3, app_nil_r. reflexivity. }
  assert (Hsil : silent
            (print "\nUpload complete!" [] ;;
             match loc_n st with
             | Some n => send_tail_frame E (n + 1)
             | None => raise (UnboundLocalError "n")
             end ;;
             sleep (1 # 2))).
  { apply silent_bind; [now apply silent_emit | intros _].
    apply silent_bind; [| intros _; now apply silent_emit].
    destruct (loc_n st); [apply silent_send_tail_frame | apply silent_raise]. }
  assert (Hfinal : (print "\nUpload complete!" [] ;;
                    match loc_n st with
                    | Some n => send_tail_frame E (n + 1)
                    | None => raise (UnboundLocalError "n")
                    end ;;
                    sleep (1 # 2)) w2 = (r, w')).
  { unfold bind at 1.
    destruct H as [(u & w3 & Hprint & H) | (e & Hprint & ->)].
    - rewrite Hprint. exact H.
    - discriminate. }
  destruct (Hrest r w' _ Hsil Hfinal) as (t & Ht & Hp).
  exists t. rewrite Hp.
  split; [assumption |]. split; [assumption |]. split; [assumption |].
  intros _. exact Hr2.
Qed.

End Progress.

Lemma send_data_progress_increases_witness :
  exists t,
    trace (snd (send_data Scenario.healthy (Bytes Scenario.payload) 0
                  0x00100000 Scenario.plugged))
    = trace Scenario.plugged ++ t
    /\ increasing (-1) (progress t)
    /\ Forall (fun p => p <= 100) (progress t)
    /\ (Ok tt = Ok tt -> List.last (progress t) (-1) = 100).
Proof.
  apply (send_data_progress_increases Scenario.healthy
           (Bytes Scenario.payload) 0 0x00100000 Scenario.plugged (Ok tt)).
  vm_compute. reflexivity.
Defined.

(** ** The manifest *)

Section ManifestProps.

Variable int0 : string -> option Z.

Lemma truthy_iff (s : string) : Manifest.truthy s = true <-> s <> EmptyString.
Proof. destruct s; cbn; split; intros; congruence. Qed.

Lemma collect_declares (e : Manifest.Element) (r addr : string) (rest : list Manifest.Element)
    (acc : gmap string Z) :
  Manifest.declares e r addr ->
  Manifest.collect int0 (Manifest.findall "image" (e :: rest)) acc
  = match int0 addr with
    | Some a => Manifest.collect int0 (Manifest.findall "image" rest) (<[r := a]> acc)
    | None => None
    end.
Proof.
  intros (Ht & Hr & Hr0 & Ha & Ha0).
  cbn [Manifest.findall]. rewrite Ht, String.eqb_refl. cbn [Manifest.collect].
  rewrite Hr, Ha.
  apply truthy_iff in Hr0, Ha0. now rewrite Hr0, Ha0.
Qed.

Lemma collect_skips (e : Manifest.Element) (rest : list Manifest.Element)
    (acc : gmap string Z) :
  (forall r addr, ~ Manifest.declares e r addr) ->
  Manifest.collect int0 (Manifest.findall "image" (e :: rest)) acc
  = Manifest.collect int0 (Manifest.findall "image" rest) acc.
Proof.
  intros Hno. cbn [Manifest.findall].
  destruct (String.eqb_spec (Manifest.tag e) "image") as [Ht | Ht]; [| reflexivity].
  cbn [Manifest.collect].
  destruct (Manifest.get e "role") as [r |] eqn:Hr; [| reflexivity].
  destruct (Manifest.get e "address") as [addr |] eqn:Ha; [| reflexivity].
  destruct (Manifest.truthy r) eqn:Hr0; [| reflexivity].
  destruct (Manifest.truthy addr) eqn:Ha0; [| reflexivity].
  exfalso. apply (Hno r addr).
  repeat split; try assumption; apply truthy_iff; assumption.
Qed.

Lemma declares_or_not (e : Manifest.Element) :
  (exists r addr, Manifest.declares e r addr) \/ (forall r addr, ~ Manifest.declares e r addr).
Proof.
  destruct (String.eqb_spec (Manifest.tag e) "image") as [Ht | Ht].
  2: { right. intros r addr (H & _). contradiction. }
  destruct (Manifest.get e "role") as [r |] eqn:Hr.
  2: { right. intros r addr (_ & H & _). congruence. }
  destruct (Manifest.get e "address") as [addr |] eqn:Ha.
  2: { right. intros r' addr (_ & _ & _ & H & _). congruence. }
  destruct r as [| c r].
  { right. intros r' addr' (_ & H & H0 & _). congruence. }
  destruct addr as [| d addr].
  { right. intros r' addr' (_ & _ & _ & H & H0). congruence. }
  left. exists (String c r), (String d addr).
  repeat split; try assumption; discriminate.
Qed.

Lemma declares_functional (e : Manifest.Element) (r r' addr addr' : string) :
  Manifest.declares e r addr -> Manifest.declares e r' addr' -> r = r' /\ addr = addr'.
Proof.
  intros (_ & Hr & _ & Ha & _) (_ & Hr' & _ & Ha' & _).
  split; congruence.
Qed.

Lemma collect_lookup (root : list Manifest.Element) :
  forall (acc roles : gmap string Z) (r : string) (a : Z),
    Manifest.collect int0 (Manifest.findall "image" root) acc = Some roles ->
    roles !! r = Some a <->
    (exists l1 e l2 addr,
        root = l1 ++ e :: l2
        /\ Manifest.declares e r addr /\ int0 addr = Some a
        /\ Forall (fun e' => forall addr', ~ Manifest.declares e' r addr') l2)
    \/ (acc !! r = Some a
        /\ Forall (fun e' => forall addr', ~ Manifest.declares e' r addr') root).
Proof.
  induction root as [| e rest IH]; intros acc roles r a H.
  - injection H as <-. split.
    + intros Hl. right. split; [assumption | constructor].
    + intros [(l1 & e & l2 & addr & Heq & _) | [Hl _]]; [| assumption].
      destruct l1; discriminate.
  - destruct (declares_or_not e) as [(r0 & addr0 & Hd) | Hno].
    + rewrite (collect_declares e r0 addr0 rest acc Hd) in H.
      destruct (int0 addr0) as [a0 |] eqn:Hint; [| discriminate].
      rewrite (IH _ _ r a H). split.
      * intros [(l1 & e1 & l2 & addr & -> & Hd1 & Hi1 & Hq) | [Hl Hq]].
        -- left. exists (e :: l1), e1, l2, addr. auto.
        -- destruct (decide (r0 = r)) as [-> | Hne].
           ++ rewrite lookup_insert_eq in Hl. injection Hl as ->.
              left. exists [], e, rest, addr0. auto.
           ++ rewrite lookup_insert_ne in Hl by assumption.
              right. split; [assumption |]. constructor; [| assumption].
              intros addr' Hd'.
              destruct (declares_functional _ _ _ _ _ Hd Hd'). contradiction.
      * intros [(l1 & e1 & l2 & addr & Heq & Hd1 & Hi1 & Hq) | [Hl Hq]].
        -- destruct l1 as [| e0 l1]; injection Heq as <- ->.
           ++ destruct (declares_functional _ _ _ _ _ Hd Hd1) as [-> ->].
              right. rewrite lookup_insert_eq. split; [congruence | assumption].
           ++ left. exists l1, e1, l2, addr. auto.
        -- inversion Hq as [| ? ? Hq1 Hq2]; subst.
           right. split; [| assumption].
           rewrite lookup_insert_ne; [assumption |].
           intros ->. exact (Hq1 _ Hd).
    + rewrite (collect_skips e rest acc Hno) in H.
      rewrite (IH _ _ r a H). split.
      * intros [(l1 & e1 & l2 & addr & -> & Hd1 & Hi1 & Hq) | [Hl Hq]].
        -- left. exists (e :: l1), e1, l2, addr. auto.
        -- right. split; [assumption |]. constructor; [| assumption].
           intros addr'. apply Hno.
      * intros [(l1 & e1 & l2 & addr & Heq & Hd1 & Hi1 & Hq) | [Hl Hq]].
        -- destruct l1 as [| e0 l1]; injection Heq as <- ->.
           ++ destruct (Hno _ _ Hd1).
           ++ left. exists l1, e1, l2, addr. auto.
        -- inversion Hq; subst. right. auto.
Qed.

(** X18. In the table [load_manifest] returns, a role has the address of
    the last [image] element that carries that role with a non-empty
    address; elements with another tag, without role or without address
    contribute nothing, and a role no element declares is absent. *)
Theorem load_manifest_last_entry_wins
    (root : list Manifest.Element) (roles : gmap string Z)
    (r : string) (a : Z) :
  Manifest.load_manifest int0 root = Some roles ->
  roles !! r = Some a <->
  exists l1 e l2 addr,
    root = l1 ++ e :: l2
    /\ Manifest.declares e r addr /\ int0 addr = Some a
    /\ Forall (fun e' => forall addr', ~ Manifest.declares e' r addr') l2.
Proof.
  intros H. unfold Manifest.load_manifest in H.
  rewrite (collect_lookup root ∅ roles r a H). split.
  - intros [Hentry | [Hempty _]]; [exact Hentry |].
    rewrite lookup_empty in Hempty. discriminate.
  - intros Hentry. left. exact Hentry.
Qed.

(** X19. [load_manifest] fails exactly when some [image] element with a
    non-empty role and a non-empty address has an address that [int]
    rejects, wherever it stands and even if a later element gives the
    same role a good address. *)
Theorem load_manifest_fails_iff
    (root : list Manifest.Element) :
  Manifest.load_manifest int0 root = None <->
  exists e r addr,
    In e root /\ Manifest.declares e r addr /\ int0 addr = None.
Proof.
  unfold Manifest.load_manifest. revert root.
  generalize (∅ : gmap string Z).
  intros acc root. revert acc.
  induction root as [| e rest IH]; intros acc.
  - split; [discriminate | intros (e & r & addr & [] & _)].
  - destruct (declares_or_not e) as [(r0 & addr0 & Hd) | Hno].
    + rewrite (collect_declares e r0 addr0 rest acc Hd).
      destruct (int0 addr0) as [a0 |] eqn:Hint.
      * rewrite IH. split.
        -- intros (e1 & r & addr & Hin & Hd1 & Hi1).
           exists e1, r, addr. cbn. auto.
        -- intros (e1 & r & addr & [<- | Hin] & Hd1 & Hi1).
           ++ destruct (declares_functional _ _ _ _ _ Hd Hd1) as [-> ->].
              congruence.
           ++ exists e1, r, addr. auto.
      * split; [| reflexivity]. intros _.
        exists e, r0, addr0. cbn. auto.
    + rewrite (collect_skips e rest acc Hno), IH. split.
      * intros (e1 & r & addr & Hin & Hd1 & Hi1).
        exists e1, r, addr. cbn. auto.
      * intros (e1 & r & addr & [<- | Hin] & Hd1 & Hi1).
        -- destruct (Hno _ _ Hd1).
        -- exists e1, r, addr. auto.
Qed.

End ManifestProps.

Lemma load_manifest_last_entry_wins_witness :
  Manifest.load_manifest ManifestScenario.int0 ManifestScenario.root
  = Some ManifestScenario.roles
  /\ (ManifestScenario.roles !! "xloader"%string = Some 0x22000 <->
      exists l1 e l2 addr,
        ManifestScenario.root = l1 ++ e :: l2
        /\ Manifest.declares e "xloader" addr
        /\ ManifestScenario.int0 addr = Some 0x22000
        /\ Forall (fun e' => forall addr',
                     ~ Manifest.declares e' "xloader" addr') l2).
Proof.
  split; [vm_compute; reflexivity |].
  apply (load_manifest_last_entry_wins ManifestScenario.int0
           ManifestScenario.root ManifestScenario.roles "xloader" 0x22000).
  vm_compute. reflexivity.
Defined.

(** ** The port path on Windows *)

Section PortPath.

Variable E : env.

Lemma replace_free (new s : string) :
  free_of "C" s = true -> replace s "COM" new = s.
Proof.
  unfold replace. induction s as [| c s IH]; [reflexivity |].
  cbn [free_of]. intros H. apply andb_prop in H. destruct H as [Hc Hs].
  cbn [replace_from].
  replace (String.prefix "COM" (String c s)) with false.
  - now rewrite (IH Hs).
  - cbn [String.prefix]. destruct (ascii_dec "C" c) as [<- | Hne].
    + discriminate.
    + reflexivity.
Qed.

Lemma prefix_empty (s : string) : String.prefix EmptyString s = true.
Proof. destruct s; reflexivity. Qed.

Lemma replace_com (new rest : string) :
  free_of "C" rest = true ->
  replace ("COM" +:+ rest) "COM" new = new +:+ rest.
Proof.
  intros H. unfold replace.
  change ("COM" +:+ rest) with (String "C" (String "O" (String "M" rest))).
  cbn [replace_from String.prefix String.length Nat.sub].
  destruct (ascii_dec "C" "C"); [| contradiction].
  destruct (ascii_dec "O" "O"); [| contradiction].
  destruct (ascii_dec "M" "M"); [| contradiction].
  rewrite prefix_empty. cbn [replace_from].
  f_equal. apply (replace_free new rest H).
Qed.

Lemma connect_serial_explicit (dev : string) (w : world) :
  connect_serial E (Some dev) w = open_serial E (port_path E dev) w.
Proof. reflexivity. Qed.

Lemma open_serial_ok (port : string) (w w' : world) :
  open_serial E port w = (Ok tt, w') ->
  serial w' = Some (fresh_handle port)
  /\ trace w' = trace w ++ [SerialOpen port].
Proof.
  unfold open_serial. destruct (serial_Serial E port); [discriminate |].
  intros H. injection H as <-. split; reflexivity.
Qed.

(** X20. On Windows, [connect_serial] given the device [COM<n>], where
    [<n>] holds no capital C, opens the port [\\.\COM<n>] and no other. *)
Theorem windows_com_port_is_prefixed (rest : string) (w w' : world) :
  platform_system E = "Windows"%string ->
  free_of "C" rest = true ->
  connect_serial E (Some ("COM" +:+ rest)) w = (Ok tt, w') ->
  serial w' = Some (fresh_handle ("\\.\COM" +:+ rest))
  /\ opened (trace w') = opened (trace w) ++ ["\\.\COM" +:+ rest]%string.
Proof.
  intros Hwin Hfree H. rewrite connect_serial_explicit in H.
  assert (Hpath : port_path E ("COM" +:+ rest) = "\\.\COM" +:+ rest).
  { unfold port_path. rewrite Hwin.
    change (upper ("COM" +:+ rest)) with ("COM" +:+ upper rest).
    change (startswith ("COM" +:+ upper rest) "COM")
      with (String.prefix "COM"
              (String "C" (String "O" (String "M" (upper rest))))).
    cbn [String.eqb Ascii.eqb Bool.eqb andb String.prefix].
    destruct (ascii_dec "C" "C"); [| contradiction].
    destruct (ascii_dec "O" "O"); [| contradiction].
    destruct (ascii_dec "M" "M"); [| contradiction].
    try rewrite prefix_empty. apply (replace_com _ rest Hfree). }
  rewrite Hpath in H. apply open_serial_ok in H. destruct H as [Hs Ht].
  split; [assumption |]. rewrite Ht, opened_app. reflexivity.
Qed.

(** X21. Whatever the platform, [connect_serial] given a device name
    without a capital C opens that name unchanged: on Windows a name in
    lower case such as [com3] passes the test on [device.upper()] but is
    not rewritten, because [replace] looks for [COM] in capitals. *)
Theorem port_without_capital_is_unchanged (dev : string) (w w' : world) :
  free_of "C" dev = true ->
  connect_serial E (Some dev) w = (Ok tt, w') ->
  serial w' = Some (fresh_handle dev)
  /\ opened (trace w') = opened (trace w) ++ [dev].
Proof.
  intros Hfree H. rewrite connect_serial_explicit in H.
  assert (Hpath : port_path E dev = dev).
  { unfold port_path. destruct (_ && _); [| reflexivity].
    apply (replace_free _ dev Hfree). }
  rewrite Hpath in H. apply open_serial_ok in H. destruct H as [Hs Ht].
  split; [assumption |]. rewrite Ht, opened_app. reflexivity.
Qed.

End PortPath.

Lemma windows_com_port_is_prefixed_witness :
  serial (snd (connect_serial windows_env (Some "COM10"%string)
                 Scenario.fresh))
  = Some (fresh_handle "\\.\COM10")
  /\ opened (trace (snd (connect_serial windows_env (Some "COM10"%string)
                           Scenario.fresh)))
     = opened (trace Scenario.fresh) ++ ["\\.\COM10"%string].
Proof.
  apply (windows_com_port_is_prefixed windows_env "10" Scenario.fresh);
    reflexivity.
Defined.

Lemma port_without_capital_is_unchanged_witness :
  serial (snd (connect_serial windows_env (Some "com3"%string)
                 Scenario.fresh))
  = Some (fresh_handle "com3")
  /\ opened (trace (snd (connect_serial windows_env (Some "com3"%string)
                           Scenario.fresh)))
     = opened (trace Scenario.fresh) ++ ["com3"%string].
Proof.
  apply (port_without_capital_is_unchanged windows_env "com3"
           Scenario.fresh);
    reflexivity.
Defined.

Lemma load_manifest_fails_iff_witness :
  Manifest.load_manifest ManifestScenario.int0 bad_manifest_root = None.
Proof.
  apply (proj2 (load_manifest_fails_iff ManifestScenario.int0
                  bad_manifest_root)).
  exists (ManifestScenario.element "image"
            [("role", "xloader"); ("address", "twenty")]%string),
    "xloader"%string, "twenty"%string.
  split; [left; reflexivity |]. split; [| reflexivity].
  unfold Manifest.declares.
  repeat split; try (vm_compute; reflexivity); discriminate.
Defined.
